(** * Disaster-response ETL: [data/process_data.py]

    A shallow embedding of the three stages of the script
    ([load_data], [clean_data], [save_data]) and of [main], together
    with the properties of the transformation contract.

    Pandas objects are modelled column-major, the way the library stores
    them: a [Series] is a dtype kind and a list of cells, a [DataFrame]
    is a row index and a list of labelled columns.  Frames are mutable
    Python objects: the statements that update a frame in place
    ([drop(..., inplace=True)], [drop_duplicates(inplace=True)], column
    assignment) act on an object store, and a Python variable holds a
    reference into it.  A call that raises is a [Raise] outcome.

    Outside the script itself the model fixes what the script relies
    on: text is ASCII (a character is an [ascii]); numbers in cells are
    integers that a 64-bit column holds; a CSV file is the frame that
    [pd.read_csv] parses it to, so the dtype kinds of columns are those
    that [read_csv] infers ([b], [i], [u], [f], [O]), an unsigned
    column being a [uint64] column.  The library calls are modelled as
    pandas 2 and SQLAlchemy 2 run them on SQLite.  A database file is
    the set of its tables and is known by the text of its path; what
    the [merge] and [to_sql] calls refuse is modelled, failures of the
    disk are not. *)

From Stdlib Require Import ZArith Ascii String List Lia Bool.
From stdpp Require Import base option list gmap strings pretty.

Set Warnings "-clear-no-such-hyp".

Local Open Scope Z_scope.
Local Open Scope string_scope.
Local Open Scope list_scope.

(** ** Python values and exceptions *)

(** A cell of a frame: a missing value ([NaN] or [None], which pandas
    treats alike in [fillna] and in row comparison), a number, or a
    string.  Numeric payloads are integers; the script never computes
    with the fractional part of a float column. *)
Inductive cell : Type :=
  | NaN
  | Num (z : Z)
  | Str (s : string).

#[global] Instance cell_eq_dec : EqDecision cell.
Proof. solve_decision. Defined.

(** The exceptions that the modelled code can raise. *)
Inductive exn : Type :=
  | KeyError
  | IndexError
  | TypeError
  | ValueError
  | AttributeError
  | FileNotFoundError
  | ReferenceError
  | MergeError           (* pandas.errors.MergeError *)
  | ArgumentError        (* sqlalchemy.exc.ArgumentError *)
  | OperationalError.    (* sqlalchemy.exc.OperationalError *)

#[global] Instance exn_eq_dec : EqDecision exn.
Proof. solve_decision. Defined.

(** The outcome of a call: a value, or a raised exception. *)
Inductive result (A : Type) : Type :=
  | Ok (a : A)
  | Raise (e : exn).
Arguments Ok {A} a.
Arguments Raise {A} e.

#[global] Instance result_ret : MRet result := fun A a => Ok a.
#[global] Instance result_bind : MBind result := fun A B f r =>
  match r with
  | Ok a => f a
  | Raise e => Raise e
  end.
#[global] Instance result_fmap : FMap result := fun A B f r =>
  match r with
  | Ok a => Ok (f a)
  | Raise e => Raise e
  end.

(** Sequential map with the first exception winning, the evaluation
    order of [Series.apply]. *)
Fixpoint mapR {A B : Type} (f : A -> result B) (l : list A) : result (list B) :=
  match l with
  | [] => Ok []
  | x :: l' =>
      y ← f x;
      ys ← mapR f l';
      Ok (y :: ys)
  end.

(** ** Python string primitives used by the script *)

(** [s.split(sep)] for a one-character separator. *)
Fixpoint str_split (sep : ascii) (s : string) : list string :=
  match s with
  | EmptyString => [EmptyString]
  | String c s' =>
      if Ascii.eqb c sep then EmptyString :: str_split sep s'
      else match str_split sep s' with
           | t :: ts => String c t :: ts
           | [] => [String c EmptyString]
           end
  end.

(** [s[-1]] on a string: the last character, absent for the empty
    string. *)
Fixpoint str_last (s : string) : option ascii :=
  match s with
  | EmptyString => None
  | String c EmptyString => Some c
  | String _ s' => str_last s'
  end.

(** [s[:-2]]: the string without its last two characters. *)
Definition str_drop_last2 (s : string) : string :=
  substring 0 (String.length s - 2) s.

(** The value of a decimal digit character. *)
Definition digit_value (c : ascii) : option Z :=
  let n := Z.of_nat (nat_of_ascii c) in
  if Z.leb 48 n && Z.leb n 57 then Some (n - 48)%Z else None.

(** [int(s)] on the strings that reach it here, which hold a single
    character: the digit's value, [ValueError] otherwise. *)
Definition int_of_str (s : string) : result Z :=
  match s with
  | String c EmptyString =>
      match digit_value c with
      | Some d => Ok d
      | None => Raise ValueError
      end
  | _ => Raise ValueError
  end.

(** [x in s] for a character [x] and a string [s]. *)
Fixpoint char_in (x : ascii) (s : string) : bool :=
  match s with
  | EmptyString => false
  | String c s' => Ascii.eqb x c || char_in x s'
  end.

(** ** Series and frames *)

Abbreviation label := cell.

Record Series : Type := mkSeries {
  kind : ascii;          (* [dtype.kind] *)
  values : list cell
}.

Record DataFrame : Type := mkFrame {
  index : list nat;                 (* row labels *)
  cols : list (label * Series)      (* the columns, in order *)
}.

#[global] Instance Series_eq_dec : EqDecision Series.
Proof. solve_decision. Defined.
#[global] Instance DataFrame_eq_dec : EqDecision DataFrame.
Proof. solve_decision. Defined.

Definition columns (f : DataFrame) : list label := map fst (cols f).
Definition series (f : DataFrame) : list Series := map snd (cols f).
Definition nrows (f : DataFrame) : nat := length (index f).

(** The dtype kind that pandas infers for the cells an [apply] returns. *)
Definition is_num (c : cell) : bool :=
  match c with Num _ => true | _ => false end.

Definition infer_kind (l : list cell) : ascii :=
  if forallb is_num l then "i"%char else "O"%char.

(** [Series.apply(f)]. *)
Definition series_apply (f : cell -> result cell) (s : Series) : result Series :=
  vs ← mapR f (values s);
  Ok (mkSeries (infer_kind vs) vs).

(** *** Column selection and assignment by label *)

Definition has_label (x : label) (c : label * Series) : bool :=
  bool_decide (c.1 = x).

(** The series whose label is [x], in column order. *)
Definition select (x : label) (cs : list (label * Series)) : list Series :=
  map snd (List.filter (has_label x) cs).

(** What [frame[x]] evaluates to: a [Series] when the label is unique, a
    sub-frame when several columns carry it. *)
Inductive item : Type :=
  | ItemSeries (s : Series)
  | ItemFrame (f : DataFrame).

(** [f[x]] *)
Definition getitem (f : DataFrame) (x : label) : result item :=
  match select x (cols f) with
  | [] => Raise KeyError
  | [s] => Ok (ItemSeries s)
  | _ => Ok (ItemFrame (mkFrame (index f) (List.filter (has_label x) (cols f))))
  end.

(** [f[x] = s]: every column labelled [x] becomes [s]; a new label is
    appended. *)
Definition setitem (f : DataFrame) (x : label) (s : Series) : DataFrame :=
  if bool_decide (x ∈ columns f)
  then mkFrame (index f)
         (map (fun c => (c.1, if has_label x c then s else c.2)) (cols f))
  else mkFrame (index f) (cols f ++ [(x, s)]).

(** [f.columns = names] *)
Definition set_columns (f : DataFrame) (names : list label) : result DataFrame :=
  if Nat.eqb (length names) (length (cols f))
  then Ok (mkFrame (index f) (zip names (series f)))
  else Raise ValueError.

(** [f.drop([x], axis=1)] *)
Definition drop_columns (x : label) (f : DataFrame) : result DataFrame :=
  if bool_decide (x ∈ columns f)
  then Ok (mkFrame (index f)
             (List.filter (fun c => negb (has_label x c)) (cols f)))
  else Raise KeyError.

(** [pd.concat([a, b], axis=1)] for two frames over the same index:
    the columns of [a] followed by those of [b]. *)
Definition concat_axis1 (a b : DataFrame) : DataFrame :=
  mkFrame (index a) (cols a ++ cols b).

(** [f.apply(g)] with [g] mapping a column to a column. *)
Definition frame_apply (g : Series -> Series) (f : DataFrame) : DataFrame :=
  mkFrame (index f) (map (fun c => (c.1, g c.2)) (cols f)).

(** *** The [.str] accessor and [split(sep, expand=True)] *)

(** [.str] is only available on a single object-typed column. *)
Definition str_accessor (it : item) : result Series :=
  match it with
  | ItemSeries s =>
      if Ascii.eqb (kind s) "O" then Ok s else Raise AttributeError
  | ItemFrame _ => Raise AttributeError
  end.

(** The tokens of one cell; a cell that is not a string splits to a
    single missing value. *)
Definition split_cell (sep : ascii) (c : cell) : list cell :=
  match c with
  | Str s => map Str (str_split sep s)
  | _ => [NaN]
  end.

Definition max_len (rs : list (list cell)) : nat :=
  foldr (fun r m => Nat.max (length r) m) 0%nat rs.

(** The [j]-th column of the expansion: the [j]-th token of every row,
    missing where the row has fewer tokens. *)
Definition split_column (rs : list (list cell)) (j : nat) : Series :=
  mkSeries "O" (map (fun r => nth j r NaN) rs).

(** [s.str.split(sep, expand=True)]: one object column per token
    position, labelled [0 .. w-1], as wide as the longest row. *)
Definition str_split_expand (sep : ascii) (idx : list nat) (s : Series) : DataFrame :=
  let rs := map (split_cell sep) (values s) in
  mkFrame idx
    (map (fun j => (Num (Z.of_nat j), split_column rs j)) (seq 0 (max_len rs))).

(** [f.iloc[0, :]]: the first row, as a series over the columns. *)
Definition iloc0 (f : DataFrame) : result Series :=
  match index f with
  | [] => Raise IndexError
  | _ :: _ =>
      let vs := map (fun s => hd NaN (values s)) (series f) in
      Ok (mkSeries (infer_kind vs) vs)
  end.

(** *** Rows and duplicates *)

(** The first [n] rows of a list of columns. *)
Fixpoint rows_of (n : nat) (cs : list (list cell)) : list (list cell) :=
  match n with
  | O => []
  | S n' => map (hd NaN) cs :: rows_of n' (map (@tl cell) cs)
  end.

Definition rows (f : DataFrame) : list (list cell) :=
  rows_of (nrows f) (map values (series f)).

(** [duplicated()]: a row is marked when an equal row precedes it. *)
Fixpoint duplicated_from (seen rs : list (list cell)) : list bool :=
  match rs with
  | [] => []
  | r :: rs' => bool_decide (r ∈ seen) :: duplicated_from (r :: seen) rs'
  end.

Definition duplicated (f : DataFrame) : list bool :=
  duplicated_from [] (rows f).

(** Selection by a boolean mask. *)
Fixpoint take_mask {A : Type} (m : list bool) (l : list A) : list A :=
  match m, l with
  | b :: m', x :: l' => if b then x :: take_mask m' l' else take_mask m' l'
  | _, _ => []
  end.

(** [f.drop_duplicates()]: the rows not marked by [duplicated],
    under their original index labels. *)
Definition drop_duplicates (f : DataFrame) : DataFrame :=
  let m := map negb (duplicated f) in
  mkFrame (take_mask m (index f))
    (map (fun c => (c.1, mkSeries (kind c.2) (take_mask m (values c.2))))
       (cols f)).

(** [s.fillna(v)] *)
Definition fillna (v : cell) (s : Series) : Series :=
  mkSeries (kind s)
    (map (fun c => match c with NaN => v | _ => c end) (values s)).

(** ** The lambdas of [clean_data] *)

(** [lambda x: x[:-2]] *)
Definition lam_colname (x : cell) : result cell :=
  match x with
  | Str s => Ok (Str (str_drop_last2 s))
  | _ => Raise TypeError
  end.

(** [lambda x: x[-1]] *)
Definition lam_last (x : cell) : result cell :=
  match x with
  | Str s =>
      match str_last s with
      | Some c => Ok (Str (String c EmptyString))
      | None => Raise IndexError
      end
  | _ => Raise TypeError
  end.

(** [int(x)] *)
Definition py_int (x : cell) : result Z :=
  match x with
  | Str s => int_of_str s
  | Num z => Ok z
  | NaN => Raise TypeError
  end.

(** [lambda x: 1 if int(x)>0 else 0] *)
Definition lam_binary (x : cell) : result cell :=
  n ← py_int x;
  Ok (Num (if Z.ltb 0 n then 1 else 0)).

(** [lambda x: x.fillna(0) if x.dtype.kind in 'biufc' else x.fillna('.')] *)
Definition lam_fill (x : Series) : Series :=
  if char_in (kind x) "biufc" then fillna (Num 0) x else fillna (Str ".") x.

(** [categories[column].apply(g)].  When the label is carried by several
    columns, [categories[column]] is a frame and [g] receives each whole
    column; [x[-1]] is then a lookup of the row label [-1], which no
    index has, and raises [KeyError]. *)
Definition item_apply (g : cell -> result cell) (it : item) : result Series :=
  match it with
  | ItemSeries s => series_apply g s
  | ItemFrame _ => Raise KeyError
  end.

(** ** The object store *)

(** Frames live in a store; a Python variable holds a reference. *)
Abbreviation loc := nat.
Abbreviation heap := (list DataFrame).

(** Computations that read and update the store and may raise.  An
    exception leaves the updates made so far in place. *)
Definition M (A : Type) : Type := heap -> result A * heap.

#[global] Instance M_ret : MRet M := fun A a h => (Ok a, h).
#[global] Instance M_bind : MBind M := fun A B f m h =>
  match m h with
  | (Ok a, h') => f a h'
  | (Raise e, h') => (Raise e, h')
  end.

(** A fresh object. *)
Definition new (f : DataFrame) : M loc :=
  fun h => (Ok (length h), h ++ [f]).

(** The current state of an object.  References are only made by
    [new], so the lookup of one never fails in a run. *)
Definition deref (l : loc) : M DataFrame :=
  fun h =>
    match h !! l with
    | Some f => (Ok f, h)
    | None => (Raise ReferenceError, h)
    end.

(** In-place update of an object. *)
Definition store (l : loc) (f : DataFrame) : M unit :=
  fun h => (Ok tt, <[l := f]> h).

(** A call that does not touch the store. *)
Definition lift {A : Type} (r : result A) : M A :=
  fun h => (r, h).

(** [for x in xs: body] *)
Fixpoint for_each {A : Type} (xs : list A) (body : A -> M unit) : M unit :=
  match xs with
  | [] => mret tt
  | x :: xs' => body x ≫= fun _ => for_each xs' body
  end.

(** ** [clean_data] *)

(** The body of the loop of lines 47-52 for one [column]. *)
Definition clean_column (categories : loc) (column : label) : M unit :=
  (* categories[column] = categories[column].apply(lambda x: x[-1]) *)
  c ← deref categories;
  it ← lift (getitem c column);
  last ← lift (item_apply lam_last it);
  _ ← store categories (setitem c column last);
  (* categories[column] = categories[column].apply(lambda x: 1 if int(x)>0 else 0) *)
  c ← deref categories;
  it ← lift (getitem c column);
  bin ← lift (item_apply lam_binary it);
  store categories (setitem c column bin).

Definition clean_data (df : loc) : M loc :=
  (* categories = df['categories'].str.split(";", expand = True) *)
  d ← deref df;
  it ← lift (getitem d (Str "categories"));
  s ← lift (str_accessor it);
  categories ← new (str_split_expand ";" (index d) s);
  (* row = categories.iloc[0,:] *)
  c ← deref categories;
  row ← lift (iloc0 c);
  (* category_colnames = row.apply(lambda x: x[:-2]) *)
  category_colnames ← lift (series_apply lam_colname row);
  (* categories.columns = category_colnames *)
  c' ← lift (set_columns c (values category_colnames));
  _ ← store categories c';
  (* for column in categories: ... *)
  c ← deref categories;
  _ ← for_each (columns c) (clean_column categories);
  (* df.drop(['categories'], axis=1, inplace= True) *)
  d ← deref df;
  d' ← lift (drop_columns (Str "categories") d);
  _ ← store df d';
  (* df = pd.concat([df, categories], axis=1) *)
  d ← deref df;
  c ← deref categories;
  df2 ← new (concat_axis1 d c);
  (* df.drop_duplicates(inplace=True) *)
  d ← deref df2;
  _ ← store df2 (drop_duplicates d);
  (* df=df.apply(lambda x: ...) *)
  d ← deref df2;
  new (frame_apply lam_fill d).

(** ** [load_data] *)

(** The CSV files of the file system, each as the frame [pd.read_csv]
    parses it to. *)
Abbreviation csv_files := (gmap string DataFrame).

(** [pd.read_csv(path)] *)
Definition read_csv (files : csv_files) (path : string) : M loc :=
  match files !! path with
  | Some f => new f
  | None => lift (Raise FileNotFoundError)
  end.

(** The positions, counted from [start], of the keys equal to [a]. *)
Fixpoint positions_from (a : cell) (start : nat) (ks : list cell) : list nat :=
  match ks with
  | [] => []
  | b :: ks' =>
      if decide (a = b) then start :: positions_from a (S start) ks'
      else positions_from a (S start) ks'
  end.

(** The pairs (left position, right position) of equal keys, in left
    order and, for one left row, in right order. *)
Fixpoint join_pairs_from (start : nat) (lk rk : list cell) : list (nat * nat) :=
  match lk with
  | [] => []
  | a :: lk' =>
      (map (pair start) (positions_from a 0 rk)
         ++ join_pairs_from (S start) lk' rk)
  end.

Definition join_pairs (lk rk : list cell) : list (nat * nat) :=
  join_pairs_from 0 lk rk.

(** The rows of a column at the given positions. *)
Definition take_rows (ps : list nat) (s : Series) : Series :=
  mkSeries (kind s) (map (fun i => nth i (values s) NaN) ps).

(** [f"{x}"] for a column label. *)
Definition label_str (x : label) : string :=
  match x with
  | Str s => s
  | Num z => pretty z
  | NaN => "nan"
  end.

(** A label that both frames carry gets the suffix of its side. *)
Definition with_suffix (overlap : list label) (suffix : string) (x : label) : label :=
  if bool_decide (x ∈ overlap) then Str (label_str x +:+ suffix) else x.

(** The key column of one side of a merge. *)
Definition key_column (f : DataFrame) (on : label) : result Series :=
  it ← getitem f on;
  match it with
  | ItemSeries s => Ok s
  | ItemFrame _ => Raise ValueError
  end.

(** The check of the key columns that [merge] makes before it joins
    ([_maybe_coerce_merge_keys]).  Keys of the same dtype kind, and
    keys of two numeric kinds, are joined.  Keys of kind [O] on one
    side and of a numeric kind other than [b] on the other are refused
    when the object side is text for pandas: it holds a string and no
    number (or both sides are empty and the numeric side is not an
    integer column).  Date-like keys must meet date-like keys.  Nothing
    is checked when exactly one side has no row. *)
Definition is_str (c : cell) : bool :=
  match c with Str _ => true | _ => false end.

Definition string_like (vs : list cell) : bool :=
  existsb is_str vs && negb (existsb is_num vs).

Definition no_cells (vs : list cell) : bool :=
  match vs with [] => true | _ => false end.

Definition object_numeric (o n : Series) : bool :=
  Ascii.eqb (kind o) "O" && char_in (kind n) "iufc"
  && (string_like (values o) || (no_cells (values o) && char_in (kind n) "fc")).

Definition incompatible_keys (lk rk : Series) : bool :=
  if xorb (no_cells (values lk)) (no_cells (values rk)) then false
  else object_numeric lk rk || object_numeric rk lk
       || xorb (char_in (kind lk) "mM") (char_in (kind rk) "mM").

(** [Index.duplicated()]: a label is marked when an equal label
    precedes it. *)
Fixpoint repeated_from (seen l : list label) : list bool :=
  match l with
  | [] => []
  | x :: l' => bool_decide (x ∈ seen) :: repeated_from (x :: seen) l'
  end.

(** The suffixes must not make a label that is already there: a label
    of [new] that repeats an earlier one, where the label of [old] in
    its place did not ([_items_overlap_with_suffix]). *)
Definition suffix_duplicates (old new : list label) : bool :=
  existsb (fun p => p.2 && negb p.1)
    (zip (repeated_from [] old) (repeated_from [] new)).

(** [left.merge(right, left_on=on, right_on=on, suffixes=(ls, rs))],
    an inner join: one row per pair of rows with equal keys, the key
    column kept once, at its place among the left columns.  The call
    raises [KeyError] when a side has no column [on], [ValueError] when
    the key columns cannot be compared, and [MergeError] when a suffix
    makes a label that is already there. *)
Definition merge (left right : DataFrame) (on : label) (ls rs : string)
  : result DataFrame :=
  lk ← key_column left on;
  rk ← key_column right on;
  if incompatible_keys lk rk then Raise ValueError else
  let ps := join_pairs (values lk) (values rk) in
  let rcols := List.filter (fun c => negb (has_label on c)) (cols right) in
  let overlap :=
    List.filter (fun l => bool_decide (l ∈ map fst rcols)) (columns left) in
  if suffix_duplicates (columns left)
       (map (with_suffix overlap ls) (columns left))
     || suffix_duplicates (map fst rcols)
          (map (with_suffix overlap rs) (map fst rcols))
  then Raise MergeError else
  Ok (mkFrame (seq 0 (length ps))
        (map (fun c => (with_suffix overlap ls c.1, take_rows (map fst ps) c.2))
           (cols left)
         ++ map (fun c => (with_suffix overlap rs c.1, take_rows (map snd ps) c.2))
              rcols)).

Definition load_data (files : csv_files)
    (messages_filepath categories_filepath : string) : M loc :=
  (* messages = pd.read_csv(messages_filepath) *)
  messages ← read_csv files messages_filepath;
  (* categories = pd.read_csv(categories_filepath) *)
  categories ← read_csv files categories_filepath;
  (* df = messages.merge(categories, left_on='id', right_on='id',
                         suffixes=('_left', '_right')) *)
  m ← deref messages;
  c ← deref categories;
  df ← lift (merge m c (Str "id") "_left" "_right");
  new df.

(** ** [save_data] *)

(** A stored relation: its columns with their dtype kinds, and its rows. *)
Record sql_table : Type := mkTable {
  table_columns : list (label * ascii);
  table_rows : list (list cell)
}.

(** A database file: its tables by name.  The databases of the file
    system are found by their URL. *)
Abbreviation database := (gmap string sql_table).
Abbreviation databases := (gmap string (gmap string sql_table)).

(** What [to_sql(..., index=False)] writes: the columns and the rows,
    without the row index. *)
Definition table_of (f : DataFrame) : sql_table :=
  mkTable (map (fun c => (c.1, kind c.2)) (cols f)) (rows f).

Definition no_columns (f : DataFrame) : bool :=
  match cols f with [] => true | _ => false end.

(** The names of the columns in the database: [str(label)]. *)
Definition column_names (f : DataFrame) : list string :=
  map label_str (columns f).

(** SQLite compares the names of columns without regard to the case of
    the letters [A] to [Z]. *)
Definition lower_char (c : ascii) : ascii :=
  let n := nat_of_ascii c in
  if Nat.leb 65 n && Nat.leb n 90 then ascii_of_nat (n + 32) else c.

Fixpoint lower (s : string) : string :=
  match s with
  | EmptyString => EmptyString
  | String c s' => String (lower_char c) (lower s')
  end.

(** [f.to_sql(name, engine, index=False, if_exists='replace')] on the
    database the engine connects to; the database it leaves is
    returned with the outcome.  The call first maps the dtypes to
    column types, which raises [ValueError] for an unsigned 64-bit or
    a complex column, and declares the table, which raises
    [ArgumentError] when two columns have one name; up to here the
    database is untouched.  Then the table of that name, if there is
    one, is dropped and the new one is created, which the database
    refuses ([OperationalError]) for a table without columns, with
    more than 2000 columns, or with two names that differ in case
    only; last the rows are inserted. *)
Definition to_sql (f : DataFrame) (name : string) (db : database)
  : result unit * database :=
  if existsb (fun c => char_in (kind c.2) "uc") (cols f)
  then (Raise ValueError, db)
  else if negb (bool_decide (NoDup (column_names f)))
  then (Raise ArgumentError, db)
  else if no_columns f || Nat.ltb 2000 (length (cols f))
          || negb (bool_decide (NoDup (map lower (column_names f))))
  then (Raise OperationalError, delete name db)
  else (Ok tt, <[name := table_of f]> db).

(** [create_engine(url)]: the database behind the URL, a new empty one
    if the file does not exist yet. *)
Definition create_engine (url : string) (dbs : databases) : database :=
  default ∅ (dbs !! url).

(** The databases that the call leaves are returned with its outcome:
    once the engine has connected the database file exists, whatever
    becomes of the table. *)
Definition save_data (df : loc) (database_filename : string)
    (h : heap) (dbs : databases) : result unit * databases :=
  match h !! df with
  | None => (Raise ReferenceError, dbs)
  | Some d =>
      (* engine = create_engine('sqlite:///' + database_filename) *)
      let url := "sqlite:///" +:+ database_filename in
      let engine := create_engine url dbs in
      (* df.to_sql('DisasterMessages', engine, index=False, if_exists='replace') *)
      let out := to_sql d "DisasterMessages" engine in
      (out.1, <[url := out.2]> dbs)
  end.

(** ** [main] *)

(** What a run of the script can see and change outside the process. *)
Record world : Type := mkWorld {
  files : gmap string DataFrame;
  dbs : gmap string (gmap string sql_table);
  stdout : list string
}.

Definition print (line : string) (w : world) : world :=
  mkWorld (files w) (dbs w) (stdout w ++ [line]).

Definition nl : string := String (ascii_of_nat 10) EmptyString.

Definition usage : string :=
  "Please provide the filepaths of the messages and categories "
  +:+ "datasets as the first and second argument respectively, as "
  +:+ "well as the filepath of the database to save the cleaned data "
  +:+ "to as the third argument. " +:+ nl +:+ nl
  +:+ "Example: python process_data.py "
  +:+ "disaster_messages.csv disaster_categories.csv "
  +:+ "DisasterResponse.db".

(** One run of the script with [sys.argv = argv], started on an empty
    object store.  An exception ends the run where it is raised. *)
Definition main (argv : list string) (w : world) : result unit * world :=
  match argv with
  | [_; messages_filepath; categories_filepath; database_filepath] =>
      let w := print ("Loading data..." +:+ nl +:+ "    MESSAGES: "
                        +:+ messages_filepath +:+ nl +:+ "    CATEGORIES: "
                        +:+ categories_filepath) w in
      match load_data (files w) messages_filepath categories_filepath [] with
      | (Raise e, _) => (Raise e, w)
      | (Ok df, h) =>
          let w := print "Cleaning data..." w in
          match clean_data df h with
          | (Raise e, _) => (Raise e, w)
          | (Ok df, h) =>
              let w := print ("Saving data..." +:+ nl +:+ "    DATABASE: "
                                +:+ database_filepath) w in
              match save_data df database_filepath h (dbs w) with
              | (Raise e, dbs') => (Raise e, mkWorld (files w) dbs' (stdout w))
              | (Ok _, dbs') =>
                  (Ok tt,
                   print "Cleaned data saved to database!"
                     (mkWorld (files w) dbs' (stdout w)))
              end
          end
      end
  | _ => (Ok tt, print usage w)
  end.

(** ** The Cleaner as a function of the frame it is given

    What [clean_data] computes, written without the store: the frames
    of lines 38-45, 47-59 and 62-66 as functions of the frame that the
    argument refers to.  That [clean_data] returns exactly [cleaned],
    and raises exactly when [cleaned] does, is proved below
    ([clean_data_run], [run_clean_data_cleaned]). *)

(** Both assignments of the loop body on one column. *)
Definition binarize (s : Series) : result Series :=
  last ← series_apply lam_last s;
  series_apply lam_binary last.

(** The loop over all columns: a label that a later column carries
    again stops it with [KeyError]. *)
Fixpoint binarize_columns (cs : list (label * Series))
  : result (list (label * Series)) :=
  match cs with
  | [] => Ok []
  | c :: cs' =>
      if bool_decide (c.1 ∈ map fst cs') then Raise KeyError
      else
        s ← binarize c.2;
        rest ← binarize_columns cs';
        Ok ((c.1, s) :: rest)
  end.

(** The frame [categories] after line 45. *)
Definition named_categories (d : DataFrame) : result DataFrame :=
  it ← getitem d (Str "categories");
  s ← str_accessor it;
  let c := str_split_expand ";" (index d) s in
  row ← iloc0 c;
  category_colnames ← series_apply lam_colname row;
  set_columns c (values category_colnames).

(** The frame [df] after line 59: the raw column replaced by the
    derived ones. *)
Definition expanded (d : DataFrame) : result DataFrame :=
  c ← named_categories d;
  bins ← binarize_columns (cols c);
  d' ← drop_columns (Str "categories") d;
  Ok (concat_axis1 d' (mkFrame (index c) bins)).

(** The frame that [clean_data] returns. *)
Definition cleaned (d : DataFrame) : result DataFrame :=
  f ← expanded d;
  Ok (frame_apply lam_fill (drop_duplicates f)).

(** One pass of the loop body, on the frame instead of the store. *)
Definition clean_column_on (f : DataFrame) (column : label) : result DataFrame :=
  it ← getitem f column;
  last ← item_apply lam_last it;
  let f1 := setitem f column last in
  it ← getitem f1 column;
  bin ← item_apply lam_binary it;
  Ok (setitem f1 column bin).

(** A loop that threads a value and stops at the first exception. *)
Fixpoint foldR {S A : Type} (step : S -> A -> result S) (s : S) (xs : list A)
  : result S :=
  match xs with
  | [] => Ok s
  | x :: xs' => s' ← step s x; foldR step s' xs'
  end.

(** [clean_data] run on a store that holds only its argument. *)
Definition run_clean_data (d : DataFrame) : result DataFrame :=
  match clean_data 0%nat [d] with
  | (Ok l, h) =>
      match h !! l with
      | Some out => Ok out
      | None => Raise ReferenceError
      end
  | (Raise e, _) => Raise e
  end.

(** [load_data] run on an empty store. *)
Definition run_load_data (fs : csv_files) (mp cp : string) : result DataFrame :=
  match load_data fs mp cp [] with
  | (Ok l, h) =>
      match h !! l with
      | Some out => Ok out
      | None => Raise ReferenceError
      end
  | (Raise e, _) => Raise e
  end.

(** ** Notions used in the statements *)

(** The rows that [drop_duplicates] keeps, given the rows [seen]
    before. *)
Definition first_occurrences (seen rs : list (list cell)) : list (list cell) :=
  take_mask (map negb (duplicated_from seen rs)) rs.

(** The indicator that the specification assigns to a token: 1 if the
    integer parse of its final character is greater than 0, else 0;
    undefined when the token has no final character or that character
    is not a digit. *)
Definition indicator (t : string) : option Z :=
  c ← str_last t;
  n ← digit_value c;
  Some (if Z.ltb 0 n then 1 else 0).

(** The cells of the column [df['categories']] and the [j]-th token of
    the category string of row [i]. *)
Definition category_cells (d : DataFrame) : list cell :=
  match select (Str "categories") (cols d) with
  | [s] => values s
  | _ => []
  end.

Definition token (d : DataFrame) (i j : nat) : option string :=
  match category_cells d !! i with
  | Some (Str cat) => str_split ";" cat !! j
  | _ => None
  end.

(** How a cell and the value the loop body leaves in its place are
    related. *)
Definition binarized (x y : cell) : Prop :=
  exists t n, x = Str t /\ indicator t = Some n /\ y = Num n.

(** The positions of the rows that [drop_duplicates] keeps. *)
Definition kept_rows (e : DataFrame) : list nat :=
  take_mask (map negb (duplicated e)) (seq 0 (nrows e)).

(** The column [drop_duplicates] and then [lam_fill] make of a column
    of [e]. *)
Definition finished (e : DataFrame) (c : label * Series) : label * Series :=
  (c.1, lam_fill (mkSeries (kind c.2)
                    (take_mask (map negb (duplicated e)) (values c.2)))).

(** The value that the specification puts in the place of a cell of a
    column of dtype kind [k]: 0 for a missing value of a numeric
    column, ["."] for a missing value of any other column, the cell
    itself otherwise. *)
Definition filled (k : ascii) (v : cell) : cell :=
  match v with
  | NaN =>
      if bool_decide (k ∈ ["b"; "i"; "u"; "f"; "c"]%char) then Num 0 else Str "."
  | _ => v
  end.

(** The value the loop leaves for a cell of [categories], as a
    function of that cell. *)
Definition derived_cell (j : nat) (x : cell) : cell :=
  match nth j (split_cell ";" x) NaN with
  | Str t =>
      match indicator t with
      | Some n => Num n
      | None => NaN
      end
  | _ => NaN
  end.

(** The encoding that the specification assumes of a joined table: a
    single text column [categories], at least one row, every category
    string made of as many tokens as the first, none of them empty,
    and the names derived from the first row pairwise different. *)
Definition uniform_row (w : nat) (x : cell) : bool :=
  match x with
  | Str cat =>
      Nat.eqb (length (str_split ";" cat)) w
      && forallb (fun t => negb (String.eqb t EmptyString)) (str_split ";" cat)
  | _ => false
  end.

Definition uniform (d : DataFrame) : bool :=
  match select (Str "categories") (cols d), index d with
  | [s], _ :: _ =>
      match values s with
      | Str cat0 :: _ =>
          Ascii.eqb (kind s) "O"
          && forallb (uniform_row (length (str_split ";" cat0))) (values s)
          && bool_decide (NoDup (map str_drop_last2 (str_split ";" cat0)))
      | _ => false
      end
  | _, _ => false
  end.

(** The table stored under [name] in the database behind [url]. *)
Definition stored (ds : databases) (url name : string) : option sql_table :=
  ds !! url ≫= fun db => db !! name.

(** Loader and Cleaner in sequence, as [main] runs them. *)
Definition pipeline (fs : csv_files) (mp cp : string) : result DataFrame :=
  df ← run_load_data fs mp cp;
  run_clean_data df.

(** The databases after a run has written the table [t] to the
    database file [path]. *)
Definition written (path : string) (t : sql_table) (ds : databases) : databases :=
  <["sqlite:///" +:+ path :=
      <["DisasterMessages" := t]> (create_engine ("sqlite:///" +:+ path) ds)]> ds.

(** The frames that the database takes: at least one column and at
    most 2000, none of them unsigned 64-bit or complex, and names that
    differ in more than the case of letters. *)
Definition storable (f : DataFrame) : bool :=
  negb (existsb (fun c => char_in (kind c.2) "uc") (cols f))
  && negb (no_columns f) && Nat.leb (length (cols f)) 2000
  && bool_decide (NoDup (map lower (column_names f))).

(** ** Example tables *)

(** The two inputs of the specification's worked example and their
    join. *)
Definition example_messages : DataFrame :=
  mkFrame [0; 1]%nat
    [(Str "id", mkSeries "i" [Num 1; Num 2]);
     (Str "message", mkSeries "O" [Str "help"; Str "food"])].

Definition example_categories : DataFrame :=
  mkFrame [0; 1]%nat
    [(Str "id", mkSeries "i" [Num 1; Num 2]);
     (Str "categories",
      mkSeries "O" [Str "related-1;request-0"; Str "related-0;request-1"])].

Definition example_files : csv_files :=
  <["messages.csv" := example_messages]>
    (<["categories.csv" := example_categories]> ∅).

Definition example_joined : DataFrame :=
  mkFrame [0; 1]%nat
    [(Str "id", mkSeries "i" [Num 1; Num 2]);
     (Str "message", mkSeries "O" [Str "help"; Str "food"]);
     (Str "categories",
      mkSeries "O" [Str "related-1;request-0"; Str "related-0;request-1"])].

(** The world of the specification's example: the two input files and
    no database yet. *)
Definition example_world : world := mkWorld example_files ∅ [].

Definition example_argv : list string :=
  ["process_data.py"; "messages.csv"; "categories.csv"; "DisasterResponse.db"].

(** A joined table with a category value above 1. *)
Definition aid_joined : DataFrame :=
  mkFrame [0]%nat
    [(Str "id", mkSeries "i" [Num 7]);
     (Str "message", mkSeries "O" [Str "water"]);
     (Str "categories", mkSeries "O" [Str "related-1;aid-2"])].

(** A joined table with missing values in a numeric and in a text
    column. *)
Definition gaps_joined : DataFrame :=
  mkFrame [0; 1]%nat
    [(Str "id", mkSeries "i" [Num 1; Num 2]);
     (Str "score", mkSeries "f" [NaN; Num 3]);
     (Str "original", mkSeries "O" [Str "au secours"; NaN]);
     (Str "categories", mkSeries "O" [Str "aid-1"; Str "aid-0"])].

(** A joined table with a repeated row. *)
Definition repeated_joined : DataFrame :=
  mkFrame [0; 1; 2]%nat
    [(Str "id", mkSeries "i" [Num 1; Num 2; Num 1]);
     (Str "message", mkSeries "O" [Str "help"; Str "food"; Str "help"]);
     (Str "categories", mkSeries "O" [Str "aid-1"; Str "aid-0"; Str "aid-1"])].

(** Inputs in which the identifier 1 comes twice on either side: two
    messages that differ by a ["."] where the other has no value, two
    category rows that differ by the value 2 where the other has 1.
    Their join has four rows, no two of them equal. *)
Definition dup_messages : DataFrame :=
  mkFrame [0; 1]%nat
    [(Str "id", mkSeries "i" [Num 1; Num 1]);
     (Str "message", mkSeries "O" [Str "help"; Str "help"]);
     (Str "original", mkSeries "O" [NaN; Str "."])].

Definition dup_categories : DataFrame :=
  mkFrame [0; 1]%nat
    [(Str "id", mkSeries "i" [Num 1; Num 1]);
     (Str "categories", mkSeries "O" [Str "aid-1"; Str "aid-2"])].

Definition dup_files : csv_files :=
  <["messages.csv" := dup_messages]> (<["categories.csv" := dup_categories]> ∅).

Definition dup_joined : DataFrame :=
  mkFrame [0; 1; 2; 3]%nat
    [(Str "id", mkSeries "i" [Num 1; Num 1; Num 1; Num 1]);
     (Str "message", mkSeries "O" [Str "help"; Str "help"; Str "help"; Str "help"]);
     (Str "original", mkSeries "O" [NaN; NaN; Str "."; Str "."]);
     (Str "categories",
      mkSeries "O" [Str "aid-1"; Str "aid-2"; Str "aid-1"; Str "aid-2"])].

(** Inputs without a common identifier. *)
Definition disjoint_messages : DataFrame :=
  mkFrame [0; 1]%nat
    [(Str "id", mkSeries "i" [Num 1; Num 2]);
     (Str "message", mkSeries "O" [Str "help"; Str "food"])].

Definition disjoint_categories : DataFrame :=
  mkFrame [0]%nat
    [(Str "id", mkSeries "i" [Num 3]);
     (Str "categories", mkSeries "O" [Str "related-1;request-0"])].

Definition empty_joined : DataFrame :=
  mkFrame []
    [(Str "id", mkSeries "i" []);
     (Str "message", mkSeries "O" []);
     (Str "categories", mkSeries "O" [])].

(** Categories whose first row has a token that ends in a letter and
    whose second row has one token less, and their join with the
    messages of the example. *)
Definition ragged_categories : DataFrame :=
  mkFrame [0; 1]%nat
    [(Str "id", mkSeries "i" [Num 1; Num 2]);
     (Str "categories", mkSeries "O" [Str "related-1;request-x"; Str "related-1"])].

Definition ragged_joined : DataFrame :=
  mkFrame [0; 1]%nat
    [(Str "id", mkSeries "i" [Num 1; Num 2]);
     (Str "message", mkSeries "O" [Str "help"; Str "food"]);
     (Str "categories", mkSeries "O" [Str "related-1;request-x"; Str "related-1"])].

(** A uniformly encoded joined table with a token that ends in a
    letter. *)
Definition nondigit_joined : DataFrame :=
  mkFrame [0; 1]%nat
    [(Str "id", mkSeries "i" [Num 1; Num 2]);
     (Str "message", mkSeries "O" [Str "help"; Str "food"]);
     (Str "categories",
      mkSeries "O" [Str "related-1;request-0"; Str "related-1;request-x"])].

(** ** Notions used for [main] and the Loader *)

(** The progress lines that [main] prints. *)
Definition loading_line (messages_filepath categories_filepath : string) : string :=
  "Loading data..." +:+ nl +:+ "    MESSAGES: " +:+ messages_filepath
  +:+ nl +:+ "    CATEGORIES: " +:+ categories_filepath.

Definition saving_line (database_filepath : string) : string :=
  "Saving data..." +:+ nl +:+ "    DATABASE: " +:+ database_filepath.

(** The fields of row [i] of a list of columns. *)
Definition row_at (cs : list (label * Series)) (i : nat) : list cell :=
  map (fun c => nth i (values c.2) NaN) cs.

(** The columns of a frame other than those labelled [x]. *)
Definition other_columns (x : label) (f : DataFrame) : list (label * Series) :=
  List.filter (fun c => negb (has_label x c)) (cols f).

(** A frame in which every column has one cell per row. *)
Definition rectangular (f : DataFrame) : Prop :=
  forall c, c ∈ cols f -> length (values c.2) = nrows f.

(** [sep.join(l)] *)
Fixpoint str_join (sep : ascii) (l : list string) : string :=
  match l with
  | [] => EmptyString
  | [t] => t
  | t :: l' => t +:+ String sep (str_join sep l')
  end.

(** Messages without an identifier column. *)
Definition keyless_messages : DataFrame :=
  mkFrame [0; 1]%nat
    [(Str "message", mkSeries "O" [Str "help"; Str "food"])].

Definition keyless_files : csv_files :=
  <["messages.csv" := keyless_messages]>
    (<["categories.csv" := example_categories]> ∅).

(** Inputs that both carry a column [genre]. *)
Definition genre_messages : DataFrame :=
  mkFrame [0]%nat
    [(Str "id", mkSeries "i" [Num 1]);
     (Str "message", mkSeries "O" [Str "help"]);
     (Str "genre", mkSeries "O" [Str "direct"])].

Definition genre_categories : DataFrame :=
  mkFrame [0]%nat
    [(Str "id", mkSeries "i" [Num 1]);
     (Str "genre", mkSeries "O" [Str "news"]);
     (Str "categories", mkSeries "O" [Str "related-1"])].

(** A joined table in which a category has the name of a column. *)
Definition clash_joined : DataFrame :=
  mkFrame [0]%nat
    [(Str "id", mkSeries "i" [Num 1]);
     (Str "related", mkSeries "O" [Str "yes"]);
     (Str "categories", mkSeries "O" [Str "related-1;request-0"])].





(** Categories whose identifiers are text. *)
Definition text_id_categories : DataFrame :=
  mkFrame [0; 1]%nat
    [(Str "id", mkSeries "O" [Str "a"; Str "b"]);
     (Str "categories",
      mkSeries "O" [Str "related-1;request-0"; Str "related-0;request-1"])].

Definition text_id_files : csv_files :=
  <["messages.csv" := example_messages]>
    (<["categories.csv" := text_id_categories]> ∅).

(** Messages with a column [genre] and a column [genre_left]. *)
Definition suffix_messages : DataFrame :=
  mkFrame [0]%nat
    [(Str "id", mkSeries "i" [Num 1]);
     (Str "genre", mkSeries "O" [Str "direct"]);
     (Str "genre_left", mkSeries "O" [Str "news"])].

Definition suffix_files : csv_files :=
  <["messages.csv" := suffix_messages]>
    (<["categories.csv" := genre_categories]> ∅).

(** * Properties *)

(** ** The store *)

Section store.
Implicit Types (h : heap) (l c : loc) (f g d : DataFrame).

Lemma run_bind {A B : Type} (m : M A) (k : A -> M B) h :
  (m ≫= k) h =
  match m h with
  | (Ok a, h') => k a h'
  | (Raise e, h') => (Raise e, h')
  end.
Proof. reflexivity. Qed.

Lemma insert_insert_same h l f g : <[l := g]> (<[l := f]> h) = <[l := g]> h.
Proof. apply list_insert_insert_eq. Qed.

Lemma lookup_insert_same h l f g :
  h !! l = Some f -> <[l := g]> h !! l = Some g.
Proof.
  intros H. apply list_lookup_insert_eq. eapply lookup_lt_Some; eauto.
Qed.

Lemma run_clean_column c x h f :
  h !! c = Some f ->
  match clean_column_on f x with
  | Ok f' => clean_column c x h = (Ok tt, <[c := f']> h)
  | Raise e => exists g, clean_column c x h = (Raise e, <[c := g]> h)
  end.
Proof.
  intros Hc.
  pose proof (fun g => lookup_insert_same h c f g Hc) as Hc1.
  unfold clean_column, clean_column_on, mbind, M_bind, result_bind,
    deref, lift, store.
  rewrite Hc.
  destruct (getitem f x) as [it|e];
    [|exists f; now rewrite list_insert_id].
  destruct (item_apply lam_last it) as [last|e];
    [|exists f; now rewrite list_insert_id].
  rewrite Hc1.
  destruct (getitem (setitem f x last) x) as [it'|e];
    [|eexists; reflexivity].
  destruct (item_apply lam_binary it') as [bin|e];
    [|eexists; reflexivity].
  now rewrite insert_insert_same.
Qed.

(** The loop on the store is the loop on the frame. *)
Lemma for_each_clean_column c xs : forall h f,
  h !! c = Some f ->
  match foldR clean_column_on f xs with
  | Ok f' => for_each xs (clean_column c) h = (Ok tt, <[c := f']> h)
  | Raise e => exists g, for_each xs (clean_column c) h = (Raise e, <[c := g]> h)
  end.
Proof.
  induction xs as [|x xs IH]; intros h f Hc; simpl.
  - now rewrite list_insert_id.
  - rewrite run_bind.
    pose proof (run_clean_column c x h f Hc) as Hx.
    unfold mbind at 1, result_bind.
    destruct (clean_column_on f x) as [f1|e].
    + rewrite Hx.
      pose proof (lookup_insert_same h c f f1 Hc) as Hc1.
      specialize (IH _ _ Hc1).
      destruct (foldR clean_column_on f1 xs) as [f'|e].
      * now rewrite IH, insert_insert_same.
      * destruct IH as [g IH]. exists g. now rewrite IH, insert_insert_same.
    + destruct Hx as [g Hx]. exists g. now rewrite Hx.
Qed.
End store.

(** ** Selection and assignment by label *)

Section by_label.
Implicit Types (x : label) (s t : Series) (cs : list (label * Series)).

Lemma select_app x cs1 cs2 :
  select x (cs1 ++ cs2) = (select x cs1 ++ select x cs2).
Proof. unfold select. now rewrite List.filter_app, map_app. Qed.

Lemma select_cons x c cs :
  select x (c :: cs) =
  if has_label x c then c.2 :: select x cs else select x cs.
Proof. unfold select. simpl. now destruct (has_label x c). Qed.

Lemma select_absent x cs : x ∉ map fst cs -> select x cs = [].
Proof.
  induction cs as [|c cs IH]; intros Hx; [reflexivity|].
  rewrite select_cons. simpl in Hx.
  apply not_elem_of_cons in Hx as [Hc Hx].
  unfold has_label. rewrite bool_decide_eq_false_2 by congruence.
  now apply IH.
Qed.

Lemma select_present x cs : x ∈ map fst cs -> select x cs <> [].
Proof.
  induction cs as [|c cs IH]; simpl; intros Hx.
  - now apply elem_of_nil in Hx.
  - rewrite select_cons. unfold has_label.
    destruct (decide (c.1 = x)) as [E|E].
    + now rewrite bool_decide_eq_true_2.
    + rewrite bool_decide_eq_false_2 by assumption.
      apply elem_of_cons in Hx as [Hx|Hx]; [congruence|now apply IH].
Qed.

Lemma assign_absent x s cs :
  x ∉ map fst cs ->
  map (fun c => (c.1, if has_label x c then s else c.2)) cs = cs.
Proof.
  induction cs as [|[l t] cs IH]; simpl; intros Hx; [reflexivity|].
  apply not_elem_of_cons in Hx as [Hc Hx].
  unfold has_label at 1. simpl.
  rewrite bool_decide_eq_false_2 by congruence.
  now rewrite IH.
Qed.

(** Reading and writing a column whose label no other column has. *)
Lemma getitem_unique idx cs1 cs2 x s :
  x ∉ map fst cs1 -> x ∉ map fst cs2 ->
  getitem (mkFrame idx (cs1 ++ (x, s) :: cs2)) x = Ok (ItemSeries s).
Proof.
  intros H1 H2. unfold getitem. simpl.
  rewrite select_app, select_cons, (select_absent _ _ H1),
    (select_absent _ _ H2).
  unfold has_label. simpl. now rewrite bool_decide_eq_true_2.
Qed.

Lemma setitem_unique idx cs1 cs2 x s t :
  x ∉ map fst cs1 -> x ∉ map fst cs2 ->
  setitem (mkFrame idx (cs1 ++ (x, s) :: cs2)) x t
  = mkFrame idx (cs1 ++ (x, t) :: cs2).
Proof.
  intros H1 H2. unfold setitem, columns. simpl.
  rewrite bool_decide_eq_true_2.
  - rewrite map_app. simpl.
    rewrite (assign_absent _ _ _ H1), (assign_absent _ _ _ H2).
    unfold has_label. simpl. now rewrite bool_decide_eq_true_2.
  - rewrite map_app. apply elem_of_app. right. simpl. apply elem_of_cons. now left.
Qed.

Lemma getitem_repeated idx cs1 cs2 x s :
  x ∉ map fst cs1 -> x ∈ map fst cs2 ->
  exists g, getitem (mkFrame idx (cs1 ++ (x, s) :: cs2)) x = Ok (ItemFrame g).
Proof.
  intros H1 H2. unfold getitem. simpl.
  rewrite select_app, select_cons, (select_absent _ _ H1).
  unfold has_label at 1. simpl. rewrite bool_decide_eq_true_2 by reflexivity.
  pose proof (select_present _ _ H2) as Hne.
  destruct (select x cs2) as [|t ts]; [congruence|]. simpl. eauto.
Qed.

(** One pass of the loop body on a column with a label of its own,
    and on one whose label comes again. *)
Lemma clean_column_on_unique idx cs1 cs2 x s :
  x ∉ map fst cs1 -> x ∉ map fst cs2 ->
  clean_column_on (mkFrame idx (cs1 ++ (x, s) :: cs2)) x
  = (bin ← binarize s; Ok (mkFrame idx (cs1 ++ (x, bin) :: cs2))).
Proof.
  intros H1 H2. unfold clean_column_on, binarize.
  rewrite (getitem_unique idx cs1 cs2 x s H1 H2). simpl.
  destruct (series_apply lam_last s) as [last|e]; simpl; [|reflexivity].
  rewrite (setitem_unique idx cs1 cs2 x s last H1 H2).
  rewrite (getitem_unique idx cs1 cs2 x last H1 H2). simpl.
  destruct (series_apply lam_binary last) as [bin|e]; simpl; [|reflexivity].
  now rewrite (setitem_unique idx cs1 cs2 x last bin H1 H2).
Qed.

Lemma clean_column_on_repeated idx cs1 cs2 x s :
  x ∉ map fst cs1 -> x ∈ map fst cs2 ->
  clean_column_on (mkFrame idx (cs1 ++ (x, s) :: cs2)) x = Raise KeyError.
Proof.
  intros H1 H2. unfold clean_column_on.
  destruct (getitem_repeated idx cs1 cs2 x s H1 H2) as [g Hg].
  now rewrite Hg.
Qed.

(** The loop of lines 47-52, column by column. *)
Lemma loop_binarize idx xs : forall pre,
  (forall y, y ∈ map fst pre -> y ∉ map fst xs) ->
  foldR clean_column_on (mkFrame idx (pre ++ xs)) (map fst xs)
  = (bins ← binarize_columns xs; Ok (mkFrame idx (pre ++ bins))).
Proof.
  induction xs as [|[x s] xs IH]; intros pre Hpre; simpl; [reflexivity|].
  assert (Hx : x ∉ map fst pre).
  { intros Hin. apply (Hpre _ Hin). simpl. apply elem_of_cons. now left. }
  destruct (decide (x ∈ map fst xs)) as [Hdup|Hnew].
  - rewrite bool_decide_eq_true_2 by assumption.
    now rewrite (clean_column_on_repeated idx pre xs x s Hx Hdup).
  - rewrite bool_decide_eq_false_2 by assumption.
    rewrite (clean_column_on_unique idx pre xs x s Hx Hnew).
    destruct (binarize s) as [bin|e]; simpl; [|reflexivity].
    replace (pre ++ (x, bin) :: xs) with ((pre ++ [(x, bin)]) ++ xs)
      by now rewrite <- app_assoc.
    rewrite IH.
    + destruct (binarize_columns xs) as [bins|e]; simpl; [|reflexivity].
      now rewrite <- app_assoc.
    + intros y Hy. rewrite map_app in Hy. apply elem_of_app in Hy as [Hy|Hy].
      * specialize (Hpre _ Hy). simpl in Hpre.
        now apply not_elem_of_cons in Hpre as [_ ?].
      * simpl in Hy. apply list_elem_of_singleton in Hy. now subst y.
Qed.
End by_label.

(** ** [clean_data] on the store and as a function *)

Section clean_run.
Implicit Types (h : heap) (l : loc) (d : DataFrame).

Lemma lookup_fresh h (c : DataFrame) : (h ++ [c]) !! length h = Some c.
Proof. now apply list_lookup_middle. Qed.

Lemma insert_fresh h (c c' : DataFrame) :
  <[length h := c']> (h ++ [c]) = h ++ [c'].
Proof.
  rewrite insert_app_r_alt by lia. now rewrite Nat.sub_diag.
Qed.

Lemma clean_data_run h l d :
  h !! l = Some d ->
  match cleaned d with
  | Ok out =>
      exists d' c e,
        drop_columns (Str "categories") d = Ok d' /\
        expanded d = Ok e /\
        clean_data l h =
          (Ok (S (S (length h))),
           <[l := d']> h ++ [c; drop_duplicates e; out])
  | Raise e =>
      exists h', clean_data l h = (Raise e, h') /\
                 (h' = h \/ exists c, h' = h ++ [c])
  end.
Proof.
  intros Hl. pose proof (lookup_lt_Some _ _ _ Hl) as Hlt.
  unfold cleaned, expanded, named_categories, clean_data.
  unfold mbind, M_bind, result_bind, deref, lift, store, new.
  rewrite Hl.
  destruct (getitem d (Str "categories")) as [it|e]; [|eauto].
  destruct (str_accessor it) as [s|e]; [|eauto].
  rewrite lookup_fresh.
  set (c0 := str_split_expand ";" (index d) s).
  destruct (iloc0 c0) as [row|e]; [|eauto 6].
  destruct (series_apply lam_colname row) as [names|e]; [|eauto 6].
  destruct (set_columns c0 (values names)) as [c1|e] eqn:Hset; [|eauto 6].
  rewrite insert_fresh, lookup_fresh.
  pose proof (for_each_clean_column (length h) (columns c1) (h ++ [c1]) c1
                (lookup_fresh h c1)) as Hloop.
  assert (Hfold : foldR clean_column_on c1 (columns c1)
                  = (bins ← binarize_columns (cols c1);
                     Ok (mkFrame (index c1) bins))).
  { destruct c1 as [i cs]. unfold columns. simpl.
    apply (loop_binarize i cs []). intros y Hy. now apply elem_of_nil in Hy. }
  rewrite Hfold in Hloop.
  simpl in Hloop. unfold mbind, result_bind in Hloop.
  destruct (binarize_columns (cols c1)) as [bins|e].
  2:{ destruct Hloop as [g Hloop]. exists (h ++ [g]).
      rewrite Hloop, insert_fresh. eauto. }
  rewrite Hloop, insert_fresh.
  rewrite (lookup_app_l h _ l) by assumption. rewrite Hl.
  destruct (drop_columns (Str "categories") d) as [d'|e]; [|eauto 6].
  simpl.
  exists d', (mkFrame (index c1) bins), (concat_axis1 d' (mkFrame (index c1) bins)).
  split; [reflexivity|]. split; [reflexivity|].
  rewrite insert_app_l by assumption.
  assert (Hlen : length (<[l := d']> h) = length h) by apply length_insert.
  rewrite lookup_app_l by lia.
  rewrite list_lookup_insert_eq by assumption.
  rewrite <- Hlen at 1. rewrite lookup_fresh.
  rewrite lookup_fresh, insert_fresh, lookup_fresh.
  rewrite !length_app, Hlen. simpl.
  rewrite <- !app_assoc. simpl.
  repeat f_equal. lia.
Qed.
End clean_run.

(** Run on a store of its own, [clean_data] returns [cleaned]. *)
Lemma run_clean_data_cleaned d : run_clean_data d = cleaned d.
Proof.
  unfold run_clean_data.
  pose proof (clean_data_run [d] 0%nat d eq_refl) as H.
  destruct (cleaned d) as [out|e].
  - destruct H as (d' & c & e & _ & _ & ->). reflexivity.
  - destruct H as (h' & -> & _). reflexivity.
Qed.

(** The worked example of the specification: two rows, two derived
    columns [related] and [request], with the values (1,0) and (0,1). *)
Example pipeline_on_example :
  pipeline example_files "messages.csv" "categories.csv"
  = Ok (mkFrame [0; 1]%nat
          [(Str "id", mkSeries "i" [Num 1; Num 2]);
           (Str "message", mkSeries "O" [Str "help"; Str "food"]);
           (Str "related", mkSeries "i" [Num 1; Num 0]);
           (Str "request", mkSeries "i" [Num 0; Num 1])]).
Proof. reflexivity. Qed.

(** ** Boolean masks *)

Section masks.
Context {A : Type}.
Implicit Types (m : list bool) (l : list A).

Lemma take_mask_nil m : take_mask m (@nil A) = [].
Proof. now destruct m. Qed.

Lemma take_mask_false m l : take_mask (false :: m) l = take_mask m (tl l).
Proof. destruct l; simpl; [now rewrite take_mask_nil|reflexivity]. Qed.

Lemma take_mask_elem m : forall l x, x ∈ take_mask m l -> x ∈ l.
Proof.
  induction m as [|b m IH]; intros [|y l] x; simpl;
    try (intros H; now apply elem_of_nil in H).
  destruct b; intros H.
  - apply elem_of_cons in H as [->|H]; [left|right; now apply IH].
  - right. now apply IH.
Qed.

Lemma take_mask_sublist m : forall l, sublist (take_mask m l) l.
Proof.
  induction m as [|b m IH]; intros [|y l]; simpl; try apply sublist_nil_l.
  destruct b; [apply sublist_skip|apply sublist_cons]; apply IH.
Qed.

(** The [k]-th selected element comes from the [k]-th selected
    position. *)
Lemma take_mask_lookup m : forall l start k v,
  take_mask m l !! k = Some v ->
  exists i, take_mask m (seq start (length m)) !! k = Some (start + i)%nat
            /\ l !! i = Some v.
Proof.
  induction m as [|b m IH]; intros [|y l] start k v; simpl;
    try discriminate.
  destruct b.
  - destruct k as [|k]; simpl.
    + intros [= <-]. exists 0%nat. now rewrite Nat.add_0_r.
    + intros H. destruct (IH l (S start) k v H) as (i & Hi & Hv).
      exists (S i). rewrite Hi. split; [f_equal; lia|assumption].
  - intros H. destruct (IH l (S start) k v H) as (i & Hi & Hv).
    exists (S i). rewrite Hi. split; [f_equal; lia|assumption].
Qed.

Lemma take_mask_length_le m : forall l (l' : list nat),
  (length m <= length l')%nat ->
  (length (take_mask m l) <= length (take_mask m l'))%nat.
Proof.
  induction m as [|b m IH]; intros l l' Hlen; simpl; [lia|].
  destruct l' as [|y' l']; simpl in Hlen; [lia|].
  destruct l as [|y l]; [simpl; lia|].
  specialize (IH l l' ltac:(lia)). destruct b; simpl; lia.
Qed.

Lemma take_mask_all l : forall n,
  (length l <= n)%nat -> take_mask (replicate n true) l = l.
Proof.
  induction l as [|y l IH]; intros n Hn; [apply take_mask_nil|].
  destruct n as [|n]; simpl in *; [lia|].
  rewrite IH; [reflexivity|lia].
Qed.
End masks.

(** ** Rows and first occurrences *)

Section first_occurrences.
Implicit Types (r : list cell) (seen rs : list (list cell)).

Lemma duplicated_from_length rs : forall seen,
  length (duplicated_from seen rs) = length rs.
Proof. induction rs as [|r rs IH]; intros seen; simpl; [|rewrite IH]; reflexivity. Qed.

Lemma first_occurrences_cons seen r rs :
  first_occurrences seen (r :: rs) =
  if bool_decide (r ∈ seen) then first_occurrences (r :: seen) rs
  else r :: first_occurrences (r :: seen) rs.
Proof. unfold first_occurrences. simpl. now destruct (bool_decide (r ∈ seen)). Qed.

Lemma first_occurrences_elem rs : forall seen r,
  r ∈ first_occurrences seen rs <-> r ∈ rs /\ r ∉ seen.
Proof.
  induction rs as [|r0 rs IH]; intros seen r.
  - unfold first_occurrences. simpl. split.
    + intros H. now apply elem_of_nil in H.
    + intros [H _]. now apply elem_of_nil in H.
  - rewrite first_occurrences_cons.
    destruct (decide (r0 ∈ seen)) as [Hin|Hout].
    + rewrite bool_decide_eq_true_2 by assumption. rewrite IH.
      set_solver.
    + rewrite bool_decide_eq_false_2 by assumption.
      rewrite elem_of_cons, IH.
      destruct (decide (r = r0)) as [->|Hne]; set_solver.
Qed.

Lemma first_occurrences_NoDup rs : forall seen,
  NoDup (first_occurrences seen rs).
Proof.
  induction rs as [|r0 rs IH]; intros seen.
  - constructor.
  - rewrite first_occurrences_cons.
    destruct (bool_decide (r0 ∈ seen)); [apply IH|].
    constructor; [|apply IH].
    rewrite first_occurrences_elem. set_solver.
Qed.

Lemma duplicated_from_NoDup rs : forall seen,
  NoDup rs -> (forall r, r ∈ rs -> r ∉ seen) ->
  duplicated_from seen rs = replicate (length rs) false.
Proof.
  induction rs as [|r0 rs IH]; intros seen Hnd Hseen; [reflexivity|].
  apply NoDup_cons in Hnd as [Hr0 Hnd]. simpl.
  rewrite bool_decide_eq_false_2 by (apply Hseen; now left).
  rewrite IH; [reflexivity|assumption|].
  intros r Hr. rewrite not_elem_of_cons. split.
  - intros ->. contradiction.
  - apply Hseen. now right.
Qed.

(** Which positions are kept: those of the rows that no earlier row
    and no row of [seen] equals. *)
Lemma kept_positions rs : forall seen start i,
  i ∈ take_mask (map negb (duplicated_from seen rs)) (seq start (length rs))
  <-> exists r, (start <= i)%nat /\ rs !! (i - start)%nat = Some r /\ (r ∉ seen)
                /\ forall i0, (i0 < i - start)%nat -> ~ (rs !! i0 = Some r).
Proof.
  induction rs as [|r0 rs IH]; intros seen start i; simpl.
  - split; [intros H; now apply elem_of_nil in H|].
    intros (r & _ & H & _). discriminate.
  - assert (Hrec : i ∈ take_mask (map negb (duplicated_from (r0 :: seen) rs))
                       (seq (S start) (length rs))
                   <-> exists r, (S start <= i)%nat
                         /\ rs !! (i - S start)%nat = Some r
                         /\ (r ∉ (r0 :: seen))
                         /\ forall i0, (i0 < i - S start)%nat -> ~ (rs !! i0 = Some r))
      by apply IH.
    assert (Htail :
      (exists r, (S start <= i)%nat /\ rs !! (i - S start)%nat = Some r
                 /\ (r ∉ (r0 :: seen))
                 /\ forall i0, (i0 < i - S start)%nat -> ~ (rs !! i0 = Some r))
      <-> (start < i)%nat /\
          exists r, (r0 :: rs) !! (i - start)%nat = Some r /\ (r ∉ seen)
                 /\ forall i0, (i0 < i - start)%nat -> ~ ((r0 :: rs) !! i0 = Some r)).
    { split.
      - intros (r & Hle & Hr & Hns & Hfirst).
        apply not_elem_of_cons in Hns as [Hne Hns].
        split; [lia|]. exists r.
        replace (i - start)%nat with (S (i - S start)) by lia. simpl.
        split; [assumption|]. split; [assumption|].
        intros [|i0] Hi0; simpl; [congruence|].
        apply Hfirst. lia.
      - intros (Hlt & r & Hr & Hns & Hfirst).
        replace (i - start)%nat with (S (i - S start)) in Hr, Hfirst by lia.
        simpl in Hr. exists r. split; [lia|]. split; [assumption|].
        split.
        + apply not_elem_of_cons. split; [|assumption].
          intros ->. apply (Hfirst 0%nat); [lia|reflexivity].
        + intros i0 Hi0. apply (Hfirst (S i0)). lia. }
    destruct (decide (r0 ∈ seen)) as [Hin|Hout].
    + rewrite bool_decide_eq_true_2 by assumption. simpl.
      rewrite Hrec, Htail. split.
      * intros (Hlt & r & ?). exists r. split; [lia|assumption].
      * intros (r & Hle & Hr & Hns & Hfirst).
        assert (start < i)%nat.
        { destruct (decide (i = start)) as [->|]; [|lia].
          rewrite Nat.sub_diag in Hr. simpl in Hr.
          injection Hr as <-. contradiction. }
        split; [assumption|]. exists r. auto.
    + rewrite bool_decide_eq_false_2 by assumption. simpl.
      rewrite elem_of_cons, Hrec, Htail. split.
      * intros [->|(Hlt & r & ?)].
        -- exists r0. rewrite Nat.sub_diag. simpl.
           split; [lia|]. split; [reflexivity|]. split; [assumption|].
           intros i0 Hi0. lia.
        -- exists r. split; [lia|assumption].
      * intros (r & Hle & Hr & Hns & Hfirst).
        destruct (decide (i = start)) as [->|]; [now left|].
        right. split; [lia|]. exists r. auto.
Qed.

(** Selecting rows of a frame is selecting in every column. *)
Lemma rows_of_take_mask m : forall (idx : list nat) (cs : list (list cell)),
  length m = length idx ->
  rows_of (length (take_mask m idx)) (map (take_mask m) cs)
  = take_mask m (rows_of (length idx) cs).
Proof.
  induction m as [|b m IH]; intros [|a idx] cs Hlen; simpl in Hlen;
    try lia; [reflexivity|].
  injection Hlen as Hlen.
  assert (Htl : map (@tl cell) (map (take_mask (true :: m)) cs)
                = map (take_mask m) (map (@tl cell) cs)).
  { rewrite !map_map. apply map_ext. intros [|y c]; simpl;
      [now rewrite take_mask_nil|reflexivity]. }
  assert (Hhd : map (hd NaN) (map (take_mask (true :: m)) cs)
                = map (hd NaN) cs).
  { rewrite map_map. apply map_ext. now intros [|y c]. }
  assert (Hf : map (take_mask (false :: m)) cs
               = map (take_mask m) (map (@tl cell) cs)).
  { rewrite map_map. apply map_ext. intros c. apply take_mask_false. }
  destruct b.
  - set (T := @take_mask cell (true :: m)) in *.
    cbn [rows_of length take_mask].
    rewrite Hhd, Htl, IH by assumption. reflexivity.
  - set (T := @take_mask cell (false :: m)) in *.
    cbn [rows_of length take_mask].
    rewrite Hf, IH by assumption. reflexivity.
Qed.

Lemma rows_of_length n : forall cs, length (rows_of n cs) = n.
Proof. induction n as [|n IH]; intros cs; simpl; [|rewrite IH]; reflexivity. Qed.

Lemma rows_of_lookup n : forall cs i,
  (i < n)%nat -> rows_of n cs !! i = Some (map (fun c => nth i c NaN) cs).
Proof.
  induction n as [|n IH]; intros cs i Hi; [lia|].
  destruct i as [|i]; simpl.
  - f_equal. apply map_ext. now intros [|y c].
  - rewrite IH by lia. f_equal. rewrite map_map. apply map_ext.
    now intros [|y [|z c]]; destruct i.
Qed.
End first_occurrences.

(** ** [drop_duplicates] on frames *)

Lemma rows_drop_duplicates f :
  rows (drop_duplicates f) = first_occurrences [] (rows f).
Proof.
  unfold rows, drop_duplicates, series, nrows, first_occurrences, duplicated.
  simpl. set (cs := map values (map snd (cols f))).
  set (m := map negb (duplicated_from [] (rows_of (length (index f)) cs))).
  replace (map values (map snd (map _ (cols f)))) with (map (take_mask m) cs).
  - apply rows_of_take_mask. unfold m.
    now rewrite length_map, duplicated_from_length, rows_of_length.
  - unfold cs. rewrite !map_map. reflexivity.
Qed.

Lemma nrows_drop_duplicates f :
  nrows (drop_duplicates f) = length (first_occurrences [] (rows f)).
Proof.
  rewrite <- rows_drop_duplicates. unfold rows. now rewrite rows_of_length.
Qed.

(** Dropping duplicates a second time changes nothing. *)
Lemma drop_duplicates_idempotent f :
  drop_duplicates (drop_duplicates f) = drop_duplicates f.
Proof.
  assert (Hm : map negb (duplicated (drop_duplicates f))
               = replicate (nrows (drop_duplicates f)) true).
  { unfold duplicated. rewrite rows_drop_duplicates.
    rewrite duplicated_from_NoDup.
    - rewrite nrows_drop_duplicates.
      generalize (length (first_occurrences [] (rows f))).
      intros n. induction n as [|n IH]; simpl; [|rewrite IH]; reflexivity.
    - apply first_occurrences_NoDup.
    - intros r _. apply not_elem_of_nil. }
  unfold drop_duplicates at 1. rewrite Hm.
  set (g := drop_duplicates f).
  assert (Hcol : forall c, c ∈ cols g ->
            (length (values c.2) <= nrows g)%nat).
  { intros c Hc. unfold g, drop_duplicates in Hc. simpl in Hc.
    apply list_elem_of_fmap in Hc as (c0 & -> & _). simpl.
    unfold g, nrows, drop_duplicates. simpl.
    apply take_mask_length_le.
    unfold duplicated, rows.
    rewrite length_map, duplicated_from_length, rows_of_length. reflexivity. }
  destruct g as [idx cs] eqn:Hg. unfold nrows in *. simpl in *. f_equal.
  - now apply take_mask_all.
  - transitivity (map id cs); [|apply map_id].
    apply map_ext_in. intros [x [k vs]] Hc. apply list_elem_of_In in Hc.
    simpl. now rewrite take_mask_all by apply (Hcol _ Hc).
Qed.

(** ** The derived values *)

Section sequential_map.
Context {A B : Type} (f : A -> result B).

Lemma mapR_Ok l : forall l',
  mapR f l = Ok l' <-> Forall2 (fun x y => f x = Ok y) l l'.
Proof.
  induction l as [|x l IH]; intros l'; simpl.
  - split.
    + intros [= <-]. constructor.
    + intros H. inversion H. reflexivity.
  - unfold mbind, result_bind. destruct (f x) as [y|e] eqn:Hx.
    + destruct (mapR f l) as [ys|e] eqn:Hl.
      * split.
        -- intros [= <-]. constructor; [assumption|]. now apply IH.
        -- intros H. inversion H as [|? y' ? ys' Hy Hys]; subst.
           apply IH in Hys. congruence.
      * split; [discriminate|].
        intros H. inversion H as [|? y' ? ys' Hy Hys]; subst.
        apply IH in Hys. discriminate.
    + split; [discriminate|].
      intros H. inversion H as [|? y' ? ys' Hy Hys]; subst. congruence.
Qed.

Lemma mapR_Raise l : forall e,
  mapR f l = Raise e -> exists x, x ∈ l /\ f x = Raise e.
Proof.
  induction l as [|x l IH]; intros e; simpl; [discriminate|].
  unfold mbind, result_bind. destruct (f x) as [y|e'] eqn:Hx.
  - destruct (mapR f l) as [ys|e''] eqn:Hl; [discriminate|].
    intros [= ->]. destruct (IH e eq_refl) as (x' & Hin & Hx').
    exists x'. split; [now right|assumption].
  - intros [= ->]. exists x. split; [now left|assumption].
Qed.

Lemma mapR_length l l' : mapR f l = Ok l' -> length l' = length l.
Proof. intros H. apply mapR_Ok in H. symmetry. eapply Forall2_length; eauto. Qed.
End sequential_map.

Section binarize_facts.
Implicit Types (s : Series) (x y : cell) (t : string).

Lemma lam_last_Ok x x1 :
  lam_last x = Ok x1 ->
  exists t c, x = Str t /\ str_last t = Some c /\ x1 = Str (String c EmptyString).
Proof.
  destruct x as [|z|t]; simpl; try discriminate.
  destruct (str_last t) as [c|] eqn:Hc; [|discriminate].
  intros [= <-]. eauto.
Qed.

Lemma lam_binary_char c :
  lam_binary (Str (String c EmptyString)) =
  match digit_value c with
  | Some n => Ok (Num (if Z.ltb 0 n then 1 else 0))
  | None => Raise ValueError
  end.
Proof. unfold lam_binary. simpl. now destruct (digit_value c). Qed.

Lemma binarize_cell x x1 y :
  lam_last x = Ok x1 -> lam_binary x1 = Ok y -> binarized x y.
Proof.
  intros H1 H2. apply lam_last_Ok in H1 as (t & c & -> & Hc & ->).
  rewrite lam_binary_char in H2.
  destruct (digit_value c) as [n|] eqn:Hn; [|discriminate].
  injection H2 as <-. exists t, (if Z.ltb 0 n then 1 else 0).
  unfold indicator. rewrite Hc. simpl. rewrite Hn. auto.
Qed.

Lemma binarized_is_num x y : binarized x y -> is_num y = true.
Proof. now intros (t & n & _ & _ & ->). Qed.

Lemma forall2_compose {A B C : Type} (P : A -> B -> Prop) (Q : B -> C -> Prop)
    (R : A -> C -> Prop) :
  (forall a b c, P a b -> Q b c -> R a c) ->
  forall l1 l2 l3, Forall2 P l1 l2 -> Forall2 Q l2 l3 -> Forall2 R l1 l3.
Proof.
  intros HR l1 l2 l3 H12. revert l3.
  induction H12 as [|a b l1 l2 Hab H12 IH]; intros l3 H23;
    inversion H23; subst; constructor; eauto.
Qed.

Lemma binarize_Ok s s' :
  binarize s = Ok s' ->
  kind s' = "i"%char /\ Forall2 binarized (values s) (values s').
Proof.
  unfold binarize, series_apply, mbind, result_bind.
  destruct (mapR lam_last (values s)) as [l1|e] eqn:H1; [|discriminate].
  simpl. destruct (mapR lam_binary l1) as [l2|e] eqn:H2; [|discriminate].
  intros [= <-]. simpl.
  apply mapR_Ok in H1. apply mapR_Ok in H2.
  assert (H : Forall2 binarized (values s) l2).
  { eapply forall2_compose; [|exact H1|exact H2].
    intros a b c. apply binarize_cell. }
  split; [|assumption].
  unfold infer_kind. replace (forallb is_num l2) with true; [reflexivity|].
  symmetry. apply forallb_forall. intros y Hy.
  apply list_elem_of_In in Hy.
  destruct (proj1 (list_elem_of_lookup _ _) Hy) as [i Hi].
  destruct (Forall2_lookup_r _ _ _ _ _ H Hi) as (x & _ & Hxy).
  eapply binarized_is_num; eauto.
Qed.

(** [ValueError] can only come from [int] on a final character that
    is not a digit. *)
Lemma binarize_ValueError s :
  binarize s = Raise ValueError ->
  exists t c, Str t ∈ values s /\ str_last t = Some c /\ digit_value c = None.
Proof.
  unfold binarize, series_apply, mbind, result_bind.
  destruct (mapR lam_last (values s)) as [l1|e] eqn:H1.
  - simpl. destruct (mapR lam_binary l1) as [l2|e] eqn:H2; [discriminate|].
    intros [= ->]. apply mapR_Raise in H2 as (x1 & Hin & Hx1).
    apply mapR_Ok in H1.
    destruct (proj1 (list_elem_of_lookup _ _) Hin) as [i Hi].
    destruct (Forall2_lookup_r _ _ _ _ _ H1 Hi) as (x & Hx & Hlast).
    apply lam_last_Ok in Hlast as (t & c & -> & Hc & ->).
    rewrite lam_binary_char in Hx1.
    destruct (digit_value c) eqn:Hd; [discriminate|].
    exists t, c. split; [|auto]. eapply list_elem_of_lookup_2; eauto.
  - intros [= ->]. apply mapR_Raise in H1 as (x & _ & Hx).
    destruct x as [|z|t]; simpl in Hx; try discriminate.
    destruct (str_last t); discriminate.
Qed.

(** On cells that are all non-empty strings the loop body returns or
    fails with [ValueError]. *)
Lemma binarize_strings s :
  (forall x, x ∈ values s -> exists t, x = Str t /\ t <> EmptyString) ->
  (exists s', binarize s = Ok s') \/ binarize s = Raise ValueError.
Proof.
  intros Hs. unfold binarize, series_apply, mbind, result_bind.
  destruct (mapR lam_last (values s)) as [l1|e] eqn:H1.
  - simpl. destruct (mapR lam_binary l1) as [l2|e] eqn:H2; [eauto|].
    right. apply mapR_Raise in H2 as (x1 & Hin & Hx1).
    apply mapR_Ok in H1.
    destruct (proj1 (list_elem_of_lookup _ _) Hin) as [i Hi].
    destruct (Forall2_lookup_r _ _ _ _ _ H1 Hi) as (x & Hx & Hlast).
    apply lam_last_Ok in Hlast as (t & c & -> & Hc & ->).
    rewrite lam_binary_char in Hx1.
    destruct (digit_value c); congruence.
  - exfalso. apply mapR_Raise in H1 as (x & Hin & Hx).
    destruct (Hs x Hin) as (t & -> & Hne). simpl in Hx.
    destruct t as [|c t]; [congruence|].
    assert (Hl : str_last (String c t) <> None).
    { clear. revert c. induction t as [|c' t IH]; intros c; simpl;
        [discriminate|apply IH]. }
    destruct (str_last (String c t)); [discriminate|congruence].
Qed.
End binarize_facts.

(** ** The frames that [clean_data] builds *)

Section expansion.
Implicit Types (d c e : DataFrame) (s : Series).

Lemma split_cell_token x j t :
  nth j (split_cell ";" x) NaN = Str t ->
  exists cat, x = Str cat /\ str_split ";" cat !! j = Some t.
Proof.
  destruct x as [|z|cat]; simpl.
  - destruct j as [|[|j]]; discriminate.
  - destruct j as [|[|j]]; discriminate.
  - intros H. exists cat. split; [reflexivity|].
    revert j H. induction (str_split ";" cat) as [|t0 l IH]; intros [|j]; simpl;
      try discriminate.
    + now intros [= ->].
    + apply IH.
Qed.

Lemma token_split_cell x j cat t :
  x = Str cat -> str_split ";" cat !! j = Some t ->
  nth j (split_cell ";" x) NaN = Str t /\ (j < length (split_cell ";" x))%nat.
Proof.
  intros -> H. simpl. rewrite length_map. split.
  - revert j H. induction (str_split ";" cat) as [|t0 l IH]; intros [|j]; simpl;
      try discriminate.
    + now intros [= ->].
    + apply IH.
  - eapply lookup_lt_Some; eauto.
Qed.

Lemma max_len_ge (rs : list (list cell)) r :
  r ∈ rs -> (length r <= max_len rs)%nat.
Proof.
  induction rs as [|r0 rs IH]; intros H; [now apply elem_of_nil in H|].
  simpl. apply elem_of_cons in H as [->|H]; [lia|]. specialize (IH H). lia.
Qed.

Lemma set_columns_Ok c (names : list label) :
  length names = length (cols c) ->
  set_columns c names = Ok (mkFrame (index c) (zip names (series c))).
Proof.
  intros H. unfold set_columns. now rewrite H, Nat.eqb_refl.
Qed.

(** What [named_categories] returns, when it returns. *)
Lemma named_categories_Ok d c :
  named_categories d = Ok c ->
  exists s names,
    select (Str "categories") (cols d) = [s] /\
    kind s = "O"%char /\ index d <> [] /\ index c = index d /\
    let rs := map (split_cell ";") (values s) in
    length names = max_len rs /\
    cols c = zip names (map (split_column rs) (seq 0 (max_len rs))) /\
    Forall2 (fun j name => lam_colname (hd NaN (values (split_column rs j))) = Ok name)
      (seq 0 (max_len rs)) names.
Proof.
  unfold named_categories, getitem, mbind, result_bind.
  destruct (select (Str "categories") (cols d)) as [|s [|s' ss]] eqn:Hsel;
    simpl; try discriminate.
  destruct (Ascii.eqb_spec (kind s) "O"%char) as [Hk|Hk]; [|discriminate].
  unfold iloc0. simpl.
  destruct (index d) as [|i0 idx] eqn:Hidx; [discriminate|].
  unfold series_apply at 1. simpl. unfold mbind, result_bind.
  set (rs := map (split_cell ";") (values s)).
  destruct (mapR lam_colname _) as [names|e] eqn:Hnames; [|discriminate].
  simpl.
  pose proof (mapR_length _ _ _ Hnames) as Hlen.
  unfold series in Hlen. simpl in Hlen.
  rewrite !length_map, length_seq in Hlen.
  rewrite set_columns_Ok by (simpl; now rewrite length_map, length_seq).
  intros [= <-]. exists s, names. simpl.
  split; [reflexivity|]. split; [assumption|]. split; [discriminate|].
  split; [reflexivity|]. split; [assumption|].
  unfold series. simpl. split.
  - f_equal. rewrite map_map. apply map_ext. reflexivity.
  - apply mapR_Ok in Hnames. unfold series, str_split_expand in Hnames.
    simpl in Hnames. rewrite !map_map in Hnames. simpl in Hnames.
    apply Forall2_fmap_l in Hnames. exact Hnames.
Qed.
End expansion.

Section expanded_frame.
Implicit Types (d e : DataFrame) (s : Series) (cs bins : list (label * Series)).

Lemma binarize_columns_Ok cs : forall bins,
  binarize_columns cs = Ok bins ->
  NoDup (map fst cs) /\
  Forall2 (fun c b => b.1 = c.1 /\ binarize c.2 = Ok b.2) cs bins.
Proof.
  induction cs as [|c cs IH]; intros bins; simpl.
  - intros [= <-]. split; constructor.
  - destruct (decide (c.1 ∈ map fst cs)) as [Hin|Hout].
    + rewrite bool_decide_eq_true_2 by assumption. discriminate.
    + rewrite bool_decide_eq_false_2 by assumption.
      unfold mbind, result_bind.
      destruct (binarize c.2) as [b|e] eqn:Hb; [|discriminate].
      destruct (binarize_columns cs) as [rest|e] eqn:Hrest; [|discriminate].
      intros [= <-]. destruct (IH rest eq_refl) as [Hnd Hall].
      split; constructor; auto.
Qed.

Lemma binarize_columns_ValueError cs :
  binarize_columns cs = Raise ValueError ->
  exists c, c ∈ cs /\ binarize c.2 = Raise ValueError.
Proof.
  induction cs as [|c cs IH]; simpl; [discriminate|].
  destruct (bool_decide (c.1 ∈ map fst cs)); [discriminate|].
  unfold mbind, result_bind.
  destruct (binarize c.2) as [b|e] eqn:Hb.
  - destruct (binarize_columns cs) as [rest|e] eqn:Hrest; [discriminate|].
    intros [= ->]. destruct (IH eq_refl) as (c' & Hin & Hc').
    exists c'. split; [now right|assumption].
  - intros [= ->]. exists c. split; [now left|assumption].
Qed.

Lemma binarize_columns_strings cs :
  NoDup (map fst cs) ->
  (forall c x, c ∈ cs -> x ∈ values c.2 -> exists t, x = Str t /\ t <> EmptyString) ->
  (exists bins, binarize_columns cs = Ok bins)
  \/ binarize_columns cs = Raise ValueError.
Proof.
  induction cs as [|c cs IH]; simpl; intros Hnd Hs; [eauto|].
  apply NoDup_cons in Hnd as [Hc Hnd].
  rewrite bool_decide_eq_false_2 by assumption.
  unfold mbind, result_bind.
  destruct (binarize_strings c.2) as [[b Hb]|Hb].
  - intros x Hx. apply (Hs c x); [now left|assumption].
  - rewrite Hb. destruct IH as [[rest Hrest]|Hrest]; [assumption| |..].
    + intros c' x Hc' Hx. apply (Hs c' x); [now right|assumption].
    + rewrite Hrest. eauto.
    + rewrite Hrest. now right.
  - rewrite Hb. now right.
Qed.

Lemma drop_columns_Ok d x d' :
  drop_columns x d = Ok d' ->
  d' = mkFrame (index d) (List.filter (fun c => negb (has_label x c)) (cols d)).
Proof.
  unfold drop_columns. destruct (bool_decide (x ∈ columns d)); [|discriminate].
  now intros [= <-].
Qed.

Lemma select_elem x cs s : s ∈ select x cs -> x ∈ map fst cs.
Proof.
  unfold select. intros H. apply list_elem_of_fmap in H as ([l t] & -> & H).
  apply list_elem_of_In, filter_In in H as [H Hl]. apply list_elem_of_In in H.
  unfold has_label in Hl. apply bool_decide_eq_true in Hl. simpl in Hl. subst l.
  apply list_elem_of_fmap. exists (x, t). auto.
Qed.

(** What [expanded] returns, when it returns. *)
Lemma expanded_Ok d e :
  expanded d = Ok e ->
  exists s bins d',
    select (Str "categories") (cols d) = [s] /\
    kind s = "O"%char /\ index d <> [] /\
    drop_columns (Str "categories") d = Ok d' /\
    e = mkFrame (index d) (cols d' ++ bins) /\
    let rs := map (split_cell ";") (values s) in
    length bins = max_len rs /\
    NoDup (map fst bins) /\
    forall j b, bins !! j = Some b ->
      kind b.2 = "i"%char /\
      Forall2 binarized (values (split_column rs j)) (values b.2) /\
      lam_colname (hd NaN (values (split_column rs j))) = Ok b.1.
Proof.
  unfold expanded, mbind, result_bind.
  destruct (named_categories d) as [c|err] eqn:Hc; [|discriminate].
  destruct (named_categories_Ok d c Hc)
    as (s & names & Hsel & Hk & Hidx & Hic & Hlen & Hcols & Hnames).
  destruct (binarize_columns (cols c)) as [bins|err] eqn:Hbins; [|discriminate].
  destruct (drop_columns (Str "categories") d) as [d'|err] eqn:Hd'; [|discriminate].
  intros [= <-]. exists s, bins, d'.
  split; [assumption|]. split; [assumption|]. split; [assumption|].
  split; [reflexivity|].
  pose proof (drop_columns_Ok _ _ _ Hd') as Ed'.
  split. { unfold concat_axis1. rewrite Ed'. reflexivity. }
  apply binarize_columns_Ok in Hbins as [Hnd Hall].
  set (rs := map (split_cell ";") (values s)) in *. simpl.
  assert (Hlc : length (cols c) = max_len rs).
  { rewrite Hcols, length_zip, length_map, length_seq. lia. }
  split. { rewrite <- (Forall2_length _ _ _ Hall). exact Hlc. }
  assert (Hfst : map fst bins = map fst (cols c)).
  { clear -Hall. induction Hall as [|c0 b0 l l' [H1 _] _ IH]; simpl;
      [reflexivity|]. now rewrite H1, IH. }
  split. { now rewrite Hfst. }
  intros j b Hj.
  destruct (Forall2_lookup_r _ _ _ _ _ Hall Hj) as (c0 & Hc0 & Hb1 & Hb2).
  rewrite Hcols in Hc0. apply lookup_zip_with_Some in Hc0
    as (name & col & -> & Hname & Hcol).
  apply list_lookup_fmap_Some in Hcol as (j' & -> & Hj').
  apply lookup_seq in Hj' as [-> _]. simpl in *.
  destruct (binarize_Ok _ _ Hb2) as [Hkind Hvals].
  split; [assumption|]. split; [assumption|].
  destruct (Forall2_lookup_r _ _ _ _ _ Hnames Hname) as (j'' & Hj'' & Hlam).
  apply lookup_seq in Hj'' as [-> _]. simpl in Hlam. now rewrite Hb1.
Qed.
End expanded_frame.

Section cleaned_frame.
Implicit Types (d e out : DataFrame) (s : Series).

Lemma cleaned_Ok d out :
  cleaned d = Ok out ->
  exists e, expanded d = Ok e /\ out = frame_apply lam_fill (drop_duplicates e)
            /\ cols out = map (finished e) (cols e).
Proof.
  unfold cleaned, mbind, result_bind.
  destruct (expanded d) as [e|err]; [|discriminate].
  intros [= <-]. exists e. split; [reflexivity|]. split; [reflexivity|].
  unfold frame_apply, drop_duplicates. simpl. rewrite map_map. reflexivity.
Qed.

Lemma duplicated_length e : length (duplicated e) = nrows e.
Proof.
  unfold duplicated, rows. now rewrite duplicated_from_length, rows_of_length.
Qed.

(** A cell of a finished column comes from a cell of the column, at
    the position of a kept row. *)
Lemma finished_lookup e c k v :
  values (finished e c).2 !! k = Some v ->
  exists i v0, kept_rows e !! k = Some i /\ values c.2 !! i = Some v0 /\
    v = match v0 with
        | NaN => if char_in (kind c.2) "biufc" then Num 0 else Str "."
        | _ => v0
        end.
Proof.
  unfold finished, lam_fill. cbn [snd kind].
  generalize (char_in (kind c.2) "biufc"). intros numeric H.
  assert (H' : exists v0,
             take_mask (map negb (duplicated e)) (values c.2) !! k = Some v0 /\
             v = match v0 with
                 | NaN => if numeric then Num 0 else Str "."
                 | _ => v0
                 end).
  { destruct numeric; unfold fillna in H; cbn [values] in H;
      apply list_lookup_fmap_Some in H as (v0 & -> & Hv0);
      exists v0; (split; [assumption|]); now destruct v0. }
  destruct H' as (v0 & Hv0 & ->).
  destruct (take_mask_lookup _ _ 0%nat _ _ Hv0) as (i & Hi & Hvi).
  rewrite length_map, duplicated_length in Hi.
  exists i, v0. auto.
Qed.

Lemma category_cells_select d s :
  select (Str "categories") (cols d) = [s] -> category_cells d = values s.
Proof. unfold category_cells. now intros ->. Qed.

(** A cell that the loop binarized is the indicator of a token. *)
Lemma binarized_token d s j i v0 (vs : list cell) :
  select (Str "categories") (cols d) = [s] ->
  Forall2 binarized (values (split_column (map (split_cell ";") (values s)) j)) vs ->
  vs !! i = Some v0 ->
  exists t n, token d i j = Some t /\ indicator t = Some n /\ v0 = Num n.
Proof.
  intros Hsel Hall Hi.
  destruct (Forall2_lookup_r _ _ _ _ _ Hall Hi) as (x & Hx & t & n & -> & Hn & ->).
  unfold split_column in Hx. simpl in Hx.
  apply list_lookup_fmap_Some in Hx as (r & Hr & Hrs).
  apply list_lookup_fmap_Some in Hrs as (x & -> & Hxi).
  symmetry in Hr.
  apply split_cell_token in Hr as (cat & -> & Ht).
  exists t, n. split; [|auto].
  unfold token. rewrite (category_cells_select _ _ Hsel), Hxi. exact Ht.
Qed.

Lemma indicator_binary t n : indicator t = Some n -> n = 0 \/ n = 1.
Proof.
  unfold indicator. destruct (str_last t) as [c|]; simpl; [|discriminate].
  destruct (digit_value c) as [m|]; simpl; [|discriminate].
  intros [= <-]. destruct (Z.ltb 0 m); auto.
Qed.

(** A derived column is named after the token of the first row. *)
Lemma colname_token d s j x :
  select (Str "categories") (cols d) = [s] ->
  lam_colname (hd NaN (values (split_column (map (split_cell ";") (values s)) j)))
    = Ok x ->
  exists t0, token d 0 j = Some t0 /\ x = Str (str_drop_last2 t0).
Proof.
  intros Hsel. unfold split_column. simpl.
  destruct (values s) as [|x0 vs] eqn:Hvs; simpl; [discriminate|].
  destruct (nth j (split_cell ";" x0) NaN) as [|z|t0] eqn:Hn; simpl;
    try discriminate.
  intros [= <-]. apply split_cell_token in Hn as (cat & -> & Ht).
  exists t0. split; [|reflexivity].
  unfold token. rewrite (category_cells_select _ _ Hsel), Hvs. exact Ht.
Qed.
End cleaned_frame.

(** ** C1: the derived values *)

(** C1.  When [clean_data] returns a table, its columns are the
    columns of the argument other than [categories], followed by the
    derived columns.  The [j]-th derived column is named after the
    [j]-th token of the first row, and each of its values belongs to a
    kept row [i] and is the indicator of the [j]-th token of that row:
    1 if the integer parse of the token's final character is greater
    than 0, and 0 otherwise.  So every derived value is 0 or 1, and the
    token ["aid-2"] gives 1. *)
Theorem derived_values_binary (d out : DataFrame) :
  run_clean_data d = Ok out ->
  (exists e d' derived,
    expanded d = Ok e /\
    drop_columns (Str "categories") d = Ok d' /\
    cols out = map (finished e) (cols d') ++ derived /\
    forall j x col, derived !! j = Some (x, col) ->
      (exists t0, token d 0 j = Some t0 /\ x = Str (str_drop_last2 t0)) /\
      forall k v, values col !! k = Some v ->
        (v = Num 0 \/ v = Num 1) /\
        exists i t n,
          kept_rows e !! k = Some i /\ token d i j = Some t /\
          indicator t = Some n /\ v = Num n)
  /\ indicator "aid-2" = Some 1.
Proof.
  rewrite run_clean_data_cleaned. intros Hout. split; [|reflexivity].
  destruct (cleaned_Ok _ _ Hout) as (e & He & _ & Hcols).
  destruct (expanded_Ok _ _ He)
    as (s & bins & d' & Hsel & _ & _ & Hd' & -> & _ & _ & Hbins).
  exists (mkFrame (index d) (cols d' ++ bins)), d',
    (map (finished (mkFrame (index d) (cols d' ++ bins))) bins).
  split; [assumption|]. split; [assumption|].
  split. { rewrite Hcols. simpl. now rewrite map_app. }
  intros j x col Hj.
  apply list_lookup_fmap_Some in Hj as (b & Hb & Hbj).
  destruct (Hbins j b Hbj) as (Hkind & Hall & Hname).
  assert (Hx : x = b.1) by (now injection Hb).
  assert (Hcol : col = (finished (mkFrame (index d) (cols d' ++ bins)) b).2)
    by (now injection Hb).
  split. { rewrite Hx. eapply colname_token; eauto. }
  intros k v Hk. rewrite Hcol in Hk.
  apply finished_lookup in Hk as (i & v0 & Hi & Hv0 & ->).
  destruct (binarized_token d s j i v0 _ Hsel Hall Hv0) as (t & n & Ht & Hn & ->).
  split.
  - destruct (indicator_binary _ _ Hn) as [->| ->]; auto.
  - exists i, t, n. auto.
Qed.

(** C1 on a table whose only row carries the token ["aid-2"]: the
    column [aid] holds 1. *)
Lemma derived_values_binary_witness :
  run_clean_data aid_joined
  = Ok (mkFrame [0]%nat
          [(Str "id", mkSeries "i" [Num 7]);
           (Str "message", mkSeries "O" [Str "water"]);
           (Str "related", mkSeries "i" [Num 1]);
           (Str "aid", mkSeries "i" [Num 1])])
  /\ indicator "aid-2" = Some 1.
Proof.
  split; [reflexivity|].
  exact (proj2 (derived_values_binary aid_joined _ eq_refl)).
Defined.

(** ** C3: the effect of [clean_data] on its argument *)

(** C3, as stated, fails: after the call on the example join the
    object that was passed has lost its [categories] column. *)
Lemma clean_data_mutates_argument :
  exists h',
    clean_data 0%nat [example_joined] = (Ok 3%nat, h') /\
    h' !! 0%nat = Some (mkFrame [0; 1]%nat
                          [(Str "id", mkSeries "i" [Num 1; Num 2]);
                           (Str "message", mkSeries "O" [Str "help"; Str "food"])]) /\
    h' !! 0%nat <> Some example_joined.
Proof.
  eexists. split; [reflexivity|]. split; [reflexivity|]. discriminate.
Qed.

(** C3, amended.  [clean_data] changes the object it is given in one
    way: when it returns, that object has lost its [categories] column
    (line 56 drops it in place) and is otherwise as before; the table
    returned is a new object, the same table whatever else the store
    holds; no other object of the store changes.  When [clean_data]
    raises, the object it was given is unchanged. *)
Theorem clean_data_effect (h h' : heap) (l : loc) (d : DataFrame) (r : result loc) :
  h !! l = Some d ->
  clean_data l h = (r, h') ->
  (forall k, k <> l -> (k < length h)%nat -> h' !! k = h !! k) /\
  match r with
  | Ok l' =>
      (length h <= l')%nat /\
      (exists out, h' !! l' = Some out /\ run_clean_data d = Ok out) /\
      h' !! l = Some (mkFrame (index d)
                        (List.filter
                           (fun c => negb (has_label (Str "categories") c))
                           (cols d)))
  | Raise e => h' !! l = Some d /\ run_clean_data d = Raise e
  end.
Proof.
  intros Hl Hrun. pose proof (lookup_lt_Some _ _ _ Hl) as Hlt.
  pose proof (clean_data_run h l d Hl) as H.
  rewrite run_clean_data_cleaned.
  destruct (cleaned d) as [out|e] eqn:Hout.
  - destruct H as (d' & c & e & Hd' & He & Hrun').
    rewrite Hrun' in Hrun. injection Hrun as <- <-.
    assert (Hlen : length (<[l := d']> h) = length h) by apply length_insert.
    split; [|split; [lia|split]].
    + intros k Hk Hkl. rewrite lookup_app_l by lia.
      now rewrite list_lookup_insert_ne by congruence.
    + exists out. split; [|reflexivity].
      replace (S (S (length h))) with (length (<[l := d']> h) + 2)%nat by lia.
      rewrite lookup_app_r by lia.
      now replace (length (<[l := d']> h) + 2 - length (<[l := d']> h))%nat
        with 2%nat by lia.
    + rewrite lookup_app_l by lia.
      rewrite list_lookup_insert_eq by assumption.
      now rewrite (drop_columns_Ok _ _ _ Hd').
  - destruct H as (h0 & Hrun' & Hh0). rewrite Hrun' in Hrun.
    injection Hrun as <- <-. split.
    + intros k _ Hk. destruct Hh0 as [->|[c ->]]; [reflexivity|].
      now rewrite lookup_app_l.
    + split; [|reflexivity].
      destruct Hh0 as [->|[c ->]]; [assumption|]. now rewrite lookup_app_l.
Qed.

(** C3, amended, on the example join. *)
Lemma clean_data_effect_witness :
  exists h',
    clean_data 0%nat [example_joined] = (Ok 3%nat, h') /\
    h' !! 0%nat = Some (mkFrame [0; 1]%nat
                          [(Str "id", mkSeries "i" [Num 1; Num 2]);
                           (Str "message", mkSeries "O" [Str "help"; Str "food"])]).
Proof.
  eexists. split; [reflexivity|].
  exact (proj2 (proj2 (proj2
    (clean_data_effect [example_joined] _ 0%nat example_joined (Ok 3%nat)
       eq_refl eq_refl)))).
Defined.

(** ** C4: cleaning a cleaned table *)

Section reclean.
Implicit Types (d e out : DataFrame) (s : Series) (cs : list (label * Series)).

Lemma select_map x (G : Series -> Series) cs :
  select x (map (fun c => (c.1, G c.2)) cs) = map G (select x cs).
Proof.
  induction cs as [|c cs IH]; [reflexivity|].
  simpl. rewrite !select_cons. unfold has_label. simpl.
  destruct (bool_decide (c.1 = x)); simpl; now rewrite IH.
Qed.

Lemma select_rejected x cs :
  select x (List.filter (fun c => negb (has_label x c)) cs) = [].
Proof.
  apply select_absent. intros H.
  apply list_elem_of_fmap in H as (c & -> & Hc).
  apply list_elem_of_In, filter_In in Hc as [_ Hc].
  unfold has_label in Hc. now rewrite bool_decide_eq_true_2 in Hc.
Qed.

Lemma select_other x y cs :
  x <> y ->
  select x (List.filter (fun c => negb (has_label y c)) cs) = select x cs.
Proof.
  intros Hxy. induction cs as [|c cs IH]; [reflexivity|]. simpl.
  unfold has_label at 1. destruct (decide (c.1 = y)) as [E|E].
  - rewrite bool_decide_eq_true_2 by assumption. simpl.
    rewrite select_cons. unfold has_label.
    rewrite bool_decide_eq_false_2 by congruence. exact IH.
  - rewrite bool_decide_eq_false_2 by assumption. simpl.
    rewrite !select_cons. destruct (has_label x c); now rewrite IH.
Qed.

Lemma lam_fill_kind s : kind (lam_fill s) = kind s.
Proof. unfold lam_fill. now destruct (char_in (kind s) "biufc"). Qed.

(** The columns of a cleaned table that are labelled [categories] are
    derived columns, of integer kind. *)
Lemma cleaned_categories_columns d out :
  cleaned d = Ok out ->
  Forall (fun s => kind s = "i"%char) (select (Str "categories") (cols out)).
Proof.
  intros Hout. destruct (cleaned_Ok _ _ Hout) as (e & He & _ & Hcols).
  destruct (expanded_Ok _ _ He)
    as (s & bins & d' & _ & _ & _ & Hd' & -> & _ & _ & Hbins).
  rewrite Hcols. unfold finished.
  rewrite (select_map (Str "categories")
             (fun t => lam_fill (mkSeries (kind t) (take_mask _ (values t))))).
  simpl. rewrite select_app, (drop_columns_Ok _ _ _ Hd'). simpl.
  rewrite select_rejected. simpl.
  apply Forall_fmap. apply Forall_forall. intros t Ht. simpl.
  rewrite lam_fill_kind. simpl.
  unfold select in Ht. apply list_elem_of_fmap in Ht as (b & -> & Hb).
  apply list_elem_of_In, filter_In in Hb as [Hb _]. apply list_elem_of_In in Hb.
  destruct (proj1 (list_elem_of_lookup _ _) Hb) as [j Hj].
  now destruct (Hbins j b Hj) as [Hk _].
Qed.

Lemma cleaned_of_integer_categories out :
  Forall (fun s => kind s = "i"%char) (select (Str "categories") (cols out)) ->
  (~ (Str "categories" ∈ columns out) -> cleaned out = Raise KeyError) /\
  (Str "categories" ∈ columns out -> cleaned out = Raise AttributeError).
Proof.
  intros Hall. unfold cleaned, expanded, named_categories, getitem, columns.
  split; intros Hin.
  - now rewrite (select_absent _ _ Hin).
  - apply select_present in Hin.
    destruct (select (Str "categories") (cols out)) as [|s [|s' ss]];
      [contradiction|..]; simpl; [|reflexivity].
    apply Forall_cons in Hall as [Hs _]. now rewrite Hs.
Qed.

Lemma lam_fill_id s : ~ (NaN ∈ values s) -> lam_fill s = s.
Proof.
  intros Hs. unfold lam_fill, fillna.
  assert (E : forall v, map (fun c => match c with NaN => v | _ => c end) (values s)
                        = values s).
  { intros v. rewrite <- (map_id (values s)) at 2. apply map_ext_in.
    intros [|z|t] Hc; [|reflexivity..].
    contradiction Hs. now apply list_elem_of_In. }
  rewrite !E. destruct s. now destruct (char_in _ _).
Qed.

(** A table without missing values is returned as deduplicated. *)
Lemma cleaned_without_missing d e :
  expanded d = Ok e ->
  (forall c, c ∈ cols d -> ~ (NaN ∈ values c.2)) ->
  frame_apply lam_fill (drop_duplicates e) = drop_duplicates e.
Proof.
  intros He Hd.
  destruct (expanded_Ok _ _ He)
    as (s & bins & d' & _ & _ & _ & Hd' & -> & _ & _ & Hbins).
  assert (Hcells : forall c, c ∈ (cols d' ++ bins) -> ~ (NaN ∈ values c.2)).
  { intros c Hc. apply elem_of_app in Hc as [Hc|Hc].
    - rewrite (drop_columns_Ok _ _ _ Hd') in Hc. cbn [cols] in Hc.
      apply list_elem_of_In, filter_In in Hc as [Hc _].
      apply Hd. now apply list_elem_of_In.
    - destruct (proj1 (list_elem_of_lookup _ _) Hc) as [j Hj].
      destruct (Hbins j c Hj) as (_ & Hall & _).
      intros Hnan. apply list_elem_of_lookup in Hnan as [k Hk].
      destruct (Forall2_lookup_r _ _ _ _ _ Hall Hk) as (x & _ & t & n & _ & _ & E).
      discriminate E. }
  unfold frame_apply. set (g := drop_duplicates _).
  replace (map (fun c => (c.1, lam_fill c.2)) (cols g)) with (cols g);
    [now destruct g|].
  rewrite <- (map_id (cols g)) at 1. apply map_ext_in.
  intros [x col] Hc. cbn [fst snd]. f_equal. symmetry. apply lam_fill_id.
  unfold g, drop_duplicates in Hc. cbn [cols] in Hc.
  apply in_map_iff in Hc as (c0 & [= <- <-] & Hc0). cbn [values].
  intros Hnan. apply take_mask_elem in Hnan.
  exact (Hcells c0 (proj2 (list_elem_of_In _ _) Hc0) Hnan).
Qed.
End reclean.

(** C4, as stated, fails twice.  The second application to the
    example join does not return a table.  And one pass can leave
    duplicates: of the four different rows of [dup_joined] two are
    kept, which the filling of missing values then makes equal. *)
Lemma reclean_counterexample :
  (exists out,
     run_clean_data example_joined = Ok out /\
     run_clean_data out = Raise KeyError) /\
  (exists out,
     run_clean_data dup_joined = Ok out /\
     nrows out = 2%nat /\ nrows (drop_duplicates out) = 1%nat).
Proof. split; eexists; repeat split; reflexivity. Qed.

(** C4, amended.  [clean_data] cannot be applied to a table that it
    returned: the raw [categories] column is gone, and the call raises
    [KeyError] when no derived column is named [categories] and
    [AttributeError] when one is.  Within one pass the removal of
    duplicates is complete for the table as it is before missing
    values are filled: it has no two equal rows, and dropping
    duplicates from it again removes nothing.  The same holds of the
    table returned when the argument has no missing value; otherwise
    the filling can make kept rows equal. *)
Theorem reclean_raises (d out : DataFrame) :
  run_clean_data d = Ok out ->
  (~ (Str "categories" ∈ columns out) -> run_clean_data out = Raise KeyError) /\
  (Str "categories" ∈ columns out -> run_clean_data out = Raise AttributeError) /\
  exists e,
    expanded d = Ok e /\
    out = frame_apply lam_fill (drop_duplicates e) /\
    NoDup (rows (drop_duplicates e)) /\
    drop_duplicates (drop_duplicates e) = drop_duplicates e /\
    ((forall c, c ∈ cols d -> ~ (NaN ∈ values c.2)) ->
     out = drop_duplicates e /\ NoDup (rows out) /\ drop_duplicates out = out).
Proof.
  rewrite !run_clean_data_cleaned. intros Hout.
  pose proof (cleaned_of_integer_categories out
                (cleaned_categories_columns _ _ Hout)) as [Hkey Hattr].
  split; [exact Hkey|]. split; [exact Hattr|].
  destruct (cleaned_Ok _ _ Hout) as (e & He & -> & _). exists e.
  assert (Hnd : NoDup (rows (drop_duplicates e))).
  { rewrite rows_drop_duplicates. apply first_occurrences_NoDup. }
  split; [assumption|]. split; [reflexivity|]. split; [exact Hnd|].
  split; [apply drop_duplicates_idempotent|].
  intros Hd. rewrite (cleaned_without_missing _ _ He Hd).
  split; [reflexivity|]. split; [exact Hnd|apply drop_duplicates_idempotent].
Qed.

(** C4, amended, on the example join. *)
Lemma reclean_raises_witness :
  exists out,
    run_clean_data example_joined = Ok out /\
    run_clean_data out = Raise KeyError /\
    NoDup (rows out) /\ drop_duplicates out = out.
Proof.
  eexists. split; [reflexivity|].
  destruct (reclean_raises example_joined _ eq_refl)
    as (Hkey & _ & e & He & _ & _ & _ & Hrows).
  split.
  - apply Hkey. apply (bool_decide_unpack _). vm_compute. exact I.
  - apply Hrows. intros c Hc.
    apply (bool_decide_unpack _).
    revert c Hc. apply Forall_forall. apply (bool_decide_unpack _).
    vm_compute. exact I.
Defined.

(** ** C6: missing values *)

Lemma char_in_elem (x : ascii) (s : string) :
  char_in x s = bool_decide (x ∈ list_ascii_of_string s).
Proof.
  induction s as [|c s IH]; simpl.
  - reflexivity.
  - rewrite IH. destruct (Ascii.eqb_spec x c) as [->|Hne]; simpl.
    + symmetry. apply bool_decide_eq_true. now left.
    + apply bool_decide_ext. rewrite elem_of_cons. tauto.
Qed.

Lemma lam_fill_values s :
  values (lam_fill s) = map (filled (kind s)) (values s).
Proof.
  unfold lam_fill, filled. rewrite char_in_elem. simpl.
  destruct (bool_decide (kind s ∈ _)); simpl; apply map_ext; now intros [].
Qed.

Lemma filled_not_missing k v : filled k v <> NaN.
Proof. destruct v; simpl; [|discriminate..]. now destruct (bool_decide _). Qed.

(** C6.  In the table that [clean_data] returns no cell is a missing
    value.  Column by column it is the deduplicated table with every
    missing value replaced: by 0 in a column of numeric dtype kind
    (one of b, i, u, f, c), by ["."] in any other column; cells that
    hold a value are kept as they are. *)
Theorem no_missing_after_clean (d out : DataFrame) :
  run_clean_data d = Ok out ->
  (forall c v, c ∈ cols out -> v ∈ values c.2 -> v <> NaN) /\
  exists e,
    expanded d = Ok e /\
    index out = index (drop_duplicates e) /\
    cols out =
      map (fun c => (c.1, mkSeries (kind c.2) (map (filled (kind c.2)) (values c.2))))
        (cols (drop_duplicates e)).
Proof.
  rewrite run_clean_data_cleaned. intros Hout.
  destruct (cleaned_Ok _ _ Hout) as (e & He & -> & _).
  assert (Hcols : cols (frame_apply lam_fill (drop_duplicates e)) =
    map (fun c => (c.1, mkSeries (kind c.2) (map (filled (kind c.2)) (values c.2))))
      (cols (drop_duplicates e))).
  { unfold frame_apply. cbn [cols]. apply map_ext. intros c. f_equal.
    pose proof (lam_fill_values c.2) as Hv. pose proof (lam_fill_kind c.2) as Hk.
    destruct (lam_fill c.2) as [k vs]. simpl in *. now subst. }
  split.
  - intros c v Hc Hv. rewrite Hcols in Hc.
    apply list_elem_of_fmap in Hc as (c0 & -> & _). simpl in Hv.
    apply list_elem_of_fmap in Hv as (v0 & -> & _). apply filled_not_missing.
  - exists e. split; [assumption|]. split; [reflexivity|exact Hcols].
Qed.

(** C6 on a table with a gap in a numeric and in a text column. *)
Lemma no_missing_after_clean_witness :
  run_clean_data gaps_joined
  = Ok (mkFrame [0; 1]%nat
          [(Str "id", mkSeries "i" [Num 1; Num 2]);
           (Str "score", mkSeries "f" [Num 0; Num 3]);
           (Str "original", mkSeries "O" [Str "au secours"; Str "."]);
           (Str "aid", mkSeries "i" [Num 1; Num 0])])
  /\ forall c v,
       c ∈ [(Str "id", mkSeries "i" [Num 1; Num 2]);
            (Str "score", mkSeries "f" [Num 0; Num 3]);
            (Str "original", mkSeries "O" [Str "au secours"; Str "."]);
            (Str "aid", mkSeries "i" [Num 1; Num 0])] ->
       v ∈ values c.2 -> v <> NaN.
Proof.
  split; [reflexivity|].
  exact (proj1 (no_missing_after_clean gaps_joined _ eq_refl)).
Defined.

(** ** C7: duplicate rows *)

(** C7, as stated, fails.  The four rows of [dup_joined], the join of
    [dup_messages] and [dup_categories], are pairwise different, yet
    only two rows are retained, and these two are equal in the
    output. *)
Lemma duplicates_counterexample :
  run_load_data dup_files "messages.csv" "categories.csv" = Ok dup_joined /\
  NoDup (rows dup_joined) /\
  exists out,
    run_clean_data dup_joined = Ok out /\
    rows out = [[Num 1; Str "help"; Str "."; Num 1];
                [Num 1; Str "help"; Str "."; Num 1]].
Proof.
  split; [reflexivity|]. split.
  - apply (bool_decide_unpack _). vm_compute. exact I.
  - eexists. split; reflexivity.
Qed.

Section duplicate_rows.
Implicit Types (d e out : DataFrame) (s : Series).

Lemma derived_cell_nth j (vs ys : list cell) :
  Forall2 binarized (map (fun r => nth j r NaN) (map (split_cell ";") vs)) ys ->
  forall i, nth i ys NaN = derived_cell j (nth i vs NaN).
Proof.
  rewrite map_map. revert ys.
  induction vs as [|x vs IH]; intros ys H i; inversion H as [|? y ? ys' Hxy Hrest]; subst.
  - destruct i; unfold derived_cell; simpl; now destruct j as [|[|j]].
  - destruct i as [|i]; simpl; [|now apply IH].
    destruct Hxy as (t & n & Hx & Hn & ->).
    unfold derived_cell. now rewrite Hx, Hn.
Qed.

Lemma map_eq_elem {A B : Type} (f g : A -> B) (l : list A) x :
  map f l = map g l -> x ∈ l -> f x = g x.
Proof.
  induction l as [|a l IH]; simpl; intros H Hx; [now apply elem_of_nil in Hx|].
  injection H as Ha Hl. apply elem_of_cons in Hx as [->|Hx]; auto.
Qed.

Lemma select_singleton_elem x cs s :
  select x cs = [s] -> (x, s) ∈ cs.
Proof.
  unfold select. intros H.
  assert (Hs : s ∈ map snd (List.filter (has_label x) cs)) by (rewrite H; now left).
  apply list_elem_of_fmap in Hs as ([l t] & -> & Hc).
  apply list_elem_of_In, filter_In in Hc as [Hc Hl]. apply list_elem_of_In in Hc.
  unfold has_label in Hl. apply bool_decide_eq_true in Hl. simpl in *. now subst.
Qed.

(** Rows of the argument that are equal are equal after the expansion. *)
Lemma expanded_rows_equal d e i i' r :
  expanded d = Ok e ->
  rows d !! i = Some r -> rows d !! i' = Some r ->
  rows e !! i = rows e !! i'.
Proof.
  intros He Hi Hi'.
  destruct (expanded_Ok _ _ He)
    as (s & bins & d' & Hsel & _ & _ & Hd' & -> & _ & _ & Hbins).
  assert (Hlt : (i < nrows d)%nat).
  { apply lookup_lt_Some in Hi. unfold rows in Hi. now rewrite rows_of_length in Hi. }
  assert (Hlt' : (i' < nrows d)%nat).
  { apply lookup_lt_Some in Hi'. unfold rows in Hi'. now rewrite rows_of_length in Hi'. }
  unfold rows in *. rewrite rows_of_lookup in Hi, Hi' by assumption.
  injection Hi as Hi. injection Hi' as Hi'. rewrite <- Hi' in Hi. clear Hi'.
  unfold series in Hi. rewrite !map_map in Hi.
  assert (Hcell : forall c, c ∈ cols d ->
            nth i (values c.2) NaN = nth i' (values c.2) NaN).
  { intros c Hc. exact (map_eq_elem _ _ _ c Hi Hc). }
  unfold nrows in *. cbn [index series cols].
  rewrite !rows_of_lookup by assumption. f_equal.
  unfold series. cbn [cols]. rewrite !map_map, !map_app. f_equal.
  - apply map_ext_in. intros c Hc. apply Hcell.
    rewrite (drop_columns_Ok _ _ _ Hd') in Hc. simpl in Hc.
    apply filter_In in Hc as [Hc _]. now apply list_elem_of_In.
  - apply map_ext_in. intros b Hb. apply list_elem_of_In in Hb.
    destruct (proj1 (list_elem_of_lookup _ _) Hb) as [j Hj].
    destruct (Hbins j b Hj) as (_ & Hall & _).
    unfold split_column in Hall. cbn [values] in Hall.
    rewrite !(derived_cell_nth j _ _ Hall). f_equal.
    exact (Hcell _ (select_singleton_elem _ _ _ Hsel)).
Qed.

Lemma kept_rows_first e i :
  i ∈ kept_rows e <->
  exists r, rows e !! i = Some r /\ forall i0, (i0 < i)%nat -> ~ (rows e !! i0 = Some r).
Proof.
  unfold kept_rows, duplicated.
  replace (nrows e) with (length (rows e))
    by (unfold rows; now rewrite rows_of_length).
  rewrite kept_positions. rewrite Nat.sub_0_r. split.
  - intros (r & _ & Hr & _ & Hfirst). eauto.
  - intros (r & Hr & Hfirst). exists r.
    split; [lia|]. split; [assumption|]. split; [apply not_elem_of_nil|assumption].
Qed.

Lemma take_mask_same_length {A B : Type} (m : list bool) :
  forall (l : list A) (l' : list B),
    length l = length l' -> length (take_mask m l) = length (take_mask m l').
Proof.
  induction m as [|b m IH]; intros [|x l] [|y l'] H; simpl in *; try lia.
  injection H as H. specialize (IH l l' H). destruct b; simpl; lia.
Qed.
End duplicate_rows.

(** C7, amended.  Duplicates are dropped from the table in which the
    [categories] column has been replaced by the derived columns,
    before missing values are filled.  Of the rows of that table
    exactly the first occurrence of each is kept, in order: the table
    is left with one copy of each of its rows.  Joined rows that are
    equal in every field are equal in that table, so of such rows only
    the first is kept.  A row is retained unless an earlier row agrees
    with it in every field of that table. *)
Theorem duplicates_dropped (d out : DataFrame) :
  run_clean_data d = Ok out ->
  exists e,
    expanded d = Ok e /\
    out = frame_apply lam_fill (drop_duplicates e) /\
    NoDup (rows (drop_duplicates e)) /\
    sublist (rows (drop_duplicates e)) (rows e) /\
    (forall r, r ∈ rows (drop_duplicates e) <-> r ∈ rows e) /\
    nrows out = length (kept_rows e) /\
    (forall i, i ∈ kept_rows e <->
       exists r, rows e !! i = Some r /\
                 forall i0, (i0 < i)%nat -> ~ (rows e !! i0 = Some r)) /\
    (forall i i' r, (i < i')%nat ->
       rows d !! i = Some r -> rows d !! i' = Some r ->
       rows e !! i = rows e !! i' /\ ~ (i' ∈ kept_rows e)).
Proof.
  rewrite run_clean_data_cleaned. intros Hout.
  destruct (cleaned_Ok _ _ Hout) as (e & He & -> & _). exists e.
  split; [assumption|]. split; [reflexivity|].
  split. { rewrite rows_drop_duplicates. apply first_occurrences_NoDup. }
  split. { rewrite rows_drop_duplicates. apply take_mask_sublist. }
  split. { intros r. rewrite rows_drop_duplicates, first_occurrences_elem.
           split; [tauto|]. intros H. split; [assumption|apply not_elem_of_nil]. }
  split. { unfold nrows, kept_rows, frame_apply, drop_duplicates. simpl.
           apply take_mask_same_length. now rewrite length_seq. }
  split. { apply kept_rows_first. }
  intros i i' r Hlt Hi Hi'.
  pose proof (expanded_rows_equal d e i i' r He Hi Hi') as Heq.
  split; [assumption|].
  intros Hkept. apply kept_rows_first in Hkept as (r' & Hr' & Hfirst).
  apply (Hfirst i Hlt). congruence.
Qed.

(** C7, amended, on a table whose third row repeats the first. *)
Lemma duplicates_dropped_witness :
  run_clean_data repeated_joined
  = Ok (mkFrame [0; 1]%nat
          [(Str "id", mkSeries "i" [Num 1; Num 2]);
           (Str "message", mkSeries "O" [Str "help"; Str "food"]);
           (Str "aid", mkSeries "i" [Num 1; Num 0])])
  /\ exists e,
       expanded repeated_joined = Ok e /\ NoDup (rows (drop_duplicates e)).
Proof.
  split; [reflexivity|].
  destruct (duplicates_dropped repeated_joined _ eq_refl)
    as (e & He & _ & Hnd & _).
  exists e. split; assumption.
Defined.

(** ** C9: the empty table *)

Section empty_table.
Implicit Types (d m c : DataFrame).

Lemma positions_absent a ks : forall start,
  a ∉ ks -> positions_from a start ks = [].
Proof.
  induction ks as [|b ks IH]; intros start Ha; [reflexivity|].
  apply not_elem_of_cons in Ha as [Hab Ha]. simpl.
  destruct (decide (a = b)); [contradiction|]. now apply IH.
Qed.

Lemma join_pairs_disjoint lk rk : forall start,
  (forall a, a ∈ lk -> a ∉ rk) -> join_pairs_from start lk rk = [].
Proof.
  induction lk as [|a lk IH]; intros start H; [reflexivity|]. simpl.
  rewrite positions_absent by (apply H; now left). simpl.
  apply IH. intros b Hb. apply H. now right.
Qed.

Lemma merge_Ok m c on ls rs d :
  merge m c on ls rs = Ok d ->
  exists lk rk,
    key_column m on = Ok lk /\ key_column c on = Ok rk /\
    index d = seq 0 (length (join_pairs (values lk) (values rk))).
Proof.
  unfold merge, mbind, result_bind.
  destruct (key_column m on) as [lk|e]; [|discriminate].
  destruct (key_column c on) as [rk|e]; [|discriminate].
  destruct (incompatible_keys lk rk); [discriminate|].
  destruct (_ || _); [discriminate|].
  intros [= <-]. exists lk, rk. auto.
Qed.

Lemma cleaned_empty d :
  index d = [] ->
  (cleaned d = Raise KeyError \/ cleaned d = Raise AttributeError
   \/ cleaned d = Raise IndexError) /\
  (forall s, getitem d (Str "categories") = Ok (ItemSeries s) ->
             kind s = "O"%char -> cleaned d = Raise IndexError).
Proof.
  intros Hidx. unfold cleaned, expanded, named_categories, mbind, result_bind.
  destruct (getitem d (Str "categories")) as [[s|f]|e] eqn:Hget.
  - simpl. destruct (Ascii.eqb_spec (kind s) "O"%char) as [Hk|Hk].
    + unfold iloc0. simpl. rewrite Hidx. split; [auto|]. intros; reflexivity.
    + split; [auto|]. intros s' [= <-] Hk'. contradiction.
  - simpl. split; [auto|]. discriminate.
  - split; [|discriminate]. unfold getitem in Hget.
    destruct (select (Str "categories") (cols d)) as [|? [|? ?]];
      try discriminate. injection Hget as <-. auto.
Qed.
End empty_table.

(** C9.  On a table without rows [clean_data] does not return an
    empty table: it raises.  With the [categories] column in place the
    exception is the [IndexError] of [categories.iloc[0,:]], the read of
    the first row for the column names; without such a column it is the
    [KeyError] or [AttributeError] of line 38.  So a table that
    [clean_data] returns comes from an argument with at least one row.
    The join of two inputs that share no identifier is such an empty
    table. *)
Theorem empty_table_raises (d : DataFrame) :
  index d = [] ->
  (run_clean_data d = Raise KeyError \/ run_clean_data d = Raise AttributeError
   \/ run_clean_data d = Raise IndexError) /\
  (forall s, getitem d (Str "categories") = Ok (ItemSeries s) ->
             kind s = "O"%char -> run_clean_data d = Raise IndexError) /\
  (forall d' out, run_clean_data d' = Ok out -> index d' <> []) /\
  (forall m c lk rk j,
     key_column m (Str "id") = Ok lk -> key_column c (Str "id") = Ok rk ->
     (forall a, a ∈ values lk -> a ∉ values rk) ->
     merge m c (Str "id") "_left" "_right" = Ok j ->
     index j = [] /\ exists e, run_clean_data j = Raise e).
Proof.
  intros Hidx. rewrite !run_clean_data_cleaned.
  destruct (cleaned_empty d Hidx) as [H1 H2].
  split; [assumption|]. split; [assumption|]. split.
  - intros d' out. rewrite run_clean_data_cleaned. intros Hout.
    destruct (cleaned_Ok _ _ Hout) as (e & He & _).
    now destruct (expanded_Ok _ _ He) as (s & bins & d'' & _ & _ & Hne & _).
  - intros m c lk rk j Hlk Hrk Hdis Hj.
    destruct (merge_Ok _ _ _ _ _ _ Hj) as (lk' & rk' & Hlk' & Hrk' & Hidxj).
    rewrite Hlk in Hlk'. rewrite Hrk in Hrk'.
    injection Hlk' as <-. injection Hrk' as <-.
    unfold join_pairs in Hidxj. rewrite join_pairs_disjoint in Hidxj by assumption.
    simpl in Hidxj. split; [assumption|].
    rewrite run_clean_data_cleaned.
    destruct (cleaned_empty j Hidxj) as [[->|[->| ->]] _]; eauto.
Qed.

(** C9 on the join of two inputs without a common identifier. *)
Lemma empty_table_raises_witness :
  merge disjoint_messages disjoint_categories (Str "id") "_left" "_right"
  = Ok empty_joined
  /\ run_clean_data empty_joined = Raise IndexError.
Proof.
  split; [reflexivity|].
  exact (proj1 (proj2 (empty_table_raises empty_joined eq_refl))
           (mkSeries "O" []) eq_refl eq_refl).
Defined.

(** ** C8: a final character that is not a digit *)

Section parse_error.
Implicit Types (d out : DataFrame) (s : Series).

Lemma cleaned_cases d :
  (exists out, cleaned d = Ok out) \/ (exists e, cleaned d = Raise e).
Proof. destruct (cleaned d); eauto. Qed.

Lemma token_lookup d s i j t :
  select (Str "categories") (cols d) = [s] ->
  token d i j = Some t ->
  exists cat, values s !! i = Some (Str cat) /\ str_split ";" cat !! j = Some t.
Proof.
  intros Hsel. unfold token. rewrite (category_cells_select _ _ Hsel).
  destruct (values s !! i) as [[|z|cat]|]; try discriminate. eauto.
Qed.

(** A token whose final character is not a digit keeps [clean_data]
    from returning. *)
Lemma nondigit_not_cleaned d i j t c out :
  token d i j = Some t -> str_last t = Some c -> digit_value c = None ->
  cleaned d <> Ok out.
Proof.
  intros Ht Hc Hd Hout.
  destruct (cleaned_Ok _ _ Hout) as (e & He & _).
  destruct (expanded_Ok _ _ He)
    as (s & bins & d' & Hsel & _ & _ & _ & _ & Hlen & _ & Hbins).
  destruct (token_lookup _ _ _ _ _ Hsel Ht) as (cat & Hi & Hj).
  set (rs := map (split_cell ";") (values s)) in *.
  destruct (token_split_cell (Str cat) j cat t eq_refl Hj) as [Hnth Hjlt].
  assert (Hr : rs !! i = Some (split_cell ";" (Str cat))).
  { unfold rs. rewrite list_lookup_fmap, Hi. reflexivity. }
  assert (Hw : (j < max_len rs)%nat).
  { pose proof (max_len_ge rs _ (list_elem_of_lookup_2 _ _ _ Hr)). lia. }
  destruct (lookup_lt_is_Some_2 bins j ltac:(lia)) as [b Hb].
  destruct (Hbins j b Hb) as (_ & Hall & _).
  assert (Hcell : values (split_column rs j) !! i = Some (Str t)).
  { unfold split_column. cbn [values]. rewrite list_lookup_fmap, Hr.
    change (Some (nth j (split_cell ";" (Str cat)) NaN) = Some (Str t)).
    now rewrite Hnth. }
  destruct (Forall2_lookup_l _ _ _ _ _ Hall Hcell) as (y & _ & t' & n & Ht' & Hn & _).
  injection Ht' as <-. unfold indicator in Hn. rewrite Hc in Hn. simpl in Hn.
  now rewrite Hd in Hn.
Qed.

Lemma named_categories_not_ValueError d :
  named_categories d <> Raise ValueError.
Proof.
  unfold named_categories, getitem, mbind, result_bind.
  destruct (select (Str "categories") (cols d)) as [|s [|s' ss]];
    simpl; try discriminate.
  destruct (Ascii.eqb (kind s) "O"); [|discriminate].
  unfold iloc0. simpl. destruct (index d) as [|i0 idx]; [discriminate|].
  unfold series_apply at 1. simpl. unfold mbind, result_bind.
  destruct (mapR lam_colname _) as [names|e] eqn:Hnames.
  - simpl. pose proof (mapR_length _ _ _ Hnames) as Hlen.
    unfold series in Hlen. simpl in Hlen.
    rewrite !length_map, length_seq in Hlen.
    rewrite set_columns_Ok by (simpl; now rewrite length_map, length_seq).
    discriminate.
  - intros [= ->]. apply mapR_Raise in Hnames as (x & _ & Hx).
    now destruct x.
Qed.

(** [ValueError] is only raised for a token whose final character is
    not a digit. *)
Lemma ValueError_nondigit d :
  cleaned d = Raise ValueError ->
  exists i j t c,
    token d i j = Some t /\ str_last t = Some c /\ digit_value c = None.
Proof.
  unfold cleaned, expanded, mbind, result_bind.
  destruct (named_categories d) as [nc|e] eqn:Hnc.
  2:{ intros [= ->]. now apply named_categories_not_ValueError in Hnc. }
  destruct (named_categories_Ok _ _ Hnc)
    as (s & names & Hsel & _ & _ & _ & Hlen & Hcols & _).
  destruct (binarize_columns (cols nc)) as [bins|e] eqn:Hbins.
  - unfold drop_columns. destruct (bool_decide _); discriminate.
  - intros [= ->].
    apply binarize_columns_ValueError in Hbins as (col & Hcol & Hval).
    apply binarize_ValueError in Hval as (t & c & Ht & Hc & Hd).
    rewrite Hcols in Hcol.
    destruct (proj1 (list_elem_of_lookup _ _) Hcol) as [k Hk].
    apply lookup_zip_with_Some in Hk as (name & sc & -> & _ & Hsc).
    apply list_lookup_fmap_Some in Hsc as (j & -> & _).
    unfold split_column in Ht. simpl in Ht.
    apply list_elem_of_fmap in Ht as (r & Hr & Hrs).
    apply list_elem_of_fmap in Hrs as (x & -> & Hx).
    symmetry in Hr. apply split_cell_token in Hr as (cat & -> & Hj).
    destruct (proj1 (list_elem_of_lookup _ _) Hx) as [i Hi].
    exists i, j, t, c. split; [|auto].
    unfold token. now rewrite (category_cells_select _ _ Hsel), Hi.
Qed.
End parse_error.

Section uniform_tables.
Implicit Types (d out : DataFrame) (s : Series).

Lemma uniform_row_spec w x :
  uniform_row w x = true ->
  length (split_cell ";" x) = w /\
  forall y, y ∈ split_cell ";" x -> exists t, y = Str t /\ t <> EmptyString.
Proof.
  destruct x as [|z|cat]; simpl; try discriminate.
  intros H. apply andb_true_iff in H as [Hw Hne].
  apply Nat.eqb_eq in Hw. rewrite length_map. split; [assumption|].
  intros y Hy. apply list_elem_of_fmap in Hy as (t & -> & Ht).
  exists t. split; [reflexivity|].
  rewrite forallb_forall in Hne. apply list_elem_of_In in Ht.
  specialize (Hne t Ht). apply negb_true_iff in Hne.
  intros ->. discriminate.
Qed.

Lemma max_len_const (rs : list (list cell)) w :
  rs <> [] -> (forall r, r ∈ rs -> length r = w) -> max_len rs = w.
Proof.
  induction rs as [|r rs IH]; intros Hne Hall; [congruence|]. simpl.
  rewrite (Hall r) by now left.
  destruct rs as [|r' rs]; [simpl; lia|].
  rewrite IH; [lia|discriminate|]. intros r0 Hr0. apply Hall. now right.
Qed.

Lemma nth_elem (r : list cell) j :
  (j < length r)%nat -> nth j r NaN ∈ r.
Proof. intros H. apply list_elem_of_In. now apply nth_In. Qed.

(** On a uniformly encoded table [clean_data] returns or fails with the
    parse error. *)
Lemma uniform_cleaned d :
  uniform d = true ->
  (exists out, cleaned d = Ok out) \/ cleaned d = Raise ValueError.
Proof.
  unfold uniform.
  destruct (select (Str "categories") (cols d)) as [|s [|s' ss]] eqn:Hsel;
    try discriminate.
  destruct (index d) as [|i0 idx] eqn:Hidx; [discriminate|].
  destruct (values s) as [|[|z|cat0] vs] eqn:Hvs; try discriminate.
  intros H. apply andb_true_iff in H as [H Hnd].
  apply andb_true_iff in H as [Hk Hrows].
  apply bool_decide_eq_true in Hnd. apply Ascii.eqb_eq in Hk.
  rewrite forallb_forall in Hrows.
  set (w := length (str_split ";" cat0)) in *.
  set (rs := map (split_cell ";") (values s)).
  assert (Hrs : forall r, r ∈ rs ->
            length r = w /\
            forall y, y ∈ r -> exists t, y = Str t /\ t <> EmptyString).
  { intros r Hr. apply list_elem_of_fmap in Hr as (x & -> & Hx).
    apply uniform_row_spec. apply Hrows. rewrite Hvs in Hx.
    now apply list_elem_of_In. }
  assert (Hw : max_len rs = w).
  { apply max_len_const.
    - unfold rs. rewrite Hvs. discriminate.
    - intros r Hr. now apply Hrs. }
  assert (Hcells : forall j x, (j < w)%nat -> x ∈ values (split_column rs j) ->
            exists t, x = Str t /\ t <> EmptyString).
  { intros j x Hj Hx. unfold split_column in Hx. simpl in Hx.
    apply list_elem_of_fmap in Hx as (r & -> & Hr).
    destruct (Hrs r Hr) as [Hlen Hall]. apply Hall, nth_elem. lia. }
  assert (Hhd : forall j, (j < w)%nat ->
            hd NaN (values (split_column rs j)) ∈ values (split_column rs j)).
  { intros j Hj. unfold split_column, rs. rewrite Hvs. simpl. now left. }
  destruct (named_categories d) as [nc|e] eqn:Hnc.
  2:{ exfalso. revert Hnc.
      unfold named_categories, getitem, mbind, result_bind.
      rewrite Hsel. simpl. rewrite Hk. simpl.
      unfold iloc0. simpl. rewrite Hidx.
      unfold series_apply at 1. simpl. unfold mbind, result_bind.
      destruct (mapR lam_colname _) as [names|e'] eqn:Hnames.
      - simpl. pose proof (mapR_length _ _ _ Hnames) as Hlen.
        unfold series in Hlen. simpl in Hlen.
        rewrite !length_map, length_seq in Hlen.
        rewrite set_columns_Ok by (simpl; now rewrite length_map, length_seq).
        discriminate.
      - intros _. apply mapR_Raise in Hnames as (x & Hx & Hlam).
        unfold series in Hx. simpl in Hx. rewrite !map_map in Hx. simpl in Hx.
        apply list_elem_of_fmap in Hx as (j & -> & Hj).
        apply list_elem_of_In, in_seq in Hj. fold rs in Hj, Hlam.
        rewrite Hw in Hj.
        destruct (Hcells j _ ltac:(lia) (Hhd j ltac:(lia))) as (t & Ht & _).
        fold rs in Ht. unfold split_column in Ht, Hlam. simpl in Ht, Hlam.
        rewrite Ht in Hlam. discriminate. }
  destruct (named_categories_Ok _ _ Hnc)
    as (s1 & names & Hsel1 & _ & _ & _ & Hlen & Hcols & Hnames).
  rewrite Hsel in Hsel1. injection Hsel1 as <-. fold rs in Hlen, Hcols, Hnames.
  rewrite Hw in Hlen, Hcols, Hnames.
  assert (Hfst : map fst (cols nc) = names).
  { rewrite Hcols. apply fst_zip. rewrite length_map, length_seq. lia. }
  assert (Hndn : NoDup names).
  { apply NoDup_alt. intros j1 j2 x H1 H2.
    assert (Hname : forall j, names !! j = Some x ->
              exists t, str_split ";" cat0 !! j = Some t /\ x = Str (str_drop_last2 t)).
    { intros j Hj.
      destruct (Forall2_lookup_r _ _ _ _ _ Hnames Hj) as (j' & Hj' & Hlam).
      apply lookup_seq in Hj' as [-> _]. simpl in Hlam.
      destruct (colname_token d s j x Hsel Hlam) as (t & Ht & ->).
      destruct (token_lookup _ _ _ _ _ Hsel Ht) as (cat & Hcat & Hsplit).
      rewrite Hvs in Hcat. injection Hcat as <-. eauto. }
    destruct (Hname j1 H1) as (t1 & Ht1 & E1).
    destruct (Hname j2 H2) as (t2 & Ht2 & E2).
    rewrite E1 in E2. injection E2 as E.
    apply (proj1 (NoDup_alt _) Hnd j1 j2 (str_drop_last2 t1)).
    - now rewrite list_lookup_fmap, Ht1.
    - rewrite list_lookup_fmap, Ht2. simpl. now rewrite E. }
  assert (Hstr : forall c x, c ∈ cols nc -> x ∈ values c.2 ->
            exists t, x = Str t /\ t <> EmptyString).
  { intros c x Hc Hx. rewrite Hcols in Hc.
    destruct (proj1 (list_elem_of_lookup _ _) Hc) as [k Hk'].
    apply lookup_zip_with_Some in Hk' as (name & sc & -> & _ & Hsc).
    apply list_lookup_fmap_Some in Hsc as (j & -> & Hj).
    apply lookup_seq in Hj as [-> Hj]. simpl in Hx. eapply Hcells; eauto. }
  unfold cleaned, expanded, mbind, result_bind. rewrite Hnc.
  rewrite <- Hfst in Hndn.
  destruct (binarize_columns_strings (cols nc) Hndn Hstr) as [[bins ->]| ->];
    [|now right].
  unfold drop_columns. rewrite bool_decide_eq_true_2; [eauto|].
  apply (select_elem _ _ s). rewrite Hsel. now left.
Qed.
End uniform_tables.

(** C8, as stated, fails: the token ["request-x"] does not end in a
    digit, but the failure of [clean_data] is not the parse error.  The
    second row has no second token, and [x[-1]] raises [TypeError] on
    the missing cell before [int] is reached. *)
Lemma parse_error_counterexample :
  merge example_messages ragged_categories (Str "id") "_left" "_right"
  = Ok ragged_joined /\
  token ragged_joined 0 1 = Some "request-x" /\
  str_last "request-x" = Some "x"%char /\
  digit_value "x" = None /\
  run_clean_data ragged_joined = Raise TypeError.
Proof. repeat split. Qed.

(** C8, amended.  A token whose final character is not a digit keeps
    [clean_data] from returning a table: it raises.  On a uniformly
    encoded table (every category string with as many tokens as the
    first, none empty, the derived names distinct) the exception is the
    parse error, the [ValueError] of [int]; on other tables an earlier
    [TypeError], [IndexError] or [KeyError] of the loop can come first.
    When every final character of a token is a digit, [clean_data] does
    not raise the parse error. *)
Theorem nondigit_token_raises (d : DataFrame) :
  (forall i j t c,
     token d i j = Some t -> str_last t = Some c -> digit_value c = None ->
     (exists e, run_clean_data d = Raise e) /\
     (uniform d = true -> run_clean_data d = Raise ValueError)) /\
  ((forall i j t c,
      token d i j = Some t -> str_last t = Some c -> digit_value c <> None) ->
   run_clean_data d <> Raise ValueError).
Proof.
  rewrite run_clean_data_cleaned. split.
  - intros i j t c Ht Hc Hd.
    assert (Hno : forall out, cleaned d <> Ok out)
      by (intros out; eapply nondigit_not_cleaned; eauto).
    split.
    + destruct (cleaned_cases d) as [[out Hout]|He]; [|assumption].
      now apply Hno in Hout.
    + intros Hu. destruct (uniform_cleaned d Hu) as [[out Hout]|He]; [|assumption].
      now apply Hno in Hout.
  - intros Hall Hraise.
    apply ValueError_nondigit in Hraise as (i & j & t & c & Ht & Hc & Hd).
    exact (Hall i j t c Ht Hc Hd).
Qed.

(** C8, amended, on a uniformly encoded table. *)
Lemma nondigit_token_raises_witness :
  uniform nondigit_joined = true /\
  token nondigit_joined 1 1 = Some "request-x" /\
  run_clean_data nondigit_joined = Raise ValueError.
Proof.
  split; [reflexivity|]. split; [reflexivity|].
  exact (proj2 (proj1 (nondigit_token_raises nondigit_joined)
                  1%nat 1%nat "request-x" "x"%char eq_refl eq_refl eq_refl)
           eq_refl).
Defined.

(** ** C2: the join *)

Section join.
Implicit Types (m df : DataFrame) (s : Series).

Lemma positions_from_spec a ks : forall start j,
  j ∈ positions_from a start ks <->
  (start <= j)%nat /\ ks !! (j - start)%nat = Some a.
Proof.
  induction ks as [|b ks IH]; intros start j; simpl.
  - split; [intros H; now apply elem_of_nil in H|]. intros [_ H]. discriminate.
  - assert (Hrec : j ∈ positions_from a (S start) ks <->
                   (start < j)%nat /\ (b :: ks) !! (j - start)%nat = Some a).
    { rewrite IH. split.
      - intros [Hle Hj]. split; [lia|].
        replace (j - start)%nat with (S (j - S start)) by lia. exact Hj.
      - intros [Hlt Hj]. split; [lia|].
        replace (j - start)%nat with (S (j - S start)) in Hj by lia. exact Hj. }
    destruct (decide (a = b)) as [<-|Hne].
    + rewrite elem_of_cons, Hrec. split.
      * intros [->|[Hlt Hj]]; [|split; [lia|assumption]].
        split; [lia|]. now rewrite Nat.sub_diag.
      * intros [Hle Hj]. destruct (decide (j = start)) as [->|]; [now left|].
        right. split; [lia|assumption].
    + rewrite Hrec. split.
      * intros [Hlt Hj]. split; [lia|assumption].
      * intros [Hle Hj]. split; [|assumption].
        destruct (decide (j = start)) as [->|]; [|lia].
        rewrite Nat.sub_diag in Hj. simpl in Hj. congruence.
Qed.

(** The pairs of the join are the pairs of positions with equal keys. *)
Lemma join_pairs_from_spec (lk rk : list cell) : forall start i j,
  (i, j) ∈ join_pairs_from start lk rk <->
  (start <= i)%nat /\
  exists a, lk !! (i - start)%nat = Some a /\ rk !! j = Some a.
Proof.
  induction lk as [|a lk IH]; intros start i j; simpl.
  - split; [intros H; now apply elem_of_nil in H|].
    intros [_ (a & H & _)]. discriminate.
  - rewrite elem_of_app, IH, list_elem_of_fmap. split.
    + intros [(j' & E & Hj')|[Hle (b & Hb & Hj)]].
      * injection E as -> ->. apply positions_from_spec in Hj' as [_ Hj'].
        rewrite Nat.sub_0_r in Hj'. split; [lia|]. exists a.
        now rewrite Nat.sub_diag.
      * split; [lia|]. exists b.
        replace (i - start)%nat with (S (i - S start)) by lia. auto.
    + intros [Hle (b & Hb & Hj)].
      destruct (decide (i = start)) as [->|Hne].
      * left. rewrite Nat.sub_diag in Hb. simpl in Hb. injection Hb as ->.
        exists j. split; [reflexivity|]. apply positions_from_spec.
        rewrite Nat.sub_0_r. split; [lia|assumption].
      * right. split; [lia|]. exists b.
        replace (i - start)%nat with (S (i - S start)) in Hb by lia. auto.
Qed.

Lemma join_pairs_spec (lk rk : list cell) i j :
  (i, j) ∈ join_pairs lk rk <-> exists a, lk !! i = Some a /\ rk !! j = Some a.
Proof.
  unfold join_pairs. rewrite join_pairs_from_spec, Nat.sub_0_r. split.
  - now intros [_ H].
  - intros H. split; [lia|assumption].
Qed.

Lemma key_column_Ok f on s :
  key_column f on = Ok s -> select on (cols f) = [s].
Proof.
  unfold key_column, getitem, mbind, result_bind.
  destruct (select on (cols f)) as [|s0 [|s1 ss]]; try discriminate.
  now intros [= <-].
Qed.

Lemma length_append (s1 s2 : string) :
  String.length (s1 +:+ s2) = (String.length s1 + String.length s2)%nat.
Proof. induction s1 as [|a s1 IH]; simpl; [|rewrite IH]; reflexivity. Qed.

(** Suffixing never makes a label [id] and leaves [id] alone when it
    is not among the shared labels. *)
Lemma with_suffix_id overlap suffix x :
  (2 < String.length suffix)%nat ->
  with_suffix overlap suffix x = Str "id" -> x = Str "id".
Proof.
  intros Hlen. unfold with_suffix.
  destruct (bool_decide (x ∈ overlap)); [|auto].
  intros [= E]. apply (f_equal String.length) in E.
  rewrite length_append in E. simpl in E. lia.
Qed.

Lemma select_renamed x (ren : label -> label) (G : Series -> Series)
    (cs : list (label * Series)) :
  ren x = x -> (forall y, ren y = x -> y = x) ->
  select x (map (fun c => (ren c.1, G c.2)) cs) = map G (select x cs).
Proof.
  intros Hx Hinv. induction cs as [|c cs IH]; [reflexivity|].
  simpl. rewrite !select_cons. unfold has_label. simpl.
  destruct (decide (c.1 = x)) as [E|E].
  - rewrite !bool_decide_eq_true_2 by congruence. simpl. now rewrite IH.
  - rewrite !bool_decide_eq_false_2; [exact IH|assumption|].
    intros E'. apply E, Hinv, E'.
Qed.

(** The identifier column of the join. *)
Lemma merge_id_column m (c : DataFrame) df :
  merge m c (Str "id") "_left" "_right" = Ok df ->
  exists lk rk,
    key_column m (Str "id") = Ok lk /\ key_column c (Str "id") = Ok rk /\
    select (Str "id") (cols df)
    = [take_rows (map fst (join_pairs (values lk) (values rk))) lk].
Proof.
  unfold merge, mbind, result_bind.
  destruct (key_column m (Str "id")) as [lk|e] eqn:Hlk; [|discriminate].
  destruct (key_column c (Str "id")) as [rk|e] eqn:Hrk; [|discriminate].
  destruct (incompatible_keys lk rk); [discriminate|].
  destruct (_ || _); [discriminate|].
  intros [= <-]. exists lk, rk. split; [reflexivity|]. split; [reflexivity|].
  cbn [cols]. rewrite select_app.
  set (rcols := List.filter (fun c0 => negb (has_label (Str "id") c0)) (cols c)).
  set (overlap := List.filter (fun l => bool_decide (l ∈ map fst rcols)) (columns m)).
  assert (Hnot : Str "id" ∉ map fst rcols).
  { intros H. apply list_elem_of_fmap in H as (c0 & E & Hc0).
    apply list_elem_of_In, filter_In in Hc0 as [_ Hc0].
    unfold has_label in Hc0. now rewrite bool_decide_eq_true_2 in Hc0. }
  rewrite (select_renamed (Str "id") (with_suffix overlap "_left")).
  - rewrite (key_column_Ok _ _ _ Hlk). simpl.
    rewrite select_absent; [reflexivity|].
    intros H. rewrite map_map in H. simpl in H.
    apply list_elem_of_fmap in H as (c0 & E & Hc0).
    symmetry in E. apply with_suffix_id in E; [|simpl; lia].
    apply Hnot. apply list_elem_of_fmap. exists c0. auto.
  - unfold with_suffix. rewrite bool_decide_eq_false_2; [reflexivity|].
    intros H. apply list_elem_of_In, filter_In in H as [_ H].
    apply bool_decide_eq_true in H. contradiction.
  - intros y. apply with_suffix_id. simpl. lia.
Qed.

Lemma run_load_data_Ok fs mp cp df :
  run_load_data fs mp cp = Ok df ->
  exists m c,
    fs !! mp = Some m /\ fs !! cp = Some c /\
    merge m c (Str "id") "_left" "_right" = Ok df.
Proof.
  unfold run_load_data, load_data, read_csv, mbind, M_bind, new, deref, lift.
  destruct (fs !! mp) as [m|]; [|discriminate].
  destruct (fs !! cp) as [c|]; [|discriminate].
  simpl. destruct (merge m c (Str "id") "_left" "_right") as [j|e] eqn:Hm;
    [|discriminate].
  simpl. intros [= <-]. eauto.
Qed.
End join.

(** C2.  The table that [load_data] returns has exactly one column
    [id]; its rows are the pairs of a messages row and a categories row
    with equal identifiers, so an identifier occurs in it if and only
    if it occurs in both inputs: a row without a match on the other
    side is left out.  When no messages identifier is missing, the same
    holds of every identifier of the table that [clean_data] makes of
    it. *)
Theorem join_identifiers (fs : csv_files) (mp cp : string) (df : DataFrame) :
  run_load_data fs mp cp = Ok df ->
  exists m c lk rk ids,
    fs !! mp = Some m /\ fs !! cp = Some c /\
    key_column m (Str "id") = Ok lk /\ key_column c (Str "id") = Ok rk /\
    getitem df (Str "id") = Ok (ItemSeries ids) /\
    ids = take_rows (map fst (join_pairs (values lk) (values rk))) lk /\
    (forall i j, (i, j) ∈ join_pairs (values lk) (values rk) <->
       exists a, values lk !! i = Some a /\ values rk !! j = Some a) /\
    (forall a, a ∈ values ids <-> a ∈ values lk /\ a ∈ values rk) /\
    (forall out s v,
       run_clean_data df = Ok out -> ~ (NaN ∈ values lk) ->
       head (select (Str "id") (cols out)) = Some s -> v ∈ values s ->
       v ∈ values lk /\ v ∈ values rk).
Proof.
  intros Hload.
  destruct (run_load_data_Ok _ _ _ _ Hload) as (m & c & Hm & Hc & Hmerge).
  destruct (merge_id_column _ _ _ Hmerge) as (lk & rk & Hlk & Hrk & Hsel).
  set (ps := join_pairs (values lk) (values rk)) in *.
  exists m, c, lk, rk, (take_rows (map fst ps) lk).
  split; [assumption|]. split; [assumption|].
  split; [assumption|]. split; [assumption|].
  split. { unfold getitem. now rewrite Hsel. }
  split; [reflexivity|].
  split. { intros i j. apply join_pairs_spec. }
  assert (Hids : forall a, a ∈ values (take_rows (map fst ps) lk) <->
                           a ∈ values lk /\ a ∈ values rk).
  { intros a. unfold take_rows. simpl. rewrite map_map. split.
    - intros H. apply list_elem_of_fmap in H as ([i j] & -> & Hij).
      apply join_pairs_spec in Hij as (b & Hi & Hj). simpl.
      rewrite nth_lookup, Hi. simpl.
      split; eapply list_elem_of_lookup_2; eauto.
    - intros [Hl Hr].
      destruct (proj1 (list_elem_of_lookup _ _) Hl) as [i Hi].
      destruct (proj1 (list_elem_of_lookup _ _) Hr) as [j Hj].
      apply list_elem_of_fmap. exists (i, j). simpl. split.
      + now rewrite nth_lookup, Hi.
      + apply join_pairs_spec. eauto. }
  split; [exact Hids|].
  intros out s v Hout Hvalid Hhead Hv.
  rewrite run_clean_data_cleaned in Hout.
  destruct (cleaned_Ok _ _ Hout) as (e & He & _ & Hcols).
  destruct (expanded_Ok _ _ He)
    as (s0 & bins & d' & _ & _ & _ & Hd' & -> & _).
  rewrite Hcols in Hhead. unfold finished in Hhead.
  rewrite (select_map (Str "id")
             (fun t => lam_fill (mkSeries (kind t) (take_mask _ (values t)))))
    in Hhead.
  cbn [cols] in Hhead.
  rewrite select_app, (drop_columns_Ok _ _ _ Hd') in Hhead. cbn [cols] in Hhead.
  rewrite select_other, Hsel in Hhead by discriminate.
  simpl in Hhead. injection Hhead as <-.
  rewrite lam_fill_values in Hv. cbn [kind values] in Hv.
  apply list_elem_of_fmap in Hv as (v0 & -> & Hv0).
  apply take_mask_elem in Hv0.
  assert (Hin : v0 ∈ values (take_rows (map fst ps) lk)) by exact Hv0.
  apply Hids in Hin as [Hl Hr].
  assert (Hne : v0 <> NaN) by (intros ->; contradiction).
  replace (filled _ v0) with v0 by (now destruct v0).
  auto.
Qed.

(** C2 on the inputs of the specification's example: both identifiers
    are matched, and both rows carry an identifier of both inputs. *)
Lemma join_identifiers_witness :
  run_load_data example_files "messages.csv" "categories.csv" = Ok example_joined
  /\ exists ids,
       getitem example_joined (Str "id") = Ok (ItemSeries ids) /\
       forall a, a ∈ values ids <-> a ∈ [Num 1; Num 2] /\ a ∈ [Num 1; Num 2].
Proof.
  split; [reflexivity|].
  destruct (join_identifiers example_files "messages.csv" "categories.csv"
              example_joined eq_refl)
    as (m & c & lk & rk & ids & Hm & Hc & Hlk & Hrk & Hget & _ & _ & Hids & _).
  injection Hm as <-. injection Hc as <-.
  injection Hlk as <-. injection Hrk as <-.
  exists ids. split; [exact Hget|exact Hids].
Defined.

(** ** C5 and C10: the stored table *)

Section writer.
Implicit Types (h : heap) (d out : DataFrame) (ds : databases) (w : world).
Implicit Types (db : database).

Lemma NoDup_lower (l : list string) : NoDup (map lower l) -> NoDup l.
Proof. apply NoDup_fmap_1. Qed.

(** The two outcomes of [to_sql]: a storable frame is stored, any
    other frame makes the call raise, before or after the old table
    has been dropped. *)
Lemma to_sql_cases d name db :
  (storable d = true /\ to_sql d name db = (Ok tt, <[name := table_of d]> db)) \/
  (storable d = false /\
   exists e, to_sql d name db = (Raise e, db)
             \/ to_sql d name db = (Raise e, delete name db)).
Proof.
  unfold storable, to_sql.
  destruct (existsb _ (cols d)); [right; split; eauto|].
  destruct (decide (NoDup (column_names d))) as [Hn|Hn].
  - rewrite (bool_decide_eq_true_2 _ Hn). cbn [negb andb].
    destruct (no_columns d); [right; split; eauto|]. cbn [negb andb orb].
    rewrite Nat.ltb_antisym.
    destruct (Nat.leb (length (cols d)) 2000); [|right; split; eauto].
    cbn [negb andb orb].
    destruct (bool_decide (NoDup (map lower (column_names d))));
      [left; split; reflexivity|right; split; eauto].
  - rewrite (bool_decide_eq_false_2 _ Hn). cbn [negb andb].
    right. split; [|eauto].
    rewrite bool_decide_eq_false_2; [now rewrite !andb_false_r|].
    intros H. now apply NoDup_lower in H.
Qed.


Lemma save_data_frame h df d path ds :
  h !! df = Some d -> save_data df path h ds = save_data 0%nat path [d] ds.
Proof. intros Hd. unfold save_data. now rewrite Hd. Qed.

Lemma save_data_cases h df d path ds :
  h !! df = Some d ->
  (storable d = true /\
   save_data df path h ds = (Ok tt, written path (table_of d) ds)) \/
  (storable d = false /\
   exists e,
     save_data df path h ds
     = (Raise e,
        <["sqlite:///" +:+ path := create_engine ("sqlite:///" +:+ path) ds]> ds)
     \/ save_data df path h ds
        = (Raise e,
           <["sqlite:///" +:+ path :=
               delete "DisasterMessages"
                 (create_engine ("sqlite:///" +:+ path) ds)]> ds)).
Proof.
  intros Hd. unfold save_data, written. rewrite Hd.
  destruct (to_sql_cases d "DisasterMessages"
              (create_engine ("sqlite:///" +:+ path) ds))
    as [[Hs ->]|[Hs [e [-> | ->]]]]; [left|right..]; split; eauto.
Qed.

Lemma save_data_Ok h df d path ds :
  h !! df = Some d -> storable d = true ->
  save_data df path h ds = (Ok tt, written path (table_of d) ds).
Proof.
  intros Hd Hs.
  destruct (save_data_cases h df d path ds Hd) as [[_ H]|[H _]];
    [assumption|congruence].
Qed.

Lemma save_data_Ok_inv h df d path ds u ds' :
  h !! df = Some d -> save_data df path h ds = (Ok u, ds') ->
  storable d = true /\ ds' = written path (table_of d) ds.
Proof.
  intros Hd Hsave.
  destruct (save_data_cases h df d path ds Hd)
    as [[Hs H]|[_ [e [H|H]]]]; rewrite H in Hsave;
    [now injection Hsave as <-|discriminate..].
Qed.

Lemma stored_written path t ds :
  stored (written path t ds) ("sqlite:///" +:+ path) "DisasterMessages" = Some t.
Proof.
  unfold stored, written. rewrite lookup_insert_eq. simpl.
  now rewrite lookup_insert_eq.
Qed.

Lemma stored_written_other path t ds url name :
  (url, name) <> ("sqlite:///" +:+ path, "DisasterMessages") ->
  stored (written path t ds) url name = stored ds url name.
Proof.
  intros Hne. unfold stored, written.
  destruct (decide (url = "sqlite:///" +:+ path)) as [->|Hu].
  - rewrite lookup_insert_eq. simpl.
    rewrite lookup_insert_ne by congruence.
    unfold create_engine. now destruct (ds !! _).
  - now rewrite lookup_insert_ne by congruence.
Qed.


(** Writing the same table again changes nothing. *)
Lemma written_twice path t t' ds :
  written path t (written path t' ds) = written path t ds.
Proof.
  unfold written, create_engine. rewrite lookup_insert_eq. simpl.
  now rewrite !insert_insert_eq.
Qed.


End writer.





(** * Further properties of the script *)

(** ** [main]: arguments, progress lines, failures *)

Section main_outcomes.
Implicit Types (w : world) (argv : list string).

(** A run with three arguments, stage by stage. *)
Lemma main_outcome p mp cp dp w :
  main [p; mp; cp; dp] w =
  match run_load_data (files w) mp cp with
  | Raise e =>
      (Raise e, mkWorld (files w) (dbs w) (stdout w ++ [loading_line mp cp]))
  | Ok df =>
      match run_clean_data df with
      | Raise e =>
          (Raise e,
           mkWorld (files w) (dbs w)
             (stdout w ++ [loading_line mp cp; "Cleaning data..."]))
      | Ok out =>
          match save_data 0%nat dp [out] (dbs w) with
          | (Ok _, ds') =>
              (Ok tt,
               mkWorld (files w) ds'
                 (stdout w ++ [loading_line mp cp; "Cleaning data...";
                               saving_line dp;
                               "Cleaned data saved to database!"]))
          | (Raise e, ds') =>
              (Raise e,
               mkWorld (files w) ds'
                 (stdout w ++ [loading_line mp cp; "Cleaning data...";
                               saving_line dp]))
          end
      end
  end.
Proof.
  unfold main, run_load_data, print, loading_line, saving_line. cbn [files dbs stdout].
  destruct (load_data (files w) mp cp []) as [[l|e] h] eqn:Hload;
    [|reflexivity].
  assert (Hh : exists m c df, h = [m; c; df] /\ l = 2%nat).
  { revert Hload.
    unfold load_data, read_csv, mbind, M_bind, new, deref, lift.
    destruct (files w !! mp) as [m|]; [|discriminate].
    destruct (files w !! cp) as [c|]; [|discriminate].
    simpl. destruct (merge m c _ _ _) as [df|e]; [|discriminate].
    simpl. intros [= <- <-]. eauto. }
  destruct Hh as (m & c & df & -> & ->). cbn [lookup list_lookup].
  pose proof (clean_data_run [m; c; df] 2%nat df eq_refl) as Hclean.
  rewrite run_clean_data_cleaned.
  destruct (cleaned df) as [out|e].
  - destruct Hclean as (d' & c' & e & _ & _ & ->).
    rewrite (save_data_frame _ _ out) by reflexivity.
    destruct (save_data 0%nat dp [out] (dbs w)) as [[u|e0] ds'];
      now rewrite <- !app_assoc.
  - destruct Hclean as (h' & -> & _). now rewrite <- !app_assoc.
Qed.

End main_outcomes.

(** X1.  With any number of arguments other than three (that is,
    [len(sys.argv)] other than 4) [main] ends normally after printing
    the usage text: it reads no file and changes no database. *)
Theorem main_usage (argv : list string) (w : world) :
  length argv <> 4%nat ->
  main argv w = (Ok tt, mkWorld (files w) (dbs w) (stdout w ++ [usage])).
Proof.
  intros H. destruct argv as [|p [|mp [|cp [|dp [|x rest]]]]];
    try reflexivity. now contradiction H.
Qed.

(** X1 on a call with two arguments. *)
Lemma main_usage_witness :
  main ["process_data.py"; "messages.csv"; "categories.csv"] example_world
  = (Ok tt, mkWorld example_files ∅ [usage]).
Proof.
  exact (main_usage ["process_data.py"; "messages.csv"; "categories.csv"]
           example_world ltac:(discriminate)).
Defined.

(** X2.  When the Loader or the Cleaner raises, [main] ends with that
    exception and has written nothing: the databases and the files are
    as they were before the run. *)
Theorem main_failure_writes_nothing (p mp cp dp : string) (w : world) (e : exn) :
  pipeline (files w) mp cp = Raise e ->
  (main [p; mp; cp; dp] w).1 = Raise e /\
  dbs (main [p; mp; cp; dp] w).2 = dbs w /\
  files (main [p; mp; cp; dp] w).2 = files w.
Proof.
  unfold pipeline. rewrite main_outcome.
  destruct (run_load_data (files w) mp cp) as [df|e0]; simpl.
  - destruct (run_clean_data df) as [out|e0]; [discriminate|].
    intros [= <-]. auto.
  - intros [= <-]. auto.
Qed.

(** X2 on a run whose categories file does not exist. *)
Lemma main_failure_writes_nothing_witness :
  (main ["process_data.py"; "messages.csv"; "missing.csv"; "out.db"]
     example_world).1 = Raise FileNotFoundError /\
  dbs (main ["process_data.py"; "messages.csv"; "missing.csv"; "out.db"]
         example_world).2 = ∅ /\
  files (main ["process_data.py"; "messages.csv"; "missing.csv"; "out.db"]
           example_world).2 = example_files.
Proof.
  exact (main_failure_writes_nothing "process_data.py" "messages.csv"
           "missing.csv" "out.db" example_world FileNotFoundError eq_refl).
Defined.

(** X3.  The progress lines of a run with three arguments tell how far
    it came: when the Loader raises, only the loading line has been
    printed; when the Cleaner raises, the loading and the cleaning
    line; and a run that ends normally has printed these two, the
    saving line and the confirmation, in this order. *)
Theorem main_progress (p mp cp dp : string) (w w' : world) (r : result unit) :
  main [p; mp; cp; dp] w = (r, w') ->
  (forall e, run_load_data (files w) mp cp = Raise e ->
             stdout w' = stdout w ++ [loading_line mp cp]) /\
  (forall df e,
     run_load_data (files w) mp cp = Ok df -> run_clean_data df = Raise e ->
     stdout w' = stdout w ++ [loading_line mp cp; "Cleaning data..."]) /\
  (r = Ok tt ->
   stdout w' = stdout w ++ [loading_line mp cp; "Cleaning data...";
                            saving_line dp; "Cleaned data saved to database!"]).
Proof.
  rewrite main_outcome.
  destruct (run_load_data (files w) mp cp) as [df|e] eqn:Hload.
  - destruct (run_clean_data df) as [out|e] eqn:Hclean.
    + destruct (save_data 0%nat dp [out] (dbs w)) as [[u|e0] ds'];
        intros [= <- <-]; (split; [|split]); try reflexivity.
      * intros e He. discriminate He.
      * intros df' e [= <-] He. rewrite Hclean in He. discriminate He.
      * intros e He. discriminate He.
      * intros df' e [= <-] He. rewrite Hclean in He. discriminate He.
      * intros H. discriminate H.
    + intros [= <- <-]. repeat split.
      * intros e' He. discriminate He.
      * intros H. discriminate H.
  - intros [= <- <-]. repeat split.
    + intros df' e' He. discriminate He.
    + intros H. discriminate H.
Qed.

(** X3 on the example: a complete run prints four lines. *)
Lemma main_progress_witness :
  stdout (main example_argv example_world).2
  = [loading_line "messages.csv" "categories.csv"; "Cleaning data...";
     saving_line "DisasterResponse.db"; "Cleaned data saved to database!"].
Proof.
  exact (proj2 (proj2 (main_progress "process_data.py" "messages.csv"
                         "categories.csv" "DisasterResponse.db" example_world
                         (main example_argv example_world).2
                         (main example_argv example_world).1 eq_refl))
           eq_refl).
Defined.

(** ** [load_data]: files, key column, rows and labels of the join *)

Section loader_outcomes.
Implicit Types (m df : DataFrame) (s : Series).

Lemma run_load_data_eq (fs : csv_files) mp cp :
  run_load_data fs mp cp =
  match fs !! mp, fs !! cp with
  | Some m, Some c => merge m c (Str "id") "_left" "_right"
  | _, _ => Raise FileNotFoundError
  end.
Proof.
  unfold run_load_data, load_data, read_csv, mbind, M_bind, new, deref, lift.
  destruct (fs !! mp) as [m|]; [|reflexivity].
  destruct (fs !! cp) as [c|]; [|reflexivity].
  simpl. now destruct (merge m c (Str "id") "_left" "_right").
Qed.

Lemma key_column_cases (f : DataFrame) on :
  key_column f on =
  match select on (cols f) with
  | [] => Raise KeyError
  | [s] => Ok s
  | _ => Raise ValueError
  end.
Proof.
  unfold key_column, getitem, mbind, result_bind.
  now destruct (select on (cols f)) as [|s [|s' ss]].
Qed.

Lemma select_nil_iff x (cs : list (label * Series)) :
  select x cs = [] <-> x ∉ map fst cs.
Proof.
  split; [|apply select_absent].
  intros H Hin. now apply select_present in Hin.
Qed.

Lemma select_unique_label x (cs : list (label * Series)) :
  NoDup (map fst cs) -> x ∈ map fst cs -> exists s0, select x cs = [s0].
Proof.
  induction cs as [|c0 cs IH]; simpl; intros Hnd Hx.
  - now apply elem_of_nil in Hx.
  - apply NoDup_cons in Hnd as [Hc0 Hnd]. rewrite select_cons. unfold has_label.
    destruct (decide (c0.1 = x)) as [E|E].
    + rewrite bool_decide_eq_true_2 by assumption. exists c0.2.
      rewrite select_absent; [reflexivity|]. now rewrite <- E.
    + rewrite bool_decide_eq_false_2 by assumption.
      apply elem_of_cons in Hx as [Hx|Hx]; [congruence|now apply IH].
Qed.

(** The frame that [merge] returns. *)
Lemma merge_frame m (c : DataFrame) df :
  merge m c (Str "id") "_left" "_right" = Ok df ->
  exists lk rk,
    select (Str "id") (cols m) = [lk] /\ select (Str "id") (cols c) = [rk] /\
    let ps := join_pairs (values lk) (values rk) in
    let overlap :=
      List.filter
        (fun l => bool_decide (l ∈ map fst (other_columns (Str "id") c)))
        (columns m) in
    df = mkFrame (seq 0 (length ps))
           (map (fun c0 => (with_suffix overlap "_left" c0.1,
                            take_rows (map fst ps) c0.2)) (cols m)
            ++ map (fun c0 => (with_suffix overlap "_right" c0.1,
                               take_rows (map snd ps) c0.2))
                 (other_columns (Str "id") c)).
Proof.
  unfold merge, mbind, result_bind.
  destruct (key_column m (Str "id")) as [lk|e] eqn:Hlk; [|discriminate].
  destruct (key_column c (Str "id")) as [rk|e] eqn:Hrk; [|discriminate].
  destruct (incompatible_keys lk rk); [discriminate|].
  destruct (_ || _); [discriminate|].
  intros [= <-]. exists lk, rk.
  split; [now apply key_column_Ok|]. split; [now apply key_column_Ok|].
  reflexivity.
Qed.

Lemma take_rows_nth (ps : list nat) s k i :
  ps !! k = Some i ->
  nth k (values (take_rows ps s)) NaN = nth i (values s) NaN.
Proof.
  intros H. unfold take_rows. simpl.
  now rewrite nth_lookup, list_lookup_fmap, H.
Qed.

Lemma positions_from_unique a (ks : list cell) : forall start,
  NoDup ks -> (length (positions_from a start ks) <= 1)%nat.
Proof.
  induction ks as [|b ks IH]; intros start Hnd; simpl; [lia|].
  apply NoDup_cons in Hnd as [Hb Hnd].
  destruct (decide (a = b)) as [->|Hne]; [|now apply IH].
  rewrite positions_absent by assumption. simpl. lia.
Qed.

Lemma join_pairs_fst_sublist (lk rk : list cell) : forall start,
  NoDup rk ->
  sublist (map fst (join_pairs_from start lk rk)) (seq start (length lk)).
Proof.
  induction lk as [|a lk IH]; intros start Hnd; simpl; [constructor|].
  rewrite map_app, map_map. simpl.
  pose proof (positions_from_unique a rk 0%nat Hnd) as Hle.
  destruct (positions_from a 0 rk) as [|j [|j' js]]; simpl in *; try lia.
  - apply sublist_cons. now apply IH.
  - apply sublist_skip. now apply IH.
Qed.

Lemma positions_from_NoDup a (ks : list cell) : forall start,
  NoDup (positions_from a start ks).
Proof.
  induction ks as [|b ks IH]; intros start; simpl; [constructor|].
  destruct (decide (a = b)); [|apply IH].
  apply NoDup_cons. split; [|apply IH].
  intros Hin. apply positions_from_spec in Hin. lia.
Qed.

Lemma join_pairs_NoDup (lk rk : list cell) : forall start,
  NoDup (join_pairs_from start lk rk).
Proof.
  induction lk as [|a lk IH]; intros start; simpl; [constructor|].
  apply NoDup_app. split; [|split; [|apply IH]].
  - apply NoDup_fmap_2; [|apply positions_from_NoDup].
    intros x y [= ->]. reflexivity.
  - intros [i j] Hl Hr.
    apply list_elem_of_fmap in Hl as (j' & [= -> ->] & _).
    apply join_pairs_from_spec in Hr. lia.
Qed.

Lemma map_nth_seq (l : list cell) :
  map (fun i => nth i l NaN) (seq 0 (length l)) = l.
Proof.
  apply list_eq. intros i. rewrite list_lookup_fmap.
  destruct (decide (i < length l)%nat) as [Hlt|Hge].
  - rewrite lookup_seq_lt by assumption. simpl.
    rewrite nth_lookup.
    destruct (lookup_lt_is_Some_2 l i Hlt) as [x Hx]. now rewrite Hx.
  - rewrite lookup_seq_ge by lia. simpl. symmetry.
    apply lookup_ge_None. lia.
Qed.
End loader_outcomes.

(** X4.  When the messages file or the categories file does not
    exist, [load_data] raises [FileNotFoundError]; nothing is joined. *)
Theorem load_data_missing_file (fs : csv_files) (mp cp : string) :
  fs !! mp = None \/ fs !! cp = None ->
  run_load_data fs mp cp = Raise FileNotFoundError.
Proof.
  rewrite run_load_data_eq. intros [-> | ->]; [reflexivity|].
  now destruct (fs !! mp).
Qed.

(** X4 on the example files and a path that is not among them. *)
Lemma load_data_missing_file_witness :
  run_load_data example_files "messages.csv" "nowhere.csv"
  = Raise FileNotFoundError.
Proof.
  exact (load_data_missing_file example_files "messages.csv" "nowhere.csv"
           (or_intror eq_refl)).
Defined.

(** X5.  With both files in place and column names that are pairwise
    different within each file (as [read_csv] makes them), [load_data]
    raises [KeyError] when the messages or the categories have no
    column [id]. *)
Theorem load_data_key_column (fs : csv_files) (mp cp : string) (m c : DataFrame) :
  fs !! mp = Some m -> fs !! cp = Some c ->
  NoDup (columns m) -> NoDup (columns c) ->
  ~ (Str "id" ∈ columns m) \/ ~ (Str "id" ∈ columns c) ->
  run_load_data fs mp cp = Raise KeyError.
Proof.
  intros Hm Hc Hndm Hndc Hid. rewrite run_load_data_eq, Hm, Hc.
  unfold merge, mbind, result_bind. rewrite !key_column_cases.
  destruct (decide (Str "id" ∈ columns m)) as [Hin|Hout].
  - destruct (select_unique_label _ _ Hndm Hin) as [lk ->].
    destruct Hid as [Hid|Hid]; [contradiction|].
    apply select_nil_iff in Hid. unfold columns in Hid. now rewrite Hid.
  - apply select_nil_iff in Hout. unfold columns in Hout. now rewrite Hout.
Qed.

(** X5 on messages without an identifier column. *)
Lemma load_data_key_column_witness :
  run_load_data keyless_files "messages.csv" "categories.csv" = Raise KeyError.
Proof.
  apply (load_data_key_column keyless_files "messages.csv" "categories.csv"
           keyless_messages example_categories eq_refl eq_refl).
  - apply (bool_decide_unpack _). vm_compute. exact I.
  - apply (bool_decide_unpack _). vm_compute. exact I.
  - left. apply (bool_decide_unpack _). vm_compute. exact I.
Defined.

(** X6.  The join has exactly one row for each pair of a messages row
    and a categories row with equal identifiers, and that row carries
    the fields of the messages row followed by the fields of the
    categories row other than its identifier, unchanged.  (The
    statement is about which rows there are, not about their order.) *)
Theorem join_rows (m c df : DataFrame) :
  merge m c (Str "id") "_left" "_right" = Ok df ->
  exists lk rk ps,
    select (Str "id") (cols m) = [lk] /\ select (Str "id") (cols c) = [rk] /\
    NoDup ps /\
    (forall i j,
       (i, j) ∈ ps <->
       exists a, values lk !! i = Some a /\ values rk !! j = Some a) /\
    rows df ≡ₚ
      map (fun p => row_at (cols m) p.1 ++ row_at (other_columns (Str "id") c) p.2)
        ps.
Proof.
  intros Hmerge.
  destruct (merge_frame _ _ _ Hmerge) as (lk & rk & Hlk & Hrk & ->).
  exists lk, rk, (join_pairs (values lk) (values rk)).
  split; [assumption|]. split; [assumption|].
  split; [apply join_pairs_NoDup|]. split; [intros i j; apply join_pairs_spec|].
  set (ps := join_pairs (values lk) (values rk)).
  match goal with |- ?l ≡ₚ ?r => assert (E : l = r); [|now rewrite E] end.
  apply list_eq. intros k. rewrite list_lookup_fmap.
  unfold rows, nrows, series. cbn [index cols]. rewrite length_seq.
  destruct (ps !! k) as [[i j]|] eqn:Hk; simpl.
  - rewrite rows_of_lookup by (eapply lookup_lt_Some; eauto).
    f_equal. rewrite !map_app, !map_map. unfold row_at. f_equal.
    + apply map_ext. intros c0. cbn [snd].
      apply take_rows_nth. now rewrite list_lookup_fmap, Hk.
    + apply map_ext. intros c0. cbn [snd].
      apply take_rows_nth. now rewrite list_lookup_fmap, Hk.
  - apply lookup_ge_None. rewrite rows_of_length.
    now apply lookup_ge_None in Hk.
Qed.

(** X6 on the inputs of the example. *)
Lemma join_rows_witness :
  exists lk rk ps,
    select (Str "id") (cols example_messages) = [lk] /\
    select (Str "id") (cols example_categories) = [rk] /\
    NoDup ps /\
    (forall i j,
       (i, j) ∈ ps <->
       exists a, values lk !! i = Some a /\ values rk !! j = Some a) /\
    rows example_joined ≡ₚ
      map (fun p => row_at (cols example_messages) p.1
                    ++ row_at (other_columns (Str "id") example_categories) p.2)
        ps.
Proof.
  exact (join_rows example_messages example_categories example_joined eq_refl).
Defined.

(** X7.  The labels of the join: a label of only one input is kept as
    it is, and a label other than [id] that both inputs carry comes
    twice, with [_left] for the messages column and [_right] for the
    categories column.  No column is lost: the join has the columns of
    the messages and the columns of the categories other than [id]. *)
Theorem join_labels (m c df : DataFrame) :
  merge m c (Str "id") "_left" "_right" = Ok df ->
  length (cols df)
  = (length (cols m) + length (other_columns (Str "id") c))%nat /\
  (forall x, x ∈ columns m -> ~ (x ∈ map fst (other_columns (Str "id") c)) ->
             x ∈ columns df) /\
  (forall x, x ∈ map fst (other_columns (Str "id") c) -> ~ (x ∈ columns m) ->
             x ∈ columns df) /\
  (forall n, Str n ∈ columns m -> Str n ∈ map fst (other_columns (Str "id") c) ->
             Str (n +:+ "_left") ∈ columns df /\
             Str (n +:+ "_right") ∈ columns df).
Proof.
  intros Hmerge.
  destruct (merge_frame _ _ _ Hmerge) as (lk & rk & _ & _ & ->).
  set (rcols := other_columns (Str "id") c).
  set (overlap := List.filter (fun l => bool_decide (l ∈ map fst rcols)) (columns m)).
  unfold columns. cbn [cols]. rewrite map_app, !map_map. cbn [fst].
  assert (Hov : forall x, x ∈ overlap <-> x ∈ columns m /\ x ∈ map fst rcols).
  { intros x. unfold overlap. rewrite !list_elem_of_In, filter_In.
    rewrite bool_decide_eq_true, !list_elem_of_In. tauto. }
  split; [|split; [|split]].
  - now rewrite length_app, !length_map.
  - intros x Hx Hnot. apply elem_of_app. left.
    apply list_elem_of_fmap in Hx as (c0 & -> & Hc0).
    apply list_elem_of_fmap. exists c0. split; [|assumption].
    unfold with_suffix. rewrite bool_decide_eq_false_2; [reflexivity|].
    rewrite Hov. tauto.
  - intros x Hx Hnot. apply elem_of_app. right.
    apply list_elem_of_fmap in Hx as (c0 & -> & Hc0).
    apply list_elem_of_fmap. exists c0. split; [|assumption].
    unfold with_suffix. rewrite bool_decide_eq_false_2; [reflexivity|].
    rewrite Hov. tauto.
  - intros n Hl Hr.
    assert (Hin : Str n ∈ overlap) by (apply Hov; auto).
    split; apply elem_of_app; [left|right].
    + apply list_elem_of_fmap in Hl as (c0 & E & Hc0).
      apply list_elem_of_fmap. exists c0. split; [|assumption].
      unfold with_suffix. rewrite <- E.
      now rewrite bool_decide_eq_true_2.
    + apply list_elem_of_fmap in Hr as (c0 & E & Hc0).
      apply list_elem_of_fmap. exists c0. split; [|assumption].
      unfold with_suffix. rewrite <- E.
      now rewrite bool_decide_eq_true_2.
Qed.

(** X7 on inputs that both carry a column [genre]. *)
Lemma join_labels_witness :
  exists df,
    merge genre_messages genre_categories (Str "id") "_left" "_right" = Ok df /\
    columns df = [Str "id"; Str "message"; Str "genre_left";
                  Str "genre_right"; Str "categories"] /\
    Str "genre_left" ∈ columns df /\ Str "genre_right" ∈ columns df.
Proof.
  eexists. split; [reflexivity|]. split; [reflexivity|].
  apply (proj2 (proj2 (proj2
    (join_labels genre_messages genre_categories _ eq_refl))) "genre");
    apply (bool_decide_unpack _); vm_compute; exact I.
Defined.

(** X8.  When no identifier comes twice in the categories, every
    messages row is matched at most once: the join has at most as many
    rows as there are messages identifiers.  When no identifier comes
    twice in the messages either, no identifier comes twice in the
    join. *)
Theorem join_unique_ids (m c df : DataFrame) (lk rk : Series) :
  merge m c (Str "id") "_left" "_right" = Ok df ->
  select (Str "id") (cols m) = [lk] -> select (Str "id") (cols c) = [rk] ->
  NoDup (values rk) ->
  (nrows df <= length (values lk))%nat /\
  (NoDup (values lk) ->
   exists ids, select (Str "id") (cols df) = [ids] /\ NoDup (values ids)).
Proof.
  intros Hmerge Hlk Hrk Hnd.
  destruct (merge_frame _ _ _ Hmerge) as (lk' & rk' & Hlk' & Hrk' & Hdf).
  rewrite Hlk in Hlk'. rewrite Hrk in Hrk'.
  injection Hlk' as <-. injection Hrk' as <-.
  pose proof (join_pairs_fst_sublist (values lk) (values rk) 0%nat Hnd) as Hsub.
  fold (join_pairs (values lk) (values rk)) in Hsub.
  split.
  - rewrite Hdf. unfold nrows. cbn [index]. rewrite length_seq.
    apply sublist_length in Hsub. rewrite length_map, length_seq in Hsub. exact Hsub.
  - intros Hndl.
    destruct (merge_id_column _ _ _ Hmerge) as (lk' & rk' & Hk1 & Hk2 & Hsel).
    apply key_column_Ok in Hk1, Hk2. rewrite Hlk in Hk1. rewrite Hrk in Hk2.
    injection Hk1 as <-. injection Hk2 as <-.
    eexists. split; [exact Hsel|].
    unfold take_rows. cbn [values].
    apply (sublist_NoDup _ (values lk)); [assumption|].
    rewrite <- (map_nth_seq (values lk)) at 2.
    now apply fmap_sublist.
Qed.

(** X8 on the inputs of the example. *)
Lemma join_unique_ids_witness :
  (nrows example_joined <= 2)%nat /\
  exists ids,
    select (Str "id") (cols example_joined) = [ids] /\ NoDup (values ids).
Proof.
  assert (Hnd : NoDup [Num 1; Num 2])
    by (apply (bool_decide_unpack _); vm_compute; exact I).
  destruct (join_unique_ids example_messages example_categories example_joined
              (mkSeries "i" [Num 1; Num 2]) (mkSeries "i" [Num 1; Num 2])
              eq_refl eq_refl eq_refl Hnd) as [Hle Hids].
  split; [exact Hle|exact (Hids Hnd)].
Defined.

(** ** [clean_data]: rows kept, row labels, layout of the columns *)

Section cleaner_rows.
Implicit Types (d e out : DataFrame) (s : Series).

Lemma cleaned_index d out :
  cleaned d = Ok out ->
  exists e,
    expanded d = Ok e /\ index e = index d /\
    index out = take_mask (map negb (duplicated e)) (index d).
Proof.
  intros Hout. destruct (cleaned_Ok _ _ Hout) as (e & He & -> & _).
  exists e. split; [assumption|].
  destruct (expanded_Ok _ _ He) as (s & bins & d' & _ & _ & _ & _ & -> & _).
  split; reflexivity.
Qed.

Lemma rows_of_NoDup n (cs : list (list cell)) v :
  v ∈ cs -> length v = n -> NoDup v -> NoDup (rows_of n cs).
Proof.
  intros Hv Hlen Hnd. apply NoDup_alt. intros i j r Hi Hj.
  assert (Hil : (i < n)%nat)
    by (apply lookup_lt_Some in Hi; now rewrite rows_of_length in Hi).
  assert (Hjl : (j < n)%nat)
    by (apply lookup_lt_Some in Hj; now rewrite rows_of_length in Hj).
  rewrite rows_of_lookup in Hi, Hj by assumption.
  injection Hi as Hi. injection Hj as Hj. rewrite <- Hj in Hi.
  pose proof (map_eq_elem _ _ _ v Hi Hv) as Hnth. simpl in Hnth.
  rewrite !nth_lookup in Hnth.
  destruct (lookup_lt_is_Some_2 v i ltac:(lia)) as [x Hx].
  destruct (lookup_lt_is_Some_2 v j ltac:(lia)) as [y Hy].
  rewrite Hx, Hy in Hnth. simpl in Hnth. subst y.
  exact (proj1 (NoDup_alt v) Hnd i j x Hx Hy).
Qed.

Lemma mask_of_NoDup (rs : list (list cell)) :
  NoDup rs -> map negb (duplicated_from [] rs) = replicate (length rs) true.
Proof.
  intros Hnd. rewrite duplicated_from_NoDup.
  - generalize (length rs). intros n.
    induction n as [|n IH]; simpl; [|rewrite IH]; reflexivity.
  - assumption.
  - intros r _. apply not_elem_of_nil.
Qed.

Lemma mask_head (rs : list (list cell)) r :
  head rs = Some r ->
  exists m, map negb (duplicated_from [] rs) = true :: m.
Proof.
  destruct rs as [|r0 rs]; [discriminate|]. intros _.
  cbn [duplicated_from map].
  rewrite bool_decide_eq_false_2 by apply not_elem_of_nil. simpl. eauto.
Qed.
End cleaner_rows.

(** X9.  When some column other than [categories] holds a different
    value in every row (as [id] does when identifiers are unique), no
    two rows are equal and [clean_data] drops none: the table it
    returns has the rows of its argument, under the same row labels. *)
Theorem clean_keeps_keyed_rows (d out : DataFrame) (x : label) (s : Series) :
  run_clean_data d = Ok out ->
  (x, s) ∈ cols d -> x <> Str "categories" ->
  length (values s) = nrows d -> NoDup (values s) ->
  index out = index d /\ nrows out = nrows d.
Proof.
  rewrite run_clean_data_cleaned. intros Hout Hx Hne Hlen Hnd.
  destruct (cleaned_index _ _ Hout) as (e & He & Hie & Hio).
  assert (Hrows : NoDup (rows e)).
  { destruct (expanded_Ok _ _ He) as (s0 & bins & d' & _ & _ & _ & Hd' & -> & _).
    unfold rows, nrows, series. cbn [index cols].
    apply (rows_of_NoDup _ _ (values s)); [|assumption..].
    rewrite map_map. apply list_elem_of_fmap. exists (x, s).
    split; [reflexivity|]. apply elem_of_app. left.
    rewrite (drop_columns_Ok _ _ _ Hd'). cbn [cols].
    apply list_elem_of_In, filter_In. split; [now apply list_elem_of_In|].
    unfold has_label. simpl. now rewrite bool_decide_eq_false_2. }
  assert (Hidx : index out = index d).
  { rewrite Hio. unfold duplicated. rewrite (mask_of_NoDup _ Hrows).
    apply take_mask_all. unfold rows. rewrite rows_of_length.
    unfold nrows. rewrite Hie. lia. }
  split; [assumption|]. unfold nrows. now rewrite Hidx.
Qed.

(** X9 on the example join, whose identifiers are 1 and 2. *)
Lemma clean_keeps_keyed_rows_witness :
  exists out,
    run_clean_data example_joined = Ok out /\
    index out = [0; 1]%nat /\ nrows out = 2%nat.
Proof.
  eexists. split; [reflexivity|].
  apply (clean_keeps_keyed_rows example_joined _ (Str "id")
           (mkSeries "i" [Num 1; Num 2]) eq_refl).
  - apply (bool_decide_unpack _). vm_compute. exact I.
  - discriminate.
  - reflexivity.
  - apply (bool_decide_unpack _). vm_compute. exact I.
Defined.

(** X10.  The table that [clean_data] returns is never empty: the
    first row of the argument is always kept.  Its row labels are row
    labels of the argument, in their order, so it has at most as many
    rows. *)
Theorem clean_keeps_first_row (d out : DataFrame) :
  run_clean_data d = Ok out ->
  sublist (index out) (index d) /\
  (nrows out <= nrows d)%nat /\
  index out <> [] /\
  head (index out) = head (index d).
Proof.
  rewrite run_clean_data_cleaned. intros Hout.
  destruct (cleaned_index _ _ Hout) as (e & He & Hie & Hio).
  assert (Hsub : sublist (index out) (index d))
    by (rewrite Hio; apply take_mask_sublist).
  split; [assumption|].
  split. { unfold nrows. now apply sublist_length. }
  destruct (expanded_Ok _ _ He) as (s & bins & d' & _ & _ & Hne & _).
  destruct (index d) as [|i0 idx] eqn:Hidx; [congruence|].
  assert (Hhead : exists r, head (rows e) = Some r).
  { unfold rows, nrows. rewrite Hie. simpl. eauto. }
  destruct Hhead as [r Hr]. destruct (mask_head _ _ Hr) as [m Hm].
  unfold duplicated in Hio. rewrite Hm in Hio. simpl in Hio.
  rewrite Hio. split; [discriminate|reflexivity].
Qed.

(** X10 on a table whose third row repeats the first. *)
Lemma clean_keeps_first_row_witness :
  exists out,
    run_clean_data repeated_joined = Ok out /\
    sublist (index out) [0; 1; 2]%nat /\ head (index out) = Some 0%nat.
Proof.
  eexists. split; [reflexivity|].
  destruct (clean_keeps_first_row repeated_joined _ eq_refl)
    as (Hsub & _ & _ & Hhead).
  split; [exact Hsub|exact Hhead].
Defined.

Section cleaner_layout.
Implicit Types (d e out : DataFrame) (s : Series).

Lemma finished_kind e (c : label * Series) :
  kind (finished e c).2 = kind c.2 /\ (finished e c).1 = c.1.
Proof. unfold finished. simpl. now rewrite lam_fill_kind. Qed.

(** On success the first row has as many tokens as there are derived
    columns. *)
Lemma token_first_row_width d s (bins : list (label * Series)) j t :
  select (Str "categories") (cols d) = [s] ->
  length bins = max_len (map (split_cell ";") (values s)) ->
  token d 0 j = Some t -> (j < length bins)%nat.
Proof.
  intros Hsel Hlen Ht.
  destruct (token_lookup _ _ _ _ _ Hsel Ht) as (cat & Hi & Hj).
  destruct (token_split_cell (Str cat) j cat t eq_refl Hj) as [_ Hjlt].
  assert (Hr : map (split_cell ";") (values s) !! 0%nat
               = Some (split_cell ";" (Str cat)))
    by (now rewrite list_lookup_fmap, Hi).
  pose proof (max_len_ge _ _ (list_elem_of_lookup_2 _ _ _ Hr)). lia.
Qed.
End cleaner_layout.

(** X11.  The layout of the table that [clean_data] returns: first the
    columns of the argument other than [categories], with their labels
    and dtype kinds, in their order; then one integer column for each
    token of the first row.  The derived labels are pairwise
    different. *)
Theorem clean_layout (d out : DataFrame) :
  run_clean_data d = Ok out ->
  exists names,
    columns out = map fst (other_columns (Str "categories") d) ++ names /\
    map (fun c => kind c.2) (cols out)
    = map (fun c => kind c.2) (other_columns (Str "categories") d)
      ++ replicate (length names) "i"%char /\
    NoDup names /\
    forall j, (j < length names)%nat <-> exists t, token d 0 j = Some t.
Proof.
  rewrite run_clean_data_cleaned. intros Hout.
  destruct (cleaned_Ok _ _ Hout) as (e & He & _ & Hcols).
  destruct (expanded_Ok _ _ He)
    as (s & bins & d' & Hsel & _ & _ & Hd' & -> & Hlen & Hnd & Hbins).
  exists (map fst bins).
  pose proof (drop_columns_Ok _ _ _ Hd') as Ed'.
  unfold columns, other_columns. rewrite Hcols. cbn [cols].
  rewrite Ed'. cbn [cols]. rewrite !map_app, !map_map.
  split; [|split; [|split]].
  - f_equal; apply map_ext; intros c; apply finished_kind.
  - f_equal.
    + apply map_ext. intros c. apply finished_kind.
    + rewrite length_map.
      rewrite (map_ext _ (fun c => kind c.2))
        by (intros c; apply finished_kind).
      apply list_eq. intros j. rewrite list_lookup_fmap.
      destruct (bins !! j) as [b|] eqn:Hb.
      * rewrite lookup_replicate_2 by (eapply lookup_lt_Some; eauto).
        cbn [fmap option_fmap option_map]. f_equal.
        now destruct (Hbins j b Hb) as [Hk _].
      * symmetry. apply lookup_replicate_None.
        apply lookup_ge_None in Hb. lia.
  - assumption.
  - intros j. rewrite length_map. split.
    + intros Hj. destruct (lookup_lt_is_Some_2 bins j Hj) as [b Hb].
      destruct (Hbins j b Hb) as (_ & _ & Hname).
      destruct (colname_token d s j _ Hsel Hname) as (t & Ht & _). eauto.
    + intros [t Ht]. eapply token_first_row_width; eauto.
Qed.

(** X11 on the example join. *)
Lemma clean_layout_witness :
  exists out,
    run_clean_data example_joined = Ok out /\
    columns out = [Str "id"; Str "message"; Str "related"; Str "request"] /\
    map (fun c => kind c.2) (cols out) = ["i"; "O"; "i"; "i"]%char.
Proof.
  eexists. split; [reflexivity|].
  destruct (clean_layout example_joined _ eq_refl) as (names & _).
  split; reflexivity.
Defined.

Section cleaner_success.
Implicit Types (d e out : DataFrame) (s : Series).

Lemma str_split_nonempty sep (s : string) : (1 <= length (str_split sep s))%nat.
Proof.
  induction s as [|c s IH]; simpl; [lia|].
  destruct (Ascii.eqb c sep); simpl; [lia|].
  destruct (str_split sep s); simpl; lia.
Qed.

Lemma split_cell_nonempty x : (1 <= length (split_cell ";" x))%nat.
Proof.
  destruct x as [|z|cat]; simpl; try lia.
  rewrite length_map. apply str_split_nonempty.
Qed.

Lemma indicator_nonempty t n : indicator t = Some n -> t <> EmptyString.
Proof. intros H ->. discriminate H. Qed.

(** What a returned table says about the encoding of the argument. *)
Lemma cleaned_uniform d out :
  length (category_cells d) = nrows d ->
  cleaned d = Ok out -> uniform d = true.
Proof.
  intros Hrect Hout.
  destruct (cleaned_Ok _ _ Hout) as (e & He & _).
  destruct (expanded_Ok _ _ He)
    as (s & bins & d' & Hsel & Hk & Hidx & _ & _ & Hlen & Hnd & Hbins).
  rewrite (category_cells_select _ _ Hsel) in Hrect.
  set (rs := map (split_cell ";") (values s)) in *.
  assert (HA : forall i x j, values s !! i = Some x -> (j < max_len rs)%nat ->
             exists t n, nth j (split_cell ";" x) NaN = Str t /\ indicator t = Some n).
  { intros i x j Hi Hj.
    destruct (lookup_lt_is_Some_2 bins j ltac:(lia)) as [b Hb].
    destruct (Hbins j b Hb) as (_ & Hall & _).
    assert (Hcell : values (split_column rs j) !! i
                    = Some (nth j (split_cell ";" x) NaN)).
    { unfold split_column, rs. cbn [values].
      now rewrite !list_lookup_fmap, Hi. }
    destruct (Forall2_lookup_l _ _ _ _ _ Hall Hcell) as (y & _ & t & n & Ht & Hn & _).
    eauto. }
  assert (HC : forall i x, values s !! i = Some x ->
             (1 <= max_len rs)%nat /\
             exists cat, x = Str cat /\
               length (str_split ";" cat) = max_len rs /\
               forall t, t ∈ str_split ";" cat -> t <> EmptyString).
  { intros i x Hi.
    assert (Hr : split_cell ";" x ∈ rs).
    { unfold rs. apply list_elem_of_fmap. exists x. split; [reflexivity|].
      eapply list_elem_of_lookup_2; eauto. }
    pose proof (max_len_ge _ _ Hr) as Hle.
    pose proof (split_cell_nonempty x) as H1.
    split; [lia|].
    destruct (HA i x 0%nat Hi ltac:(lia)) as (t0 & n0 & Ht0 & _).
    apply split_cell_token in Ht0 as (cat & -> & _).
    exists cat. split; [reflexivity|].
    simpl in Hle. rewrite length_map in Hle.
    split.
    - destruct (decide (length (str_split ";" cat) < max_len rs)%nat) as [Hlt|]; [|lia].
      destruct (HA i (Str cat) _ Hi Hlt) as (t & n & Ht & _).
      simpl in Ht. rewrite nth_overflow in Ht by (rewrite length_map; lia).
      discriminate.
    - intros t Ht.
      destruct (proj1 (list_elem_of_lookup _ _) Ht) as [j Hj].
      destruct (HA i (Str cat) j Hi) as (t' & n & Ht' & Hn).
      { apply lookup_lt_Some in Hj. lia. }
      destruct (token_split_cell (Str cat) j cat t eq_refl Hj) as [Hnth _].
      rewrite Hnth in Ht'. injection Ht' as <-.
      eapply indicator_nonempty; eauto. }
  unfold uniform. rewrite Hsel.
  destruct (index d) as [|i0 idx] eqn:Ei; [congruence|].
  unfold nrows in Hrect. rewrite Ei in Hrect. simpl in Hrect.
  destruct (values s) as [|x0 vs] eqn:Hvs; [discriminate|].
  destruct (HC 0%nat x0 eq_refl) as (HW & cat0 & -> & Hw0 & _).
  rewrite Hk, Ascii.eqb_refl, andb_true_l. apply andb_true_iff. split.
  - rewrite <- Hvs. apply forallb_forall. intros x Hx. apply list_elem_of_In in Hx.
    destruct (proj1 (list_elem_of_lookup _ _) Hx) as [i Hi]. rewrite Hvs in Hi.
    destruct (HC i x Hi) as (_ & cat & -> & Hw & Hne).
    unfold uniform_row. apply andb_true_iff. split.
    + apply Nat.eqb_eq. congruence.
    + apply forallb_forall. intros t Ht. apply list_elem_of_In in Ht.
      apply negb_true_iff. apply String.eqb_neq. now apply Hne.
  - apply bool_decide_eq_true. apply NoDup_alt. intros j1 j2 y H1 H2.
    assert (Hname : forall j, (str_drop_last2 <$> str_split ";" cat0) !! j = Some y ->
              (fst <$> bins) !! j = Some (Str y)).
    { intros j Hj. apply list_lookup_fmap_Some in Hj as (t & -> & Ht).
      assert (Hjw : (j < length bins)%nat)
        by (apply lookup_lt_Some in Ht; lia).
      destruct (lookup_lt_is_Some_2 bins j Hjw) as [b Hb].
      destruct (Hbins j b Hb) as (_ & _ & Hlam).
      unfold rs in Hlam. rewrite <- Hvs in Hlam.
      destruct (colname_token d s j _ Hsel Hlam) as (t0 & Ht0 & Eb).
      destruct (token_lookup _ _ _ _ _ Hsel Ht0) as (cat & Hcat & Hsplit).
      rewrite Hvs in Hcat. injection Hcat as <-.
      rewrite Ht in Hsplit. injection Hsplit as <-.
      now rewrite list_lookup_fmap, Hb, <- Eb. }
    exact (proj1 (NoDup_alt _) Hnd j1 j2 (Str y) (Hname j1 H1) (Hname j2 H2)).
Qed.
End cleaner_success.

(** X12.  On a table whose [categories] column has one cell per row,
    [clean_data] returns a table exactly when the encoding is uniform
    (a single text column [categories], at least one row, every
    category string with as many tokens as the first, none empty, the
    derived names distinct) and the final character of every token is
    a digit.  In every other case it raises. *)
Theorem clean_succeeds_iff (d : DataFrame) :
  length (category_cells d) = nrows d ->
  ((exists out, run_clean_data d = Ok out) <->
   uniform d = true /\
   forall i j t c,
     token d i j = Some t -> str_last t = Some c -> digit_value c <> None).
Proof.
  intros Hrect. rewrite run_clean_data_cleaned. split.
  - intros [out Hout]. split; [eapply cleaned_uniform; eauto|].
    intros i j t c Ht Hc Hd.
    exact (nondigit_not_cleaned d i j t c out Ht Hc Hd Hout).
  - intros [Hu Hdig]. destruct (uniform_cleaned d Hu) as [H|H]; [assumption|].
    apply ValueError_nondigit in H as (i & j & t & c & Ht & Hc & Hd).
    now destruct (Hdig i j t c Ht Hc).
Qed.

(** X12 on the example join, which is uniformly encoded, and on the
    join with a shorter second row, which is not. *)
Lemma clean_succeeds_iff_witness :
  (exists out, run_clean_data example_joined = Ok out) /\
  uniform example_joined = true /\ uniform ragged_joined = false.
Proof.
  split; [eexists; reflexivity|].
  destruct (proj1 (clean_succeeds_iff example_joined eq_refl)
              (ex_intro _ _ eq_refl)) as [Hu _].
  split; [exact Hu|reflexivity].
Defined.

(** ** Tokens: splitting the category string, name and value of a token *)

Section tokens.
Implicit Types (s t name : string) (sep a b : ascii).

Lemma substring_prefix name t :
  substring 0 (String.length name) (name +:+ t) = name.
Proof. induction name as [|c name IH]; simpl; [now destruct t|now rewrite IH]. Qed.

Lemma str_last_append name t :
  t <> EmptyString -> str_last (name +:+ t) = str_last t.
Proof.
  intros Ht. induction name as [|c name IH]; [reflexivity|].
  simpl. destruct (name +:+ t) as [|c' u] eqn:E.
  - destruct name; cbv [append] in E; [congruence|discriminate].
  - exact IH.
Qed.

Lemma str_split_cons sep c s :
  c <> sep ->
  str_split sep (String c s) =
  match str_split sep s with
  | t :: ts => String c t :: ts
  | [] => [String c EmptyString]
  end.
Proof.
  intros H. simpl. destruct (Ascii.eqb_spec c sep); [contradiction|reflexivity].
Qed.

Lemma str_split_sep sep s :
  str_split sep (String sep s) = EmptyString :: str_split sep s.
Proof. simpl. now rewrite Ascii.eqb_refl. Qed.

(** Splitting a string that is free of the separator. *)
Lemma str_split_free sep t :
  char_in sep t = false -> str_split sep t = [t].
Proof.
  induction t as [|c t IH]; [reflexivity|]. simpl.
  intros H. apply orb_false_iff in H as [Hc Ht].
  rewrite Ascii.eqb_sym, Hc, IH by assumption. reflexivity.
Qed.

Lemma str_split_append sep t s :
  char_in sep t = false ->
  str_split sep (t +:+ String sep s) = t :: str_split sep s.
Proof.
  induction t as [|c t IH]; simpl; intros H.
  - now rewrite Ascii.eqb_refl.
  - apply orb_false_iff in H as [Hc Ht].
    rewrite Ascii.eqb_sym, Hc, IH by assumption. reflexivity.
Qed.
End tokens.

(** X13.  Name and value of a token, as the two lambdas of the loop
    and the lambda of line 42 compute them: the derived column name is
    the token without its last two characters, whatever these are, and
    the value is decided by the last character alone.  So a token made
    of a name, a separating character and a last character gives back
    the name, and gives 1 or 0 as the last character is a digit above
    0 or the digit 0; when it is no digit, [int] raises [ValueError]. *)
Theorem token_name_value (name : string) (a b : ascii) :
  lam_colname (Str (name +:+ String a (String b EmptyString))) = Ok (Str name) /\
  (lam_last (Str (name +:+ String a (String b EmptyString))) ≫= lam_binary)
  = match digit_value b with
    | Some n => Ok (Num (if Z.ltb 0 n then 1 else 0))
    | None => Raise ValueError
    end.
Proof.
  split.
  - simpl. unfold str_drop_last2. rewrite length_append. simpl.
    replace (String.length name + 2 - 2)%nat with (String.length name) by lia.
    now rewrite substring_prefix.
  - unfold lam_last. rewrite str_last_append by discriminate.
    cbn [str_last mbind result_bind]. apply lam_binary_char.
Qed.

(** X13 on the tokens ["related-1"], ["related-0"], ["aid-2"] and
    ["related-x"]. *)
Lemma token_name_value_witness :
  lam_colname (Str "related-1") = Ok (Str "related") /\
  (lam_last (Str "related-1") ≫= lam_binary) = Ok (Num 1) /\
  (lam_last (Str "related-0") ≫= lam_binary) = Ok (Num 0) /\
  (lam_last (Str "aid-2") ≫= lam_binary) = Ok (Num 1) /\
  (lam_last (Str "related-x") ≫= lam_binary) = Raise ValueError.
Proof.
  split; [exact (proj1 (token_name_value "related" "-" "1"))|].
  split; [exact (proj2 (token_name_value "related" "-" "1"))|].
  split; [exact (proj2 (token_name_value "related" "-" "0"))|].
  split; [exact (proj2 (token_name_value "aid" "-" "2"))|].
  exact (proj2 (token_name_value "related" "-" "x")).
Defined.

(** X14.  Splitting at [;] and joining with [;] are inverse to each
    other: the tokens of a category string, joined again, give the
    string, and a non-empty list of tokens that are free of [;] is what
    the split of their join returns.  The split of any string has at
    least one token. *)
Theorem split_join_inverse (sep : ascii) :
  (forall s, str_join sep (str_split sep s) = s) /\
  (forall s, str_split sep s <> []) /\
  (forall ts, ts <> [] -> Forall (fun t => char_in sep t = false) ts ->
              str_split sep (str_join sep ts) = ts).
Proof.
  split; [|split].
  - induction s as [|c s IH]; [reflexivity|].
    destruct (Ascii.eqb_spec c sep) as [->|Hne].
    + rewrite str_split_sep.
      pose proof (str_split_nonempty sep s) as Hlen.
      destruct (str_split sep s) as [|t ts] eqn:E; [simpl in Hlen; lia|].
      change (str_join sep (EmptyString :: t :: ts))
        with (String sep (str_join sep (t :: ts))).
      now rewrite IH.
    + rewrite str_split_cons by assumption.
      pose proof (str_split_nonempty sep s) as Hlen.
      destruct (str_split sep s) as [|t ts] eqn:E; [simpl in Hlen; lia|].
      rewrite <- IH. now destruct ts.
  - intros s H. pose proof (str_split_nonempty sep s) as Hlen.
    rewrite H in Hlen. simpl in Hlen. lia.
  - induction ts as [|t ts IH]; intros Hne Hall; [congruence|].
    apply Forall_cons in Hall as [Ht Hall].
    destruct ts as [|t' ts].
    + simpl. now apply str_split_free.
    + change (str_join sep (t :: t' :: ts))
        with (t +:+ String sep (str_join sep (t' :: ts))).
      rewrite str_split_append by assumption.
      f_equal. apply IH; [discriminate|assumption].
Qed.

(** X14 on a category string of the example. *)
Lemma split_join_inverse_witness :
  str_split ";" "related-1;request-0" = ["related-1"; "request-0"] /\
  str_split ";" (str_join ";" ["related-1"; "request-0"])
  = ["related-1"; "request-0"].
Proof.
  split; [reflexivity|].
  apply (proj2 (proj2 (split_join_inverse ";"))); [discriminate|].
  repeat constructor.
Defined.

(** ** [save_data]: several writes *)

(** X15.  The last save wins: when a frame has been stored in a
    database file and a second frame is then stored in the same file,
    the databases are as if only the second had been stored.  The
    table holds the second frame, nothing of the first is left, and no
    other table and no other database has changed. *)
Theorem save_data_twice (h : heap) (df1 df2 : loc) (d1 d2 : DataFrame)
    (p : string) (ds ds1 ds2 : databases) :
  h !! df1 = Some d1 -> h !! df2 = Some d2 ->
  save_data df1 p h ds = (Ok tt, ds1) ->
  save_data df2 p h ds1 = (Ok tt, ds2) ->
  save_data df2 p h ds = (Ok tt, ds2) /\
  stored ds2 ("sqlite:///" +:+ p) "DisasterMessages" = Some (table_of d2) /\
  forall url name,
    (url, name) <> ("sqlite:///" +:+ p, "DisasterMessages") ->
    stored ds2 url name = stored ds url name.
Proof.
  intros H1 H2 S1 S2.
  destruct (save_data_Ok_inv _ _ _ _ _ _ _ H1 S1) as [_ ->].
  destruct (save_data_Ok_inv _ _ _ _ _ _ _ H2 S2) as [Hst ->].
  rewrite written_twice. split; [now apply save_data_Ok|].
  split; [apply stored_written|].
  intros url name. apply stored_written_other.
Qed.

(** X15 on two frames stored one after the other. *)
Lemma save_data_twice_witness :
  exists ds1 ds2,
    save_data 0%nat "a.db" [example_joined; aid_joined] ∅ = (Ok tt, ds1) /\
    save_data 1%nat "a.db" [example_joined; aid_joined] ds1 = (Ok tt, ds2) /\
    save_data 1%nat "a.db" [example_joined; aid_joined] ∅ = (Ok tt, ds2) /\
    stored ds2 "sqlite:///a.db" "DisasterMessages" = Some (table_of aid_joined).
Proof.
  eexists _, _. split; [reflexivity|]. split; [reflexivity|].
  destruct (save_data_twice [example_joined; aid_joined] 0%nat 1%nat
              example_joined aid_joined "a.db" ∅ _ _
              eq_refl eq_refl eq_refl eq_refl) as (Ha & Hb & _).
  split; [exact Ha|exact Hb].
Defined.

(** ** Rectangular tables and the stored rows *)

Section rectangular_tables.
Implicit Types (d e out m : DataFrame) (s : Series).

Lemma merge_rectangular m (c : DataFrame) df :
  merge m c (Str "id") "_left" "_right" = Ok df -> rectangular df.
Proof.
  intros Hmerge.
  destruct (merge_frame _ _ _ Hmerge) as (lk & rk & _ & _ & ->).
  intros c0 Hc0. unfold nrows. cbn [index cols] in *. rewrite length_seq.
  apply elem_of_app in Hc0 as [Hc0|Hc0];
    apply list_elem_of_fmap in Hc0 as (c1 & -> & _);
    unfold take_rows; simpl; now rewrite !length_map.
Qed.

Lemma expanded_rectangular d e :
  rectangular d -> expanded d = Ok e -> rectangular e.
Proof.
  intros Hrect He.
  destruct (expanded_Ok _ _ He)
    as (s & bins & d' & Hsel & _ & _ & Hd' & -> & _ & _ & Hbins).
  intros c Hc. unfold nrows. cbn [index cols] in *.
  apply elem_of_app in Hc as [Hc|Hc].
  - rewrite (drop_columns_Ok _ _ _ Hd') in Hc. cbn [cols] in Hc.
    apply list_elem_of_In, filter_In in Hc as [Hc _].
    apply list_elem_of_In in Hc. now apply Hrect.
  - destruct (proj1 (list_elem_of_lookup _ _) Hc) as [j Hj].
    destruct (Hbins j c Hj) as (_ & Hall & _).
    apply Forall2_length in Hall. rewrite <- Hall.
    unfold split_column. simpl. rewrite !length_map.
    exact (Hrect _ (select_singleton_elem _ _ _ Hsel)).
Qed.

Lemma cleaned_rectangular d out :
  rectangular d -> cleaned d = Ok out -> rectangular out.
Proof.
  intros Hrect Hout.
  destruct (cleaned_Ok _ _ Hout) as (e & He & -> & _).
  pose proof (expanded_rectangular _ _ Hrect He) as Hre.
  intros c Hc. unfold frame_apply, drop_duplicates, nrows in *.
  cbn [index cols] in *. rewrite map_map in Hc.
  apply list_elem_of_fmap in Hc as (c0 & -> & Hc0). cbn [snd].
  rewrite lam_fill_values. cbn [values kind]. rewrite length_map.
  apply take_mask_same_length. now apply Hre.
Qed.

(** The rows of a rectangular table are made of its cells. *)
Lemma rectangular_rows out r v :
  rectangular out -> r ∈ rows out -> v ∈ r ->
  exists c, c ∈ cols out /\ v ∈ values c.2.
Proof.
  intros Hrect Hr Hv.
  destruct (proj1 (list_elem_of_lookup _ _) Hr) as [i Hi].
  assert (Hlt : (i < nrows out)%nat).
  { apply lookup_lt_Some in Hi. unfold rows in Hi.
    now rewrite rows_of_length in Hi. }
  unfold rows in Hi. rewrite rows_of_lookup in Hi by assumption.
  injection Hi as <-. unfold series in Hv. rewrite !map_map in Hv.
  apply list_elem_of_fmap in Hv as (c & -> & Hc).
  exists c. split; [assumption|].
  apply nth_elem. rewrite (Hrect c Hc). exact Hlt.
Qed.

Lemma rows_width out r :
  r ∈ rows out -> length r = length (cols out).
Proof.
  intros Hr. destruct (proj1 (list_elem_of_lookup _ _) Hr) as [i Hi].
  assert (Hlt : (i < nrows out)%nat).
  { apply lookup_lt_Some in Hi. unfold rows in Hi.
    now rewrite rows_of_length in Hi. }
  unfold rows in Hi. rewrite rows_of_lookup in Hi by assumption.
  injection Hi as <-. unfold series. now rewrite !length_map.
Qed.

Lemma cleaned_no_missing d out c v :
  cleaned d = Ok out -> c ∈ cols out -> v ∈ values c.2 -> v <> NaN.
Proof.
  intros Hout Hc Hv.
  destruct (cleaned_Ok _ _ Hout) as (e & _ & -> & _).
  unfold frame_apply in Hc. cbn [cols] in Hc.
  apply list_elem_of_fmap in Hc as (c0 & -> & _). cbn [snd] in Hv.
  rewrite lam_fill_values in Hv.
  apply list_elem_of_fmap in Hv as (v0 & -> & _). apply filled_not_missing.
Qed.
End rectangular_tables.

(** X16.  [clean_data] keeps tables rectangular: when every column of
    the argument has one cell per row, so has every column of the table
    returned, the derived columns included. *)
Theorem clean_keeps_rectangular (d out : DataFrame) :
  rectangular d -> run_clean_data d = Ok out -> rectangular out.
Proof.
  rewrite run_clean_data_cleaned. intros Hrect Hout.
  eapply cleaned_rectangular; eauto.
Qed.

(** X16 on the example join. *)
Lemma clean_keeps_rectangular_witness :
  exists out, run_clean_data example_joined = Ok out /\ rectangular out.
Proof.
  eexists. split; [reflexivity|].
  apply (clean_keeps_rectangular example_joined _).
  - apply (merge_rectangular example_messages example_categories). reflexivity.
  - reflexivity.
Defined.

(** X17.  After a complete run of [main] the table stored under
    ['DisasterMessages'] has, in every row, one field for each of its
    columns, and no field of it is a missing value. *)
Theorem stored_table_complete (p mp cp dp : string) (w w' : world) :
  main [p; mp; cp; dp] w = (Ok tt, w') ->
  exists t,
    stored (dbs w') ("sqlite:///" +:+ dp) "DisasterMessages" = Some t /\
    forall r, r ∈ table_rows t ->
      length r = length (table_columns t) /\ ~ (NaN ∈ r).
Proof.
  rewrite main_outcome.
  destruct (run_load_data (files w) mp cp) as [df|e] eqn:Hload; [|discriminate].
  destruct (run_clean_data df) as [out|e] eqn:Hclean; [|discriminate].
  destruct (save_data 0%nat dp [out] (dbs w)) as [[u|e] ds'] eqn:Hsave;
    [|discriminate].
  destruct (save_data_Ok_inv [out] 0%nat out _ _ _ _ eq_refl Hsave) as [_ ->].
  intros [= <-]. exists (table_of out). cbn [dbs].
  split; [apply stored_written|].
  rewrite run_clean_data_cleaned in Hclean.
  destruct (run_load_data_Ok _ _ _ _ Hload) as (m & c & _ & _ & Hmerge).
  pose proof (cleaned_rectangular _ _ (merge_rectangular _ _ _ Hmerge) Hclean)
    as Hrect.
  intros r Hr. unfold table_of in *. cbn [table_rows table_columns] in *.
  split.
  - rewrite length_map. now apply rows_width.
  - intros Hnan.
    destruct (rectangular_rows _ _ _ Hrect Hr Hnan) as (c0 & Hc0 & Hv).
    exact (cleaned_no_missing _ _ _ _ Hclean Hc0 Hv eq_refl).
Qed.

(** X17 on the example run. *)
Lemma stored_table_complete_witness :
  exists t,
    stored (dbs (main example_argv example_world).2)
      "sqlite:///DisasterResponse.db" "DisasterMessages" = Some t /\
    forall r, r ∈ table_rows t ->
      length r = length (table_columns t) /\ ~ (NaN ∈ r).
Proof.
  exact (stored_table_complete "process_data.py" "messages.csv" "categories.csv"
           "DisasterResponse.db" example_world
           (main example_argv example_world).2 eq_refl).
Defined.

(** ** What the joins and the database refuse *)

Section refusals.
Implicit Types (m d out : DataFrame) (s lk rk : Series) (l : list label).

Lemma repeated_from_length l : forall seen,
  length (repeated_from seen l) = length l.
Proof. induction l as [|x l IH]; intros seen; simpl; [|rewrite IH]; reflexivity. Qed.

Lemma repeated_from_NoDup l : forall seen i,
  NoDup l -> (forall x, x ∈ l -> x ∉ seen) ->
  (i < length l)%nat -> repeated_from seen l !! i = Some false.
Proof.
  induction l as [|x l IH]; intros seen i Hnd Hseen Hi; simpl in *; [lia|].
  apply NoDup_cons in Hnd as [Hx Hnd]. destruct i as [|i]; simpl.
  - f_equal. apply bool_decide_eq_false. apply Hseen. now left.
  - apply IH; [assumption| |lia].
    intros y Hy Hin. apply elem_of_cons in Hin as [->|Hin]; [contradiction|].
    apply (Hseen y); [now right|assumption].
Qed.

Lemma repeated_from_seen l : forall seen j x,
  l !! j = Some x -> x ∈ seen -> repeated_from seen l !! j = Some true.
Proof.
  induction l as [|y l IH]; intros seen j x Hj Hx; [discriminate|].
  destruct j as [|j]; simpl in *.
  - injection Hj as ->. f_equal. now apply bool_decide_eq_true.
  - apply (IH _ _ x); [assumption|now right].
Qed.

Lemma repeated_from_later l : forall seen i j x,
  (i < j)%nat -> l !! i = Some x -> l !! j = Some x ->
  repeated_from seen l !! j = Some true.
Proof.
  induction l as [|y l IH]; intros seen i j x Hij Hi Hj; [discriminate|].
  destruct j as [|j]; [lia|]. destruct i as [|i]; simpl in *.
  - injection Hi as ->. apply (repeated_from_seen _ _ _ x); [assumption|now left].
  - apply (IH _ i _ x); [lia|assumption..].
Qed.

(** A label that the suffix makes equal to a later or an earlier one
    of a list without repetitions is reported. *)
Lemma suffix_duplicates_true l (g : label -> label) i j x :
  NoDup l -> (i < j)%nat ->
  map g l !! i = Some x -> map g l !! j = Some x ->
  suffix_duplicates l (map g l) = true.
Proof.
  intros Hnd Hij Hi Hj. unfold suffix_duplicates.
  apply existsb_exists. exists (false, true). split; [|reflexivity].
  apply list_elem_of_In. apply (list_elem_of_lookup_2 _ j).
  apply lookup_zip_with_Some. exists false, true. split; [reflexivity|].
  assert (Hlt : (j < length l)%nat).
  { apply lookup_lt_Some in Hj. now rewrite length_map in Hj. }
  split.
  - apply repeated_from_NoDup; [assumption| |assumption].
    intros y _. apply not_elem_of_nil.
  - now apply (repeated_from_later _ _ i j x).
Qed.

Lemma same_kind_compatible lk rk :
  kind lk = kind rk -> incompatible_keys lk rk = false.
Proof.
  intros E. unfold incompatible_keys, object_numeric. rewrite E.
  destruct (xorb _ _); [reflexivity|].
  rewrite xorb_nilpotent, orb_false_r.
  destruct (Ascii.eqb_spec (kind rk) "O"%char) as [->|Hk]; reflexivity.
Qed.

Lemma string_like_text (vs : list cell) :
  vs <> [] -> Forall (fun v => exists t, v = Str t) vs -> string_like vs = true.
Proof.
  intros Hne Hall. unfold string_like. apply andb_true_iff. split.
  - destruct vs as [|v vs]; [contradiction|].
    apply Forall_cons in Hall as [[t ->] _]. reflexivity.
  - apply negb_true_iff. apply not_true_is_false. intros H.
    apply existsb_exists in H as (v & Hv & Hnum).
    apply list_elem_of_In in Hv.
    destruct (proj1 (Forall_forall _ _) Hall v Hv) as [t ->]. discriminate.
Qed.

Lemma append_longer (n t : string) : t <> EmptyString -> n +:+ t <> n.
Proof.
  intros Ht E. apply (f_equal String.length) in E.
  rewrite length_append in E. destruct t; [contradiction|]. simpl in E. lia.
Qed.
End refusals.

(** X18.  [load_data] raises [ValueError] when the identifiers of one
    file are integers and those of the other are text: pandas refuses
    to compare such keys, whatever their values. *)
Theorem load_data_key_types (fs : csv_files) (mp cp : string)
    (m c : DataFrame) (lk rk : Series) :
  fs !! mp = Some m -> fs !! cp = Some c ->
  select (Str "id") (cols m) = [lk] -> select (Str "id") (cols c) = [rk] ->
  values lk <> [] -> values rk <> [] ->
  (kind lk = "i"%char /\ kind rk = "O"%char /\
   Forall (fun v => exists t, v = Str t) (values rk)) \/
  (kind rk = "i"%char /\ kind lk = "O"%char /\
   Forall (fun v => exists t, v = Str t) (values lk)) ->
  run_load_data fs mp cp = Raise ValueError.
Proof.
  intros Hm Hc Hlk Hrk Hl Hr Hkinds.
  rewrite run_load_data_eq, Hm, Hc.
  unfold merge, mbind, result_bind. rewrite !key_column_cases, Hlk, Hrk.
  replace (incompatible_keys lk rk) with true; [reflexivity|].
  symmetry. unfold incompatible_keys, object_numeric.
  destruct (values lk) as [|a vl] eqn:El; [contradiction|].
  destruct (values rk) as [|b vr] eqn:Er; [contradiction|].
  cbn [no_cells xorb].
  destruct Hkinds as [(Kl & Kr & Ht)|(Kr & Kl & Ht)]; rewrite Kl, Kr.
  - rewrite (string_like_text (b :: vr)) by (assumption || discriminate).
    reflexivity.
  - rewrite (string_like_text (a :: vl)) by (assumption || discriminate).
    reflexivity.
Qed.

(** X18 on the example messages and categories with text identifiers. *)
Lemma load_data_key_types_witness :
  run_load_data text_id_files "messages.csv" "categories.csv" = Raise ValueError.
Proof.
  apply (load_data_key_types text_id_files "messages.csv" "categories.csv"
           example_messages text_id_categories
           (mkSeries "i" [Num 1; Num 2]) (mkSeries "O" [Str "a"; Str "b"])
           eq_refl eq_refl eq_refl eq_refl); [discriminate..|].
  left. split; [reflexivity|]. split; [reflexivity|].
  repeat constructor; eauto.
Defined.

(** X19.  [load_data] raises [MergeError] when the suffix [_left]
    makes a label that the messages already have: the messages carry
    a column [n] and a column [n_left], and the categories carry a
    column [n] but no column [n_left].  (The identifiers are of one
    dtype kind and the labels of the messages are pairwise different,
    so that the join comes as far as the labels.) *)
Theorem load_data_suffix_clash (fs : csv_files) (mp cp : string)
    (m c : DataFrame) (lk rk : Series) (n : string) :
  fs !! mp = Some m -> fs !! cp = Some c ->
  select (Str "id") (cols m) = [lk] -> select (Str "id") (cols c) = [rk] ->
  kind lk = kind rk ->
  NoDup (columns m) ->
  Str n ∈ columns m -> Str (n +:+ "_left") ∈ columns m ->
  Str n ∈ map fst (other_columns (Str "id") c) ->
  ~ (Str (n +:+ "_left") ∈ map fst (other_columns (Str "id") c)) ->
  run_load_data fs mp cp = Raise MergeError.
Proof.
  intros Hm Hc Hlk Hrk Hk Hnd Hn Hnl Hcn Hcnl.
  rewrite run_load_data_eq, Hm, Hc.
  unfold merge, mbind, result_bind. rewrite !key_column_cases, Hlk, Hrk.
  rewrite (same_kind_compatible _ _ Hk).
  fold (other_columns (Str "id") c).
  set (overlap := List.filter _ (columns m)).
  assert (Hover : Str n ∈ overlap).
  { apply list_elem_of_In, filter_In. split; [now apply list_elem_of_In|].
    now apply bool_decide_eq_true. }
  assert (Hnover : ~ (Str (n +:+ "_left") ∈ overlap)).
  { intros H. apply list_elem_of_In, filter_In in H as [_ H].
    apply bool_decide_eq_true in H. contradiction. }
  destruct (proj1 (list_elem_of_lookup _ _) Hn) as [i Hi].
  destruct (proj1 (list_elem_of_lookup _ _) Hnl) as [j Hj].
  assert (Hgi : map (with_suffix overlap "_left") (columns m) !! i
                = Some (Str (n +:+ "_left"))).
  { rewrite list_lookup_fmap, Hi. cbn. unfold with_suffix.
    now rewrite bool_decide_eq_true_2. }
  assert (Hgj : map (with_suffix overlap "_left") (columns m) !! j
                = Some (Str (n +:+ "_left"))).
  { rewrite list_lookup_fmap, Hj. cbn. unfold with_suffix.
    now rewrite bool_decide_eq_false_2. }
  assert (Hij : i <> j).
  { intros ->. rewrite Hi in Hj. injection Hj as E. symmetry in E.
    now apply append_longer in E. }
  replace (suffix_duplicates (columns m) _) with true; [reflexivity|].
  symmetry. destruct (decide (i < j)%nat).
  - now apply (suffix_duplicates_true _ _ i j (Str (n +:+ "_left"))).
  - apply (suffix_duplicates_true _ _ j i (Str (n +:+ "_left")));
      [assumption|lia|assumption..].
Qed.

(** X19 on messages with the columns [genre] and [genre_left]. *)
Lemma load_data_suffix_clash_witness :
  run_load_data suffix_files "messages.csv" "categories.csv" = Raise MergeError.
Proof.
  apply (load_data_suffix_clash suffix_files "messages.csv" "categories.csv"
           suffix_messages genre_categories
           (mkSeries "i" [Num 1]) (mkSeries "i" [Num 1]) "genre"
           eq_refl eq_refl eq_refl eq_refl eq_refl);
    apply (bool_decide_unpack _); vm_compute; exact I.
Defined.

(** X20.  A category that has the name of a column of the table makes
    the cleaned table one that the database does not take: it has two
    columns of that name, and [save_data] raises on it whatever the
    database file. *)
Theorem save_refuses_name_clash (d out : DataFrame) (x : label) (s : Series)
    (j : nat) (t : string) :
  run_clean_data d = Ok out ->
  (x, s) ∈ cols d -> x <> Str "categories" ->
  token d 0 j = Some t -> x = Str (str_drop_last2 t) ->
  ~ NoDup (columns out) /\
  storable out = false /\
  forall path ds, exists e ds', save_data 0%nat path [out] ds = (Raise e, ds').
Proof.
  rewrite run_clean_data_cleaned. intros Hout Hx Hxc Ht Hname.
  assert (Hdup : ~ NoDup (columns out)).
  { destruct (cleaned_Ok _ _ Hout) as (e & He & _ & Hcols).
    destruct (expanded_Ok _ _ He)
      as (s0 & bins & d' & Hsel & _ & _ & Hd' & -> & Hlen & _ & Hbins).
    pose proof (token_first_row_width d s0 bins j t Hsel Hlen Ht) as Hj.
    destruct (lookup_lt_is_Some_2 bins j Hj) as [b Hb].
    destruct (Hbins j b Hb) as (_ & _ & Hb1).
    destruct (colname_token d s0 j _ Hsel Hb1) as (t0 & Ht0 & Eb).
    rewrite Ht in Ht0. injection Ht0 as <-.
    unfold columns. rewrite Hcols. cbn [cols].
    rewrite (drop_columns_Ok _ _ _ Hd'). cbn [cols].
    rewrite map_map.
    rewrite (map_ext (fun c => (finished _ c).1) fst)
      by (intros c; apply finished_kind).
    rewrite map_app. intros Hnd. apply NoDup_app in Hnd as (_ & Hdis & _).
    apply (Hdis x).
    - apply list_elem_of_fmap. exists (x, s). split; [reflexivity|].
      apply list_elem_of_In, filter_In. split; [now apply list_elem_of_In|].
      unfold has_label. cbn [fst]. now rewrite bool_decide_eq_false_2.
    - apply list_elem_of_fmap. exists b. split; [congruence|].
      eapply list_elem_of_lookup_2; eauto. }
  assert (Hst : storable out = false).
  { unfold storable. apply andb_false_iff. right.
    apply bool_decide_eq_false. intros Hnd. apply Hdup.
    apply NoDup_fmap_1 in Hnd. unfold column_names in Hnd.
    now apply NoDup_fmap_1 in Hnd. }
  split; [assumption|]. split; [assumption|].
  intros path ds.
  destruct (save_data_cases [out] 0%nat out path ds eq_refl)
    as [[H _]|[_ [e [H|H]]]]; [congruence|eauto..].
Qed.

(** X20 on a table with a column [related] and a category [related]. *)
Lemma save_refuses_name_clash_witness :
  exists out,
    run_clean_data clash_joined = Ok out /\
    columns out = [Str "id"; Str "related"; Str "related"; Str "request"] /\
    storable out = false.
Proof.
  eexists. split; [reflexivity|]. split; [reflexivity|].
  apply (save_refuses_name_clash clash_joined _ (Str "related")
           (mkSeries "O" [Str "yes"]) 0 "related-1" eq_refl).
  - apply (bool_decide_unpack _). vm_compute. exact I.
  - discriminate.
  - reflexivity.
  - reflexivity.
Defined.


